(** * BluBot hand driver: joints, eased trajectories and gestures

    A shallow embedding of [hand_with_telemetry.py].  Angles are Python
    numbers (ints from the calibration tables, floats once the easing
    curve has been applied); they are modelled here as rationals [Q],
    compared with [==] and [<=].  The arithmetic on them is given twice.
    In [Joint] it is exact: this is the reading used for what rounding
    leaves alone, the number and the order of the queued steps, the ends
    of a move and the gestures built from them.  In [Binary64] every
    operation rounds its result as a Python float does: this is the
    reading used for the values in between and for the flexion.  The
    servo bonnet, the clock and the MQTT client are global objects of the
    script: every call on them is recorded as an [Event] in the world's
    log. *)

From Stdlib Require Import ZArith QArith Qround Qminmax Qabs Qpower.
From Stdlib Require Import List Ascii String Bool Lia Lqa.
Import ListNotations.

Local Open Scope Z_scope.
Local Open Scope Q_scope.

(** ** Numbers *)

(** [a < b] on Python numbers, as a boolean. *)
Definition Qlt_bool (a b : Q) : bool := negb (Qle_bool b a).

(** [int(x)]: truncation towards zero. *)
Definition py_int (x : Q) : Z := Z.quot (Qnum x) (Zpos (Qden x)).

(** [round(x)]: the nearest integer, a tie going to the even one. *)
Definition py_round (x : Q) : Z :=
  let f := Qfloor x in
  let r := x - inject_Z f in
  if Qlt_bool r (1#2) then f
  else if Qlt_bool (1#2) r then (f + 1)%Z
  else if Z.even f then f else (f + 1)%Z.

(** [range(n)] *)
Definition range (n : nat) : list Z := map Z.of_nat (seq 0 n).

(** ** The easing curve *)

Definition cubic_ease_in_out (t : Q) : Q :=
  if Qlt_bool t (1#2) then
    4 * t * t * t
  else
    let f := 2 * t - 2 in
    (1#2) * f * f * f + 1.

(** ** Joint *)

Module Joint.

(** Class attributes. *)
Definition pulse_start : Z := 0%Z.
Definition servo_min : Z := 114%Z.
Definition servo_max : Z := 644%Z.
Definition delay_time : Q := 5 # 1000.

Record t : Type := mk {
  servo_channel : Z;
  name : string;
  min_pos : Q;
  max_pos : Q;
  position : Q;
  intermediate_positions : list Q
}.

(** Calls on the global [pwm] object and on [time]. *)
Inductive effect : Type :=
| set_pwm (channel on off : Z)
| sleep (seconds : Q).

(** [Joint.__init__(ch, name, open_pos, closed_pos)] *)
Definition init (ch : Z) (nm : string) (open_pos closed_pos : Q) : t :=
  {| servo_channel := ch;
     name := nm;
     min_pos := open_pos;
     max_pos := closed_pos;
     position := 0;
     intermediate_positions := [] |}.

Definition with_position (p : Q) (j : t) : t :=
  {| servo_channel := servo_channel j; name := name j;
     min_pos := min_pos j; max_pos := max_pos j;
     position := p;
     intermediate_positions := intermediate_positions j |}.

Definition with_queue (q : list Q) (j : t) : t :=
  {| servo_channel := servo_channel j; name := name j;
     min_pos := min_pos j; max_pos := max_pos j;
     position := position j;
     intermediate_positions := q |}.

(** [self.intermediate_positions.append(x)] *)
Definition append (x : Q) (j : t) : t :=
  with_queue (intermediate_positions j ++ [x]) j.

(** The two [if] statements at the head of [set_servo_angle]. *)
Definition clamp (j : t) (target_angle : Q) : Q :=
  let target_angle :=
    if Qlt_bool target_angle (min_pos j) then min_pos j else target_angle in
  let target_angle :=
    if Qlt_bool (max_pos j) target_angle then max_pos j else target_angle in
  target_angle.

Definition num_steps : nat := 50.

(** The value queued by one turn of the [for step in range(num_steps)]
    loop. *)
Definition eased_position (start_angle target_angle : Q) (step : Z) : Q :=
  let t := inject_Z step / (inject_Z (Z.of_nat num_steps) - 1) in
  let eased_step := cubic_ease_in_out t in
  (1 - eased_step) * start_angle + eased_step * target_angle.

(** [Joint.set_servo_angle(target_angle)] *)
Definition set_servo_angle (target_angle : Q) (j : t) : t :=
  let target_angle := clamp j target_angle in
  let start_angle := position j in
  fold_left
    (fun self step => append (eased_position start_angle target_angle step) self)
    (range num_steps) j.

(** [Joint.update()]: the flag returned, the joint afterwards and the
    calls made on the hardware. *)
Definition update (j : t) : bool * t * list effect :=
  match intermediate_positions j with
  | angle :: rest =>
      let pulse_width :=
        (Qfloor (angle * inject_Z (servo_max - servo_min) / 180)
         + servo_min)%Z in
      (false,
       with_position angle (with_queue rest j),
       [set_pwm (servo_channel j) pulse_start pulse_width; sleep delay_time])
  | [] => (true, j, [])
  end.

(** [Joint.get_flexion()]; [None] stands for the [ZeroDivisionError]
    raised when the two calibration bounds coincide. *)
Definition get_flexion (j : t) : option Z :=
  if Qeq_bool (max_pos j - min_pos j) 0 then None
  else Some (py_int ((position j - min_pos j) / (max_pos j - min_pos j) * 100)).

(** The angle a joint is heading for: the last queued position, or the
    current one when nothing is queued. *)
Definition final_target (j : t) : Q :=
  last (intermediate_positions j) (position j).

Definition idle (j : t) : bool :=
  match intermediate_positions j with [] => true | _ => false end.

(** The flexion percentage as the specification words it:
    [round(100 * (position - min_pos) / (max_pos - min_pos))]. *)
Definition flexion_percent_spec (j : t) : Z :=
  py_round (100 * (position j - min_pos j) / (max_pos j - min_pos j)).

(** The number that [get_flexion] truncates. *)
Definition flexion_ratio (j : t) : Q :=
  (position j - min_pos j) / (max_pos j - min_pos j) * 100.

(** The joint after one [update()]. *)
Definition tick (j : t) : t := snd (fst (update j)).

(** The joint once [update()] has emptied its queue. *)
Definition drain (j : t) : t :=
  with_position (final_target j) (with_queue [] j).

(** A method call on a joint, and a sequence of them run from a given
    state. *)
Inductive call : Type :=
| call_set_servo_angle (target_angle : Q)
| call_update.

Definition do_call (c : call) (j : t) : t :=
  match c with
  | call_set_servo_angle a => set_servo_angle a j
  | call_update => tick j
  end.

Definition run (cs : list call) (j : t) : t :=
  fold_left (fun j c => do_call c j) cs j.

Definition in_range (j : t) (x : Q) : Prop :=
  min_pos j <= x /\ x <= max_pos j.

(** The values that [set_servo_angle] queues, in closed form. *)
Definition steps (j : t) (target_angle : Q) : list Q :=
  map (eased_position (position j) (clamp j target_angle)) (range num_steps).

(** The pulse width that stands for an angle: the expression
    [angle * (servo_max - servo_min) // 180 + servo_min] of [update] and of
    [goto_servo_angle]. *)
Definition pulse_width (angle : Q) : Z :=
  (Qfloor (angle * inject_Z (servo_max - servo_min) / 180) + servo_min)%Z.

(** What the deprecated [goto_servo_angle] does to the outside: one call on
    [pwm] and the line [setting <name> to <position>]. *)
Inductive goto_effect : Type :=
| goto_set_pwm (channel on off : Z)
| goto_print (name : string) (position : Q).

(** [Joint.goto_servo_angle(angle)] *)
Definition goto_servo_angle (angle : Q) (j : t) : t * list goto_effect :=
  let angle := if Qlt_bool angle (min_pos j) then min_pos j else angle in
  let angle := if Qlt_bool (max_pos j) angle then max_pos j else angle in
  let pulse_width :=
    (Qfloor (angle * inject_Z (servo_max - servo_min) / 180) + servo_min)%Z in
  (with_position angle j,
   [goto_set_pwm (servo_channel j) pulse_start pulse_width;
    goto_print (name j) angle]).

End Joint.

(** ** Float arithmetic

    Python's [float] is IEEE binary64: the result of an operation is the
    exact result rounded to the nearest number with a significand of 53
    bits, a tie going to the even significand.  The exponent is left
    unbounded, so the model is that of the interpreter as long as no
    result overflows or underflows, which angles in degrees and their
    ratios do not.  An int that takes part in an operation with a float
    is first converted, exactly for the ints of the script. *)

Module Binary64.

(** The exponent of a positive number: the [e] with
    [2^e <= x < 2^(e+1)]. *)
Definition exponent (x : Q) : Z :=
  let e := (Z.log2 (Qnum x) - Z.log2 (Zpos (Qden x)))%Z in
  if Qle_bool (2 ^ e) x then e else (e - 1)%Z.

(** The unit in the last place of a number. *)
Definition ulp (x : Q) : Q := 2 ^ (exponent (Qabs x) - 52).

(** Rounding to the nearest binary64 number, ties to even. *)
Definition round (x : Q) : Q :=
  if Qeq_bool x 0 then 0
  else
    let m := inject_Z (py_round (Qabs x / ulp x)) in
    if Qle_bool 0 x then m * ulp x else - (m * ulp x).

(** Half a unit in the last place of 1: [2^-53]. *)
Definition eta : Q := 1 # 9007199254740992.

(** [x + y], [x - y], [x * y] and [x / y] on floats. *)
Definition add (x y : Q) : Q := round (x + y).
Definition sub (x y : Q) : Q := round (x - y).
Definition mul (x y : Q) : Q := round (x * y).
Definition div (x y : Q) : Q := round (x / y).

(** A number that a float holds exactly. *)
Definition representable (x : Q) : Prop := round x == x.

(** [cubic_ease_in_out(t)] *)
Definition cubic_ease_in_out (t : Q) : Q :=
  if Qlt_bool t (1#2) then
    mul (mul (mul 4 t) t) t
  else
    let f := sub (mul 2 t) 2 in
    add (mul (mul (mul (1#2) f) f) f) 1.

(** The value queued by one turn of the [for step in range(num_steps)]
    loop of [set_servo_angle]. *)
Definition eased_position (start_angle target_angle : Q) (step : Z) : Q :=
  let t := div (inject_Z step) (inject_Z (Z.of_nat Joint.num_steps - 1)) in
  let eased_step := cubic_ease_in_out t in
  add (mul (sub 1 eased_step) start_angle) (mul eased_step target_angle).

(** [Joint.set_servo_angle(target_angle)] *)
Definition set_servo_angle (target_angle : Q) (j : Joint.t) : Joint.t :=
  let target_angle := Joint.clamp j target_angle in
  let start_angle := Joint.position j in
  fold_left
    (fun self step =>
       Joint.append (eased_position start_angle target_angle step) self)
    (range Joint.num_steps) j.

(** The number that [get_flexion] truncates. *)
Definition flexion_ratio (j : Joint.t) : Q :=
  mul (div (sub (Joint.position j) (Joint.min_pos j))
         (sub (Joint.max_pos j) (Joint.min_pos j))) 100.

(** [Joint.get_flexion()]; [None] stands for the [ZeroDivisionError]
    raised when the difference of the two calibration bounds is zero. *)
Definition get_flexion (j : Joint.t) : option Z :=
  let span := sub (Joint.max_pos j) (Joint.min_pos j) in
  if Qeq_bool span 0 then None
  else
    Some (py_int (mul (div (sub (Joint.position j) (Joint.min_pos j)) span) 100)).

End Binary64.

(** ** Hand *)

(** The attributes of a [Hand] that hold a [Joint]; the two lists of the
    hand hold references to the same six objects. *)
Inductive JointRef : Type := Wrist | Thumb | Index | Middle | Ring | Pinkie.

Definition JointRef_eqb (a b : JointRef) : bool :=
  match a, b with
  | Wrist, Wrist | Thumb, Thumb | Index, Index
  | Middle, Middle | Ring, Ring | Pinkie, Pinkie => true
  | _, _ => false
  end.

Inductive exn : Type :=
| ZeroDivisionError | IndexError | ValueError | SyntaxError.

(** What is printed or published: a literal text, the telemetry line
    ["LEFT_HAND,<name>:<position>/<flexion>,...,<wrist name>:<flexion>"],
    the line [<channel> TX <data>] of [send_data], and the line
    [evaluating <text> as <value>] of the arithmetic mode. *)
Inductive Line : Type :=
| Literal (s : string)
| Telemetry (fingers : list (string * Q * Z)) (wrist_name : string)
            (wrist_flexion : Z)
| Tx (channel : string) (data : Line)
| Evaluating (text : string) (value : Z).

Inductive Event : Type :=
| hardware (e : Joint.effect)
| print (l : Line)
| publish (channel : string) (data : Line).

Definition TELEMETRY_TOPIC : string := "hand/telemetry".

Module HandState.

Record t : Type := mk {
  wrist : Joint.t;
  thumb : Joint.t;
  index : Joint.t;
  middle : Joint.t;
  ring : Joint.t;
  pinkie : Joint.t;
  fingers : list JointRef;
  fingers_not_thumb : list JointRef
}.

Definition joint (r : JointRef) (h : t) : Joint.t :=
  match r with
  | Wrist => wrist h | Thumb => thumb h | Index => index h
  | Middle => middle h | Ring => ring h | Pinkie => pinkie h
  end.

Definition set_joint (r : JointRef) (j : Joint.t) (h : t) : t :=
  {| wrist := if JointRef_eqb r Wrist then j else wrist h;
     thumb := if JointRef_eqb r Thumb then j else thumb h;
     index := if JointRef_eqb r Index then j else index h;
     middle := if JointRef_eqb r Middle then j else middle h;
     ring := if JointRef_eqb r Ring then j else ring h;
     pinkie := if JointRef_eqb r Pinkie then j else pinkie h;
     fingers := fingers h;
     fingers_not_thumb := fingers_not_thumb h |}.

Definition set_fingers (l : list JointRef) (h : t) : t :=
  {| wrist := wrist h; thumb := thumb h; index := index h;
     middle := middle h; ring := ring h; pinkie := pinkie h;
     fingers := l;
     fingers_not_thumb := fingers_not_thumb h |}.

Definition set_fingers_not_thumb (l : list JointRef) (h : t) : t :=
  {| wrist := wrist h; thumb := thumb h; index := index h;
     middle := middle h; ring := ring h; pinkie := pinkie h;
     fingers := fingers h;
     fingers_not_thumb := l |}.

End HandState.

(** ** Running the methods of the hand *)

(** The hand and everything the script has sent to the outside so far,
    most recent event first. *)
Record World : Type := mkWorld {
  hand : HandState.t;
  log : list Event
}.

(** A call returns a value and a new world, raises, or is still inside a
    [while] loop when the fuel given to that loop is spent. *)
Inductive outcome (A : Type) : Type :=
| Ok (a : A) (w : World)
| Raise (e : exn)
| OutOfFuel.
Arguments Ok {A} a w.
Arguments Raise {A} e.
Arguments OutOfFuel {A}.

Definition M (A : Type) : Type := World -> outcome A.

Definition ret {A} (a : A) : M A := fun w => Ok a w.

Definition bind {A B} (m : M A) (k : A -> M B) : M B :=
  fun w =>
    match m w with
    | Ok a w' => k a w'
    | Raise e => Raise e
    | OutOfFuel => OutOfFuel
    end.

Declare Scope hand_scope.
Delimit Scope hand_scope with hand.
Notation "x <- m ;; k" := (bind m (fun x => k))
  (at level 61, m at next level, right associativity) : hand_scope.
Notation "m ;; k" := (bind m (fun _ => k))
  (at level 61, right associativity) : hand_scope.
Local Open Scope hand_scope.

Definition raise {A} (e : exn) : M A := fun _ => Raise e.

Definition gets {A} (f : HandState.t -> A) : M A := fun w => Ok (f (hand w)) w.

Definition modify (f : HandState.t -> HandState.t) : M unit :=
  fun w => Ok tt {| hand := f (hand w); log := log w |}.

Definition emit (e : Event) : M unit :=
  fun w => Ok tt {| hand := hand w; log := e :: log w |}.

Fixpoint emit_all (es : list Event) : M unit :=
  match es with
  | [] => ret tt
  | e :: es' => emit e ;; emit_all es'
  end.

(** [for x in l: body(x)] *)
Fixpoint for_each {A} (l : list A) (body : A -> M unit) : M unit :=
  match l with
  | [] => ret tt
  | x :: l' => body x ;; for_each l' body
  end.

(** A [for] loop that updates one local variable. *)
Fixpoint for_fold {A S} (l : list A) (body : S -> A -> M S) (s : S) : M S :=
  match l with
  | [] => ret s
  | x :: l' => s' <- body s x ;; for_fold l' body s'
  end.

(** [while not cond(): pass] *)
Fixpoint while_not (fuel : nat) (cond : M bool) : M unit :=
  match fuel with
  | O => fun _ => OutOfFuel
  | S fuel' => done <- cond ;; if done then ret tt else while_not fuel' cond
  end.

(** [f.set_servo_angle(a)] on the joint that [f] refers to. *)
Definition set_servo_angle (f : JointRef) (target_angle : Q) : M unit :=
  modify (fun h => HandState.set_joint f
                     (Joint.set_servo_angle target_angle (HandState.joint f h)) h).

(** [f.update()] on the joint that [f] refers to. *)
Definition update_joint (f : JointRef) : M bool :=
  j <- gets (HandState.joint f) ;;
  let '(done, j', effects) := Joint.update j in
  modify (HandState.set_joint f j') ;;
  emit_all (map hardware effects) ;;
  ret done.

(** [f.get_flexion()] *)
Definition get_flexion (f : JointRef) : M Z :=
  j <- gets (HandState.joint f) ;;
  match Binary64.get_flexion j with
  | Some p => ret p
  | None => raise ZeroDivisionError
  end.

(** [send_data(channel, data)], for a non-empty [data]. *)
Definition send_data (channel : string) (data : Line) : M unit :=
  emit (print (Tx channel data)) ;;
  emit (publish channel data).

Module Hand.

(** [Hand.__init__()] *)
Definition init : HandState.t :=
  {| HandState.wrist := Joint.init 5 "wrist" 0 180;
     HandState.thumb := Joint.init 4 "t" 10 150;
     HandState.index := Joint.init 3 "i" 20 130;
     HandState.middle := Joint.init 2 "m" 0 140;
     HandState.ring := Joint.init 1 "r" 10 130;
     HandState.pinkie := Joint.init 0 "p" 10 120;
     HandState.fingers := [Thumb; Index; Middle; Ring; Pinkie];
     HandState.fingers_not_thumb := [Index; Middle; Ring; Pinkie] |}.

(** [Hand.show_positions()] *)
Definition show_positions : M unit :=
  fs <- gets HandState.fingers ;;
  data <- for_fold fs
            (fun data f =>
               j <- gets (HandState.joint f) ;;
               p <- get_flexion f ;;
               ret (data ++ [(Joint.name j, Joint.position j, p)]))
            [] ;;
  w <- gets HandState.wrist ;;
  p <- get_flexion Wrist ;;
  send_data TELEMETRY_TOPIC (Telemetry data (Joint.name w) p).

(** [Hand.update()] *)
Definition update : M bool :=
  fs <- gets HandState.fingers ;;
  ready <- for_fold fs
             (fun ready f =>
                done <- update_joint f ;;
                ret (if negb done then false else ready))
             true ;;
  (if negb ready then show_positions else ret tt) ;;
  ret ready.

(** [Hand.open_finger(f)] and [Hand.close_finger(f)] *)
Definition open_finger (f : JointRef) : M unit :=
  j <- gets (HandState.joint f) ;;
  set_servo_angle f (Joint.min_pos j).

Definition close_finger (f : JointRef) : M unit :=
  j <- gets (HandState.joint f) ;;
  set_servo_angle f (Joint.max_pos j).

(** [Hand.clear_thumb()] *)
Definition clear_thumb (fuel : nat) : M unit :=
  set_servo_angle Thumb 70 ;;
  while_not fuel (update_joint Thumb).

(** [Hand.close_thumb()] *)
Definition close_thumb (fuel : nat) : M unit :=
  while_not fuel update ;;
  set_servo_angle Thumb 120.

(** [Hand.make_fist()] *)
Definition make_fist (fuel : nat) : M unit :=
  clear_thumb fuel ;;
  fs <- gets HandState.fingers_not_thumb ;;
  for_each fs close_finger ;;
  close_thumb fuel.

(** [Hand.make_palm()] *)
Definition make_palm : M unit :=
  fs <- gets HandState.fingers ;;
  for_each fs open_finger.

(** [Hand.make_metal()] *)
Definition make_metal (fuel : nat) : M unit :=
  clear_thumb fuel ;;
  open_finger Index ;;
  close_finger Middle ;;
  close_finger Ring ;;
  open_finger Pinkie ;;
  close_thumb fuel.

(** [self.fingers.index(f)] *)
Fixpoint list_index (f : JointRef) (l : list JointRef) : option Z :=
  match l with
  | [] => None
  | x :: l' =>
      if JointRef_eqb x f then Some 0%Z
      else option_map Z.succ (list_index f l')
  end.

Definition fingers_index (f : JointRef) : M Z :=
  fs <- gets HandState.fingers ;;
  match list_index f fs with
  | Some i => ret i
  | None => raise ValueError
  end.

(** [self.fingers[i]], for [i >= 0] *)
Definition fingers_item (i : Z) : M JointRef :=
  fs <- gets HandState.fingers ;;
  match nth_error fs (Z.to_nat i) with
  | Some f => ret f
  | None => raise IndexError
  end.

(** [self.fingers.reverse()] *)
Definition fingers_reverse : M unit :=
  modify (fun h => HandState.set_fingers (rev (HandState.fingers h)) h).

(** [Hand.make_number(n)] *)
Definition make_number (fuel : nat) (n : Z) : M unit :=
  clear_thumb fuel ;;
  fs <- gets HandState.fingers_not_thumb ;;
  for_each fs
    (fun f =>
       i <- fingers_index f ;;
       if (i <=? n)%Z then open_finger f else close_finger f) ;;
  if (n >=? 5)%Z then open_finger Thumb else close_thumb fuel.

(** [Hand.display_binary(n)]; [rev (range 5)] is [range(4,-1,-1)]. *)
Definition display_binary (fuel : nat) (n : Z) : M unit :=
  if ((n >=? 0) && (n <=? 31))%Z then
    make_palm ;;
    while_not fuel update ;;
    fingers_reverse ;;
    for_each (rev (range 5))
      (fun i =>
         if negb (Z.land n (2 ^ i) =? 0)%Z then
           f <- fingers_item i ;;
           open_finger f ;;
           emit (print (Literal "1"))
         else
           f <- fingers_item i ;;
           close_finger f ;;
           emit (print (Literal "0"))) ;;
    fingers_reverse
  else
    ret tt.

(** [time.sleep(seconds)] *)
Definition sleep (seconds : Q) : M unit := emit (hardware (Joint.sleep seconds)).

(** [Hand.make_call_me()] *)
Definition make_call_me : M unit :=
  open_finger Thumb ;;
  close_finger Index ;;
  close_finger Middle ;;
  close_finger Ring ;;
  open_finger Pinkie.

(** [self.fingers_not_thumb.reverse()] *)
Definition fingers_not_thumb_reverse : M unit :=
  modify (fun h =>
            HandState.set_fingers_not_thumb (rev (HandState.fingers_not_thumb h)) h).

(** [Hand.make_casey_neistat_wave()] *)
Definition make_casey_neistat_wave : M unit :=
  make_palm ;;
  for_each (range 2)
    (fun _ =>
       sleep (1#2) ;;
       (fs <- gets HandState.fingers_not_thumb ;;
        for_each fs close_finger) ;;
       sleep (1#2) ;;
       (fs <- gets HandState.fingers_not_thumb ;;
        for_each fs open_finger)).

(** [Hand.make_ripple_wave()] *)
Definition make_ripple_wave : M unit :=
  make_palm ;;
  fingers_not_thumb_reverse ;;
  for_each (range 2)
    (fun _ =>
       (fs <- gets HandState.fingers_not_thumb ;;
        for_each fs (fun f => set_servo_angle f 50 ;; sleep (1#10))) ;;
       (fs <- gets HandState.fingers_not_thumb ;;
        for_each fs (fun f => open_finger f ;; sleep (1#10)))) ;;
  fingers_not_thumb_reverse.

End Hand.

(** ** The arithmetic mode of the main loop *)

Inductive InputMode : Type := INPUT_NORMAL | INPUT_BINARY | INPUT_ARITHMETIC.

Definition InputMode_eqb (a b : InputMode) : bool :=
  match a, b with
  | INPUT_NORMAL, INPUT_NORMAL | INPUT_BINARY, INPUT_BINARY
  | INPUT_ARITHMETIC, INPUT_ARITHMETIC => true
  | _, _ => false
  end.

(** The two variables of the script that the arithmetic mode reads and
    writes. *)
Record Console : Type := mkConsole {
  input_mode : InputMode;
  input_string : string
}.

(** [keypress in s], for a [keypress] of one character. *)
Fixpoint char_in (c : Ascii.ascii) (s : string) : bool :=
  match s with
  | EmptyString => false
  | String c' s' => Ascii.eqb c c' || char_in c s'
  end.

Definition CR : Ascii.ascii := Ascii.ascii_of_nat 13.

Section MainLoop.

(** Python's built-in [eval], on the texts of digits and signs that the
    arithmetic mode collects. *)
Variable eval : string -> exn + Z.

Variable fuel : nat.

Definition call_eval (s : string) : M Z :=
  match eval s with
  | inr n => ret n
  | inl e => raise e
  end.

(** The block of the keypress handler under the comment "arithmatic
    mode", run on one key. *)
Definition arithmetic_mode (keypress : Ascii.ascii) (c : Console) : M Console :=
  c <- (if Ascii.eqb keypress "="%char && InputMode_eqb (input_mode c) INPUT_NORMAL
        then
          emit (print (Literal "arithmetic mode")) ;;
          ret {| input_mode := INPUT_ARITHMETIC; input_string := EmptyString |}
        else ret c) ;;
  if InputMode_eqb (input_mode c) INPUT_ARITHMETIC then
    if char_in keypress "0123456789-" then
      ret {| input_mode := input_mode c;
             input_string := input_string c ++ String keypress EmptyString |}
    else if Ascii.eqb keypress "="%char then
      ret {| input_mode := input_mode c;
             input_string := input_string c ++ "+" |}
    else if Ascii.eqb keypress CR then
      v <- call_eval (input_string c) ;;
      emit (print (Evaluating (input_string c) v)) ;;
      n <- call_eval (input_string c) ;;
      Hand.display_binary fuel n ;;
      ret {| input_mode := INPUT_NORMAL; input_string := EmptyString |}
    else ret c
  else ret c.

(** The keys of a text, handled one after the other. *)
Definition type_keys (keys : string) (c : Console) : M Console :=
  for_fold (list_ascii_of_string keys) (fun c k => arithmetic_mode k c) c.

End MainLoop.

(** ** The hand as a function of the hand

    What the methods do to the hand when no exception is raised and every
    [while] loop runs to its end; the lemmas below relate each method to
    its function. *)

Definition five_fingers : list JointRef := [Thumb; Index; Middle; Ring; Pinkie].
Definition four_fingers : list JointRef := [Index; Middle; Ring; Pinkie].

Module Pure.

Definition on_joint (r : JointRef) (f : Joint.t -> Joint.t)
    (h : HandState.t) : HandState.t :=
  HandState.set_joint r (f (HandState.joint r h)) h.

Definition on_fingers (f : Joint.t -> Joint.t) (h : HandState.t) : HandState.t :=
  fold_left (fun h r => on_joint r f h) five_fingers h.

Definition set_servo_angle (r : JointRef) (a : Q) : HandState.t -> HandState.t :=
  on_joint r (Joint.set_servo_angle a).

Definition open_finger (r : JointRef) (h : HandState.t) : HandState.t :=
  set_servo_angle r (Joint.min_pos (HandState.joint r h)) h.

Definition close_finger (r : JointRef) (h : HandState.t) : HandState.t :=
  set_servo_angle r (Joint.max_pos (HandState.joint r h)) h.

Definition update : HandState.t -> HandState.t := on_fingers Joint.tick.

Definition wait_ready : HandState.t -> HandState.t := on_fingers Joint.drain.

Definition all_idle (h : HandState.t) : bool :=
  forallb (fun r => Joint.idle (HandState.joint r h)) five_fingers.

Definition clear_thumb (h : HandState.t) : HandState.t :=
  on_joint Thumb Joint.drain (set_servo_angle Thumb 70 h).

Definition close_thumb (h : HandState.t) : HandState.t :=
  set_servo_angle Thumb 120 (wait_ready h).

Definition close_four (h : HandState.t) : HandState.t :=
  fold_left (fun h r => close_finger r h) four_fingers h.

Definition make_fist (h : HandState.t) : HandState.t :=
  close_thumb (close_four (clear_thumb h)).

Definition make_palm (h : HandState.t) : HandState.t :=
  fold_left (fun h r => open_finger r h) five_fingers h.

Definition make_metal (h : HandState.t) : HandState.t :=
  close_thumb
    (open_finger Pinkie
       (close_finger Ring
          (close_finger Middle
             (open_finger Index (clear_thumb h))))).

Definition number_finger (n : Z) (k : Z) (r : JointRef)
    (h : HandState.t) : HandState.t :=
  if (k <=? n)%Z then open_finger r h else close_finger r h.

Definition make_number (n : Z) (h : HandState.t) : HandState.t :=
  let h := clear_thumb h in
  let h := number_finger n 1 Index h in
  let h := number_finger n 2 Middle h in
  let h := number_finger n 3 Ring h in
  let h := number_finger n 4 Pinkie h in
  if (n >=? 5)%Z then open_finger Thumb h else close_thumb h.

Definition bit_finger (n : Z) (i : Z) (r : JointRef)
    (h : HandState.t) : HandState.t :=
  if negb (Z.land n (2 ^ i) =? 0)%Z then open_finger r h else close_finger r h.

Definition display_binary (n : Z) (h : HandState.t) : HandState.t :=
  if ((n >=? 0) && (n <=? 31))%Z then
    let h := wait_ready (make_palm h) in
    let h := HandState.set_fingers (rev five_fingers) h in
    let h := bit_finger n 4 Thumb h in
    let h := bit_finger n 3 Index h in
    let h := bit_finger n 2 Middle h in
    let h := bit_finger n 1 Ring h in
    let h := bit_finger n 0 Pinkie h in
    HandState.set_fingers five_fingers h
  else h.

Definition for_fingers (l : list JointRef)
    (f : JointRef -> HandState.t -> HandState.t) (h : HandState.t) : HandState.t :=
  fold_left (fun h r => f r h) l h.

Definition make_call_me (h : HandState.t) : HandState.t :=
  open_finger Pinkie
    (close_finger Ring
       (close_finger Middle
          (close_finger Index (open_finger Thumb h)))).

Definition wave_round (h : HandState.t) : HandState.t :=
  for_fingers four_fingers open_finger (for_fingers four_fingers close_finger h).

Definition make_casey_neistat_wave (h : HandState.t) : HandState.t :=
  wave_round (wave_round (make_palm h)).

Definition ripple_round (h : HandState.t) : HandState.t :=
  for_fingers (rev four_fingers) open_finger
    (for_fingers (rev four_fingers) (fun r => set_servo_angle r 50) h).

Definition make_ripple_wave (h : HandState.t) : HandState.t :=
  HandState.set_fingers_not_thumb four_fingers
    (ripple_round
       (ripple_round
          (HandState.set_fingers_not_thumb (rev four_fingers) (make_palm h)))).

End Pure.

(** The two lists are as [Hand.__init__] builds them. *)
Definition lists_in_order (h : HandState.t) : Prop :=
  HandState.fingers h = five_fingers
  /\ HandState.fingers_not_thumb h = four_fingers.

(** No joint has coinciding calibration bounds. *)
Definition nondegenerate (h : HandState.t) : Prop :=
  forall r, Joint.min_pos (HandState.joint r h) < Joint.max_pos (HandState.joint r h).

(** The calibration bounds are those of [Hand.__init__]. *)
Definition calibrated (h : HandState.t) : Prop :=
  lists_in_order h
  /\ forall r,
       Joint.min_pos (HandState.joint r h) = Joint.min_pos (HandState.joint r Hand.init)
       /\ Joint.max_pos (HandState.joint r h) = Joint.max_pos (HandState.joint r Hand.init).

(** [x] has the calibration bounds of [h]. *)
Definition same_calibration (h x : HandState.t) : Prop :=
  forall r,
    Joint.min_pos (HandState.joint r x) = Joint.min_pos (HandState.joint r h)
    /\ Joint.max_pos (HandState.joint r x) = Joint.max_pos (HandState.joint r h).

(** The length of the longest queue among the fingers. *)
Definition pending (h : HandState.t) : nat :=
  list_max (map (fun r => List.length (Joint.intermediate_positions (HandState.joint r h)))
              five_fingers).

(** [m] run in [w] returns [a] and leaves the hand [h']. *)
Definition runs_to {A} (m : M A) (w : World) (a : A) (h' : HandState.t) : Prop :=
  exists l', m w = Ok a {| hand := h'; log := l' |}.

(** ** Commands, keys and status *)

Definition COMMAND_TOPIC : string := "hand/commands".
Definition STATUS_READY : string := "status:READY".
Definition STATUS_BUSY : string := "status:BUSY".

(** [s.split(sep)], for a separator of one character. *)
Fixpoint split_on (sep : ascii) (s : string) : list string :=
  match s with
  | EmptyString => [EmptyString]
  | String c s' =>
      if Ascii.eqb c sep then EmptyString :: split_on sep s'
      else
        match split_on sep s' with
        | piece :: rest => String c piece :: rest
        | [] => [String c EmptyString]
        end
  end.

(** [s.index(c)], for [c] of one character. *)
Fixpoint char_index (c : ascii) (s : string) : option Z :=
  match s with
  | EmptyString => None
  | String c' s' =>
      if Ascii.eqb c c' then Some 0%Z else option_map Z.succ (char_index c s')
  end.

(** How the keypress handler ends: at its last line, with the two input
    variables and the finger last chosen by a control key, or with the
    [NameError] of a name that is not defined. *)
Inductive handled : Type :=
| Handled (c : Console) (f : option JointRef)
| NameError (name : string).

Section Dispatch.

(** Python's built-ins [eval] and [int]. *)
Variable eval : string -> exn + Z.
Variable int : string -> exn + Z.

Variable fuel : nat.

(** [on_message(client, userdata, message)], from the topic and the
    decoded payload of the message and the global [keypress]; returns the
    new [keypress]. *)
Definition on_message (topic text keypress : string) : M string :=
  emit (print (Literal text)) ;;
  if String.eqb topic COMMAND_TOPIC then
    match nth_error (split_on ":" text) 1 with
    | None => raise IndexError
    | Some command_word =>
        if String.eqb command_word "PALM" then
          Hand.make_palm ;; ret keypress
        else if String.eqb command_word "FIST" then
          Hand.make_fist fuel ;; ret keypress
        else if String.eqb command_word "CALL_ME" then
          Hand.make_call_me ;; ret keypress
        else if String.eqb command_word "METAL" then
          Hand.make_metal fuel ;; ret keypress
        else if Nat.eqb (String.length command_word) 1 then
          emit (print (Literal ("setting keypress to " ++ command_word))) ;;
          ret command_word
        else
          emit (print (Literal ("unrecognised command: " ++ text
                                ++ " on topic " ++ topic))) ;;
          ret keypress
    end
  else ret keypress.

(** [f.set_servo_angle(f.position + delta)] on the finger chosen. *)
Definition nudge (f : option JointRef) (delta : Q) (k : M handled) : M handled :=
  match f with
  | Some r =>
      j <- gets (HandState.joint r) ;;
      set_servo_angle r (Joint.position j + delta) ;;
      k
  | None => ret (NameError "f")
  end.

(** [gesture_map[keypress]()], when [keypress] is one of its keys. *)
Definition gesture_map (keypress : ascii) : option (M unit) :=
  if Ascii.eqb keypress "z" then Some Hand.make_palm
  else if Ascii.eqb keypress "x" then Some (Hand.make_fist fuel)
  else if Ascii.eqb keypress "c" then Some Hand.make_call_me
  else if Ascii.eqb keypress "v" then Some (Hand.make_metal fuel)
  else if Ascii.eqb keypress "n" then Some Hand.make_casey_neistat_wave
  else if Ascii.eqb keypress "m" then Some Hand.make_ripple_wave
  else None.

(** The block "binary translation mode" of the keypress handler and what
    follows it. *)
Definition binary_mode (keypress : ascii) (c : Console) (f : option JointRef)
    : M handled :=
  let c := if Ascii.eqb keypress "b"
           then {| input_mode := INPUT_BINARY; input_string := EmptyString |}
           else c in
  if InputMode_eqb (input_mode c) INPUT_BINARY then
    let c := if char_in keypress "0123456789"
             then {| input_mode := input_mode c;
                     input_string := input_string c ++ String keypress EmptyString |}
             else c in
    if Ascii.eqb keypress CR then
      match int (input_string c) with
      | inl e => raise e
      | inr n =>
          Hand.display_binary fuel n ;;
          c' <- arithmetic_mode eval fuel keypress
                  {| input_mode := INPUT_NORMAL; input_string := input_string c |} ;;
          ret (Handled c' f)
      end
    else ret (NameError "input_number_string")
  else
    c' <- arithmetic_mode eval fuel keypress c ;;
    ret (Handled c' f).

(** The keypress command handler of the main loop, for a [keypress] of one
    character, from the two input variables and the finger [f] left by
    the key before. *)
Definition handle_keypress (keypress : ascii) (c : Console)
    (f : option JointRef) : M handled :=
  emit (print (Literal ("pressed " ++ String keypress EmptyString))) ;;
  let f := if char_in keypress "qa" then Some Pinkie else f in
  let f := if char_in keypress "ws" then Some Ring else f in
  let f := if char_in keypress "ed" then Some Middle else f in
  let f := if char_in keypress "rf" then Some Index else f in
  let f := if char_in keypress "tg" then Some Thumb else f in
  let after_nudges :=
    (if char_in keypress "12345"
        && InputMode_eqb (input_mode c) INPUT_NORMAL
     then
       match char_index keypress "12345" with
       | Some i => Hand.make_number fuel (i + 1)
       | None => raise ValueError
       end
     else ret tt) ;;
    match gesture_map keypress with
    | Some gesture => gesture
    | None => ret tt
    end ;;
    binary_mode keypress c f in
  let up :=
    if char_in keypress "asdfg" then nudge f 10 after_nudges else after_nudges in
  if char_in keypress "qwert" then nudge f (-10) up else up.

(** The end of one turn of the main loop: the hand is ticked and its
    status sent when it has changed or when [timed_out], which stands for
    [time.monotonic() > status_timeout]. *)
Definition report_status (old_status timed_out : bool) : M bool :=
  status <- Hand.update ;;
  (if negb (Bool.eqb status old_status) || timed_out then
     if status then
       send_data TELEMETRY_TOPIC (Literal ("LEFT_HAND," ++ STATUS_READY))
     else
       send_data TELEMETRY_TOPIC (Literal ("LEFT_HAND," ++ STATUS_BUSY))
   else ret tt) ;;
  ret status.

End Dispatch.

(** A stand-in for [eval] on the texts that the arithmetic mode builds:
    decimal literals, each prefixed by any number of [+] and [-].  As in
    Python, a literal with a leading zero must be zero, and a text that
    does not end in a literal is a syntax error. *)
Record literal : Type := mkLiteral {
  value : Z;
  leading_zero : bool
}.

Definition digit_of (c : ascii) : option Z :=
  let n := Z.of_nat (nat_of_ascii c) in
  if ((48 <=? n) && (n <=? 57))%Z then Some (n - 48)%Z else None.

Definition close_literal (acc sign : Z) (cur : literal) : exn + Z :=
  if leading_zero cur && negb (value cur =? 0)%Z then inl SyntaxError
  else inr (acc + sign * value cur)%Z.

Fixpoint eval_sum_from (s : string) (acc sign : Z) (cur : option literal)
    : exn + Z :=
  match s with
  | EmptyString =>
      match cur with
      | Some lit => close_literal acc sign lit
      | None => inl SyntaxError
      end
  | String c s' =>
      match digit_of c, cur with
      | Some d, None =>
          eval_sum_from s' acc sign
            (Some {| value := d; leading_zero := (d =? 0)%Z |})
      | Some d, Some lit =>
          eval_sum_from s' acc sign
            (Some {| value := (10 * value lit + d)%Z;
                     leading_zero := leading_zero lit |})
      | None, _ =>
          let flip := if Ascii.eqb c "-"%char then (-1)%Z else 1%Z in
          if Ascii.eqb c "+"%char || Ascii.eqb c "-"%char then
            match cur with
            | Some lit =>
                match close_literal acc sign lit with
                | inr acc' => eval_sum_from s' acc' flip None
                | inl e => inl e
                end
            | None => eval_sum_from s' acc (sign * flip)%Z None
            end
          else inl SyntaxError
      end
  end.

Definition eval_sum (s : string) : exn + Z := eval_sum_from s 0%Z 1%Z None.

(** The keys [=], [3], [2] and Enter. *)
Definition keys_equals_32_enter : string :=
  String "="%char (String "3"%char (String "2"%char (String CR EmptyString))).

Definition console_start : Console :=
  {| input_mode := INPUT_NORMAL; input_string := EmptyString |}.

(** [m] run in [w] returns [a], leaves the hand [h'] and adds the events
    [es] to the log (most recent first). *)
Definition emits {A} (m : M A) (w : World) (a : A) (h' : HandState.t)
    (es : list Event) : Prop :=
  m w = Ok a {| hand := h'; log := es ++ log w |}.

(** The calls on the hardware that one [Hand.update] makes, in the order
    made: those of [Joint.update] on each finger of [fs] in turn. *)
Definition pulses (h : HandState.t) (fs : list JointRef) : list Event :=
  List.concat
    (map (fun r => map hardware (snd (Joint.update (HandState.joint r h)))) fs).

(** What [show_positions] reports of a finger. *)
Definition telemetry_entry (j : Joint.t) : string * Q * Z :=
  (Joint.name j, Joint.position j, py_int (Binary64.flexion_ratio j)).

(** The line that [show_positions] builds from a hand. *)
Definition telemetry_line (h : HandState.t) : Line :=
  Telemetry
    (map (fun r => telemetry_entry (HandState.joint r h)) (HandState.fingers h))
    (Joint.name (HandState.wrist h))
    (py_int (Binary64.flexion_ratio (HandState.wrist h))).

(** How many messages a log holds. *)
Definition published (l : list Event) : nat :=
  List.length (filter (fun e => match e with publish _ _ => true | _ => false end) l).

(** A stand-in for [int] on the texts that the binary mode builds: decimal
    digits only; as in Python, the empty text is a [ValueError]. *)
Fixpoint int_digits_from (s : string) (acc : Z) : exn + Z :=
  match s with
  | EmptyString => inr acc
  | String c s' =>
      match digit_of c with
      | Some d => int_digits_from s' (10 * acc + d)%Z
      | None => inl ValueError
      end
  end.

Definition int_digits (s : string) : exn + Z :=
  match s with
  | EmptyString => inl ValueError
  | _ => int_digits_from s 0%Z
  end.


(** The words that [on_message] maps to a gesture. *)
Definition command_words (fuel : nat) : list (string * M unit) :=
  [ ("PALM"%string, Hand.make_palm); ("FIST"%string, Hand.make_fist fuel);
    ("CALL_ME"%string, Hand.make_call_me); ("METAL"%string, Hand.make_metal fuel) ].

(** ** The cyberdeck (cyberdeck.py) *)

Module Cyberdeck.

(** The payload that [send_command(client, "HAND", command)] publishes on
    the topic hand/commands. *)
Definition command_payload (command : string) : string := "COMMAND:" ++ command.


End Cyberdeck.

(** What may follow a field of a text split at the colons: nothing, or a
    colon and whatever comes after it. *)
Definition ends_field (tail : string) : bool :=
  match tail with
  | EmptyString => true
  | String c _ => Ascii.eqb c ":"
  end.

(** The status line of the main loop for a hand that is ready or not. *)
Definition status_line (ready : bool) : Line :=
  Literal ("LEFT_HAND," ++ (if ready then STATUS_READY else STATUS_BUSY)).

(** ** States used in the examples *)

(** A hand just built. *)
Definition fresh_world : World := {| hand := Hand.init; log := [] |}.

(** A hand just built whose wrist has been given a target. *)
Definition wrist_moving : World :=
  {| hand := Pure.set_servo_angle Wrist 90 Hand.init; log := [] |}.

(** The thumb and the middle finger as [Hand.__init__] builds them. *)
Definition fresh_thumb : Joint.t := Joint.init 4 "t" 10 150.
Definition fresh_middle : Joint.t := Joint.init 2 "m" 0 140.

(** The middle finger thirteen ticks into its first closing move. *)
Definition middle_closing : Joint.t :=
  Joint.run (Joint.call_set_servo_angle 140 :: repeat Joint.call_update 13)
    fresh_middle.

(** The thumb standing on its [max_pos], as after [close_finger]. *)
Definition thumb_closed : Joint.t := Joint.with_position 150 fresh_thumb.

(** A joint calibrated from 0 to 100 and standing on 29. *)
Definition joint_on_29 : Joint.t :=
  Joint.with_position 29 (Joint.init 0 "x" 0 100).

(** A hand just built whose index has been told to close and whose wrist
    has been given a target. *)
Definition index_closing : World :=
  {| hand := Pure.set_servo_angle Wrist 90 (Pure.close_finger Index Hand.init);
     log := [] |}.

(** * Properties *)

(** ** Numbers *)

Lemma Qlt_bool_true (a b : Q) : Qlt_bool a b = true <-> a < b.
Proof.
  unfold Qlt_bool. rewrite negb_true_iff.
  split; intros H.
  - apply Qnot_le_lt. intros Hle. apply Qle_bool_iff in Hle. congruence.
  - destruct (Qle_bool b a) eqn:E; [|reflexivity].
    apply Qle_bool_iff in E. exfalso. apply (Qlt_not_le _ _ H E).
Qed.

Lemma Qlt_bool_false (a b : Q) : Qlt_bool a b = false <-> b <= a.
Proof.
  unfold Qlt_bool. rewrite negb_false_iff. apply Qle_bool_iff.
Qed.

Lemma cube_mono (a b : Q) : a <= b -> a * a * a <= b * b * b.
Proof.
  intros H.
  assert (H1 : 0 <= b - a) by lra.
  assert (H2 : 0 <= (a + b) * (a + b) + a * a + b * b) by nra.
  nra.
Qed.

Lemma last_default {A} (l : list A) (d d' : A) :
  l <> [] -> last l d = last l d'.
Proof.
  induction l as [|x [|y l] IH]; intros H; try congruence; try reflexivity.
  change (last (y :: l) d = last (y :: l) d'). apply IH. discriminate.
Qed.

Lemma last_app_r {A} (l1 l2 : list A) (d : A) :
  l2 <> [] -> last (l1 ++ l2) d = last l2 d.
Proof.
  intros H. induction l1 as [|x l1 IH]; [reflexivity|].
  simpl. destruct (l1 ++ l2) eqn:E; [|exact IH].
  apply app_eq_nil in E. destruct E. contradiction.
Qed.

Lemma last_cons {A} (l : list A) (a d : A) : last (a :: l) d = last l a.
Proof.
  destruct l as [|b l]; [reflexivity|].
  change (last (b :: l) d = last (b :: l) a).
  apply last_default. discriminate.
Qed.

(** ** The easing curve *)

Lemma ease_0 : cubic_ease_in_out 0 == 0.
Proof. reflexivity. Qed.

Lemma ease_1 : cubic_ease_in_out 1 == 1.
Proof. reflexivity. Qed.

Lemma ease_low (t : Q) : t < 1#2 -> cubic_ease_in_out t = 4 * t * t * t.
Proof.
  intros H. unfold cubic_ease_in_out.
  apply Qlt_bool_true in H. rewrite H. reflexivity.
Qed.

Lemma ease_high (t : Q) :
  1#2 <= t ->
  cubic_ease_in_out t = (1#2) * (2 * t - 2) * (2 * t - 2) * (2 * t - 2) + 1.
Proof.
  intros H. unfold cubic_ease_in_out.
  apply Qlt_bool_false in H. rewrite H. reflexivity.
Qed.

Lemma ease_mono (s t : Q) :
  s <= t -> cubic_ease_in_out s <= cubic_ease_in_out t.
Proof.
  intros Hst.
  destruct (Qlt_le_dec s (1#2)) as [Hs|Hs];
    destruct (Qlt_le_dec t (1#2)) as [Ht|Ht].
  - rewrite (ease_low _ Hs), (ease_low _ Ht).
    pose proof (cube_mono s t Hst). lra.
  - rewrite (ease_low _ Hs), (ease_high _ Ht).
    assert (Hs' : s <= 1#2) by lra.
    pose proof (cube_mono s (1#2) Hs') as H1.
    assert (Ht' : -1 <= 2 * t - 2) by lra.
    pose proof (cube_mono (-1) (2 * t - 2) Ht') as H2.
    lra.
  - lra.
  - rewrite (ease_high _ Hs), (ease_high _ Ht).
    assert (H : 2 * s - 2 <= 2 * t - 2) by lra.
    pose proof (cube_mono _ _ H). lra.
Qed.

Lemma ease_unit (t : Q) :
  0 <= t -> t <= 1 -> 0 <= cubic_ease_in_out t /\ cubic_ease_in_out t <= 1.
Proof.
  intros H0 H1. split.
  - apply (Qle_trans _ (cubic_ease_in_out 0)); [rewrite ease_0; lra|].
    now apply ease_mono.
  - apply (Qle_trans _ (cubic_ease_in_out 1)); [|rewrite ease_1; lra].
    now apply ease_mono.
Qed.

(** ** Joint: trajectory generation *)

Section JointFacts.

Import Joint.

Lemma with_queue_same (j : Joint.t) :
  with_queue (intermediate_positions j) j = j.
Proof. destruct j; reflexivity. Qed.

Lemma append_loop (g : Z -> Q) (l : list Z) (j : Joint.t) :
  fold_left (fun self step => append (g step) self) l j
  = with_queue (intermediate_positions j ++ map g l) j.
Proof.
  revert j. induction l as [|x l IH]; intros j; simpl.
  - rewrite app_nil_r. symmetry. apply with_queue_same.
  - rewrite IH. unfold append, with_queue. simpl.
    rewrite <- app_assoc. reflexivity.
Qed.

Lemma set_servo_angle_eq (a : Q) (j : Joint.t) :
  set_servo_angle a j = with_queue (intermediate_positions j ++ steps j a) j.
Proof. unfold set_servo_angle. apply append_loop. Qed.

Lemma set_servo_angle_queue (a : Q) (j : Joint.t) :
  intermediate_positions (set_servo_angle a j)
  = intermediate_positions j ++ steps j a.
Proof. rewrite set_servo_angle_eq. reflexivity. Qed.

Lemma set_servo_angle_position (a : Q) (j : Joint.t) :
  position (set_servo_angle a j) = position j.
Proof. rewrite set_servo_angle_eq. reflexivity. Qed.

Lemma set_servo_angle_min_pos (a : Q) (j : Joint.t) :
  min_pos (set_servo_angle a j) = min_pos j.
Proof. rewrite set_servo_angle_eq. reflexivity. Qed.

Lemma set_servo_angle_max_pos (a : Q) (j : Joint.t) :
  max_pos (set_servo_angle a j) = max_pos j.
Proof. rewrite set_servo_angle_eq. reflexivity. Qed.

Lemma steps_length (j : Joint.t) (a : Q) : List.length (steps j a) = 50%nat.
Proof. unfold steps. rewrite length_map. reflexivity. Qed.

Lemma steps_last (j : Joint.t) (a d : Q) :
  last (steps j a) d = eased_position (position j) (clamp j a) 49.
Proof. reflexivity. Qed.

Lemma eased_position_first (s t : Q) : eased_position s t 0 == s.
Proof.
  unfold eased_position.
  set (e := cubic_ease_in_out (inject_Z 0 / (inject_Z (Z.of_nat num_steps) - 1))).
  assert (He : e == 0) by reflexivity.
  rewrite He. ring.
Qed.

Lemma eased_position_last (s t : Q) : eased_position s t 49 == t.
Proof.
  unfold eased_position.
  set (e := cubic_ease_in_out (inject_Z 49 / (inject_Z (Z.of_nat num_steps) - 1))).
  assert (He : e == 1) by reflexivity.
  rewrite He. ring.
Qed.

Lemma final_target_set_servo_angle (a : Q) (j : Joint.t) :
  final_target (set_servo_angle a j) == clamp j a.
Proof.
  unfold final_target.
  rewrite set_servo_angle_queue, set_servo_angle_position.
  rewrite last_app_r by (intros H; apply (f_equal (@List.length Q)) in H;
                       rewrite steps_length in H; discriminate).
  rewrite steps_last. apply eased_position_last.
Qed.

(** The normalised step index lies in [0, 1]. *)
Lemma step_fraction (step : Z) :
  In step (range num_steps) ->
  0 <= inject_Z step / (inject_Z (Z.of_nat num_steps) - 1)
  /\ inject_Z step / (inject_Z (Z.of_nat num_steps) - 1) <= 1.
Proof.
  unfold range. rewrite in_map_iff. intros [n [<- Hn]].
  apply in_seq in Hn.
  change (inject_Z (Z.of_nat num_steps) - 1) with (49 # 1).
  assert (H0 : 0 <= inject_Z (Z.of_nat n)).
  { change 0 with (inject_Z 0). rewrite <- Zle_Qle. lia. }
  assert (H1 : inject_Z (Z.of_nat n) <= 49).
  { change 49 with (inject_Z 49). rewrite <- Zle_Qle.
    unfold num_steps in Hn. lia. }
  split.
  - apply Qle_shift_div_l; lra.
  - apply Qle_shift_div_r; lra.
Qed.

(** Every queued value lies between the start and the target. *)
Lemma eased_position_between (s t : Q) (step : Z) :
  In step (range num_steps) ->
  Qmin s t <= eased_position s t step /\ eased_position s t step <= Qmax s t.
Proof.
  intros Hin. apply step_fraction in Hin. destruct Hin as [H0 H1].
  unfold eased_position.
  set (e := cubic_ease_in_out _).
  destruct (ease_unit _ H0 H1) as [He0 He1]. fold e in He0, He1.
  destruct (Qlt_le_dec s t) as [Hst|Hst].
  - rewrite (Q.min_l s t) by lra. rewrite (Q.max_r s t) by lra.
    split; nra.
  - rewrite (Q.min_r s t) by lra. rewrite (Q.max_l s t) by lra.
    split; nra.
Qed.

Lemma steps_between (j : Joint.t) (a v : Q) :
  In v (steps j a) ->
  Qmin (position j) (clamp j a) <= v /\ v <= Qmax (position j) (clamp j a).
Proof.
  unfold steps. rewrite in_map_iff. intros [step [<- Hin]].
  now apply eased_position_between.
Qed.

Lemma clamp_in_range (j : Joint.t) (a : Q) :
  min_pos j <= max_pos j -> min_pos j <= clamp j a /\ clamp j a <= max_pos j.
Proof.
  intros Hc. unfold clamp.
  destruct (Qlt_bool a (min_pos j)) eqn:E1.
  - destruct (Qlt_bool (max_pos j) (min_pos j)) eqn:E2.
    + apply Qlt_bool_true in E2. lra.
    + lra.
  - apply Qlt_bool_false in E1.
    destruct (Qlt_bool (max_pos j) a) eqn:E2.
    + lra.
    + apply Qlt_bool_false in E2. lra.
Qed.



Lemma clamp_inside (j : Joint.t) (a : Q) :
  min_pos j <= a -> a <= max_pos j -> clamp j a = a.
Proof.
  intros H1 H2. unfold clamp.
  assert (E1 : Qlt_bool a (min_pos j) = false) by (apply Qlt_bool_false; lra).
  rewrite E1.
  assert (E2 : Qlt_bool (max_pos j) a = false) by (apply Qlt_bool_false; lra).
  rewrite E2. reflexivity.
Qed.

End JointFacts.

(** ** Truncation *)

Lemma py_int_nonneg (x : Q) : 0 <= x -> py_int x = Qfloor x.
Proof.
  destruct x as [n d]. unfold Qle, py_int, Qfloor. simpl. intros H.
  apply Z.quot_div_nonneg; lia.
Qed.

Lemma py_int_nonpos (x : Q) : x <= 0 -> py_int x = Qceiling x.
Proof.
  destruct x as [n d]. unfold Qle, py_int, Qceiling, Qfloor. simpl. intros H.
  rewrite <- (Z.opp_involutive n) at 1.
  rewrite Z.quot_opp_l by lia.
  rewrite Z.quot_div_nonneg by lia. reflexivity.
Qed.

Lemma py_int_comp (x y : Q) : x == y -> py_int x = py_int y.
Proof.
  intros E. destruct (Qlt_le_dec x 0) as [H|H].
  - rewrite !py_int_nonpos by lra. now rewrite E.
  - rewrite !py_int_nonneg by lra. now rewrite E.
Qed.

Lemma py_int_inject (z : Z) : py_int (inject_Z z) = z.
Proof. unfold py_int, inject_Z. simpl. apply Z.quot_1_r. Qed.

Lemma py_int_mono (x y : Q) : x <= y -> (py_int x <= py_int y)%Z.
Proof.
  intros H.
  destruct (Qlt_le_dec x 0) as [Hx|Hx]; destruct (Qlt_le_dec y 0) as [Hy|Hy].
  - rewrite !py_int_nonpos by lra. now apply Qceiling_resp_le.
  - rewrite (py_int_nonpos x), (py_int_nonneg y) by lra.
    apply Z.le_trans with 0%Z.
    + change 0%Z with (Qceiling 0). apply Qceiling_resp_le. lra.
    + change 0%Z with (Qfloor 0). now apply Qfloor_resp_le.
  - lra.
  - rewrite !py_int_nonneg by lra. now apply Qfloor_resp_le.
Qed.

(** ** Float arithmetic *)

(** Powers of two. *)

Lemma pow2_pos (k : Z) : 0 < 2 ^ k.
Proof. apply Qpower_0_lt. reflexivity. Qed.

Lemma pow2_succ (k : Z) : 2 ^ (k + 1) == 2 * 2 ^ k.
Proof. rewrite Qpower_plus by discriminate. rewrite Qpower_1_r. ring. Qed.

Lemma pow2_le (n m : Z) : (n <= m)%Z -> 2 ^ n <= 2 ^ m.
Proof. intros H. apply Qpower_le_compat_l; [exact H | discriminate]. Qed.

Lemma pow2_lt_inv (n m : Z) : 2 ^ n < 2 ^ m -> (n < m)%Z.
Proof. intros H. apply (Qpower_lt_compat_l_inv 2); [exact H | reflexivity]. Qed.

Lemma pow2_inject (k : Z) : (0 <= k)%Z -> inject_Z (2 ^ k) == 2 ^ k.
Proof. intros H. now rewrite Zpower_Qpower. Qed.

(** The exponent. *)

Lemma exponent_spec (x : Q) :
  0 < x ->
  2 ^ Binary64.exponent x <= x /\ x < 2 ^ (Binary64.exponent x + 1).
Proof.
  intros Hx. unfold Binary64.exponent.
  destruct x as [n d]. cbn [Qnum Qden].
  assert (Hn : (0 < n)%Z) by (unfold Qlt in Hx; cbn in Hx; lia).
  set (a := Z.log2 n). set (b := Z.log2 (Zpos d)).
  assert (Ha : (2 ^ a <= n < 2 ^ (a + 1))%Z).
  { pose proof (Z.log2_spec n Hn) as H. now rewrite <- Z.add_1_r in H. }
  assert (Hb : (2 ^ b <= Zpos d < 2 ^ (b + 1))%Z).
  { pose proof (Z.log2_spec (Zpos d) eq_refl) as H. now rewrite <- Z.add_1_r in H. }
  assert (Ha0 : (0 <= a)%Z) by apply Z.log2_nonneg.
  assert (Hb0 : (0 <= b)%Z) by apply Z.log2_nonneg.
  assert (HA : 2 ^ a <= inject_Z n /\ inject_Z n < 2 * 2 ^ a).
  { rewrite <- pow2_succ, <- !pow2_inject by lia.
    rewrite <- Zle_Qle, <- Zlt_Qlt. exact Ha. }
  assert (HB : 2 ^ b <= inject_Z (Zpos d) /\ inject_Z (Zpos d) < 2 * 2 ^ b).
  { rewrite <- pow2_succ, <- !pow2_inject by lia.
    rewrite <- Zle_Qle, <- Zlt_Qlt. exact Hb. }
  pose proof (pow2_pos a) as Pa. pose proof (pow2_pos b) as Pb.
  assert (Hx' : (n # d) * inject_Z (Zpos d) == inject_Z n).
  { unfold Qeq, Qmult, inject_Z. cbn. lia. }
  assert (Hab : 2 ^ (a - b) * 2 ^ b == 2 ^ a).
  { rewrite <- Qpower_plus by discriminate. now replace (a - b + b)%Z with a by lia. }
  set (X := n # d) in *. set (D := inject_Z (Zpos d)) in *.
  set (N := inject_Z n) in *.
  assert (HD : 0 < D) by lra.
  pose proof (pow2_pos (a - b)) as Pab.
  destruct (Qle_bool (2 ^ (a - b)) X) eqn:E.
  - apply Qle_bool_iff in E. split; [exact E|].
    rewrite pow2_succ.
    set (P := 2 ^ (a - b)) in *. set (A := 2 ^ a) in *. set (B := 2 ^ b) in *.
    (* X D = N < 2A = 2 P B <= 2 P D *)
    apply Qnot_le_lt. intros Hc.
    assert (2 * P * D <= X * D) by nra.
    nra.
  - assert (E' : X < 2 ^ (a - b)).
    { apply Qnot_le_lt. intros Hc. apply Qle_bool_iff in Hc. congruence. }
    replace (a - b - 1 + 1)%Z with (a - b)%Z by lia.
    split; [|exact E'].
    assert (Hp : 2 ^ (a - b) == 2 * 2 ^ (a - b - 1)).
    { rewrite <- pow2_succ. now replace (a - b - 1 + 1)%Z with (a - b)%Z by lia. }
    pose proof (pow2_pos (a - b - 1)) as Pab1.
    set (P := 2 ^ (a - b)) in *. set (P1 := 2 ^ (a - b - 1)) in *.
    set (A := 2 ^ a) in *. set (B := 2 ^ b) in *.
    (* P1 D < P1 2 B = P B = A <= N = X D *)
    apply Qnot_lt_le. intros Hc.
    assert (X * D < P1 * D) by nra.
    nra.
Qed.

Lemma exponent_unique (x : Q) (e : Z) :
  2 ^ e <= x -> x < 2 ^ (e + 1) -> Binary64.exponent x = e.
Proof.
  intros H1 H2.
  assert (Hx : 0 < x) by (pose proof (pow2_pos e); lra).
  destruct (exponent_spec x Hx) as [H3 H4].
  assert (A : (e < Binary64.exponent x + 1)%Z) by (apply pow2_lt_inv; lra).
  assert (B : (Binary64.exponent x < e + 1)%Z) by (apply pow2_lt_inv; lra).
  lia.
Qed.

Lemma exponent_comp (x y : Q) :
  0 < x -> x == y -> Binary64.exponent x = Binary64.exponent y.
Proof.
  intros Hx E. symmetry.
  destruct (exponent_spec x Hx) as [H1 H2].
  apply exponent_unique; rewrite <- E; assumption.
Qed.

Lemma exponent_mono (x y : Q) :
  0 < x -> x <= y -> (Binary64.exponent x <= Binary64.exponent y)%Z.
Proof.
  intros Hx Hxy.
  destruct (exponent_spec x Hx) as [H1 _].
  destruct (exponent_spec y ltac:(lra)) as [_ H2].
  assert (A : (Binary64.exponent x < Binary64.exponent y + 1)%Z)
    by (apply pow2_lt_inv; lra).
  lia.
Qed.

(** Rounding to an integer. *)

Lemma py_round_cases (x : Q) :
  (py_round x = Qfloor x /\ x - inject_Z (Qfloor x) <= 1#2)
  \/ (py_round x = (Qfloor x + 1)%Z /\ 1#2 <= x - inject_Z (Qfloor x)).
Proof.
  unfold py_round.
  destruct (Qlt_bool (x - inject_Z (Qfloor x)) (1#2)) eqn:E1.
  - apply Qlt_bool_true in E1. left. split; [reflexivity | lra].
  - apply Qlt_bool_false in E1.
    destruct (Qlt_bool (1#2) (x - inject_Z (Qfloor x))) eqn:E2.
    + right. split; [reflexivity | exact E1].
    + apply Qlt_bool_false in E2.
      destruct (Z.even (Qfloor x)); [left | right]; split;
        try reflexivity; assumption.
Qed.

Lemma Qfloor_bounds (x : Q) :
  inject_Z (Qfloor x) <= x /\ x < inject_Z (Qfloor x) + 1.
Proof.
  split; [apply Qfloor_le|].
  pose proof (Qlt_floor x) as H.
  rewrite inject_Z_plus in H. exact H.
Qed.

Lemma py_round_error (x : Q) :
  x - (1#2) <= inject_Z (py_round x) /\ inject_Z (py_round x) <= x + (1#2).
Proof.
  pose proof (Qfloor_bounds x) as [H1 H2].
  destruct (py_round_cases x) as [[-> H] | [-> H]].
  - lra.
  - rewrite inject_Z_plus. change (inject_Z 1) with 1. lra.
Qed.

Lemma py_round_comp (x y : Q) : x == y -> py_round x = py_round y.
Proof.
  intros E. unfold py_round.
  rewrite (Qfloor_comp _ _ E).
  assert (Er : x - inject_Z (Qfloor y) == y - inject_Z (Qfloor y))
    by now rewrite E.
  assert (E1 : Qlt_bool (x - inject_Z (Qfloor y)) (1#2)
               = Qlt_bool (y - inject_Z (Qfloor y)) (1#2)).
  { unfold Qlt_bool. f_equal.
    destruct (Qle_bool (1#2) (x - inject_Z (Qfloor y))) eqn:A;
      destruct (Qle_bool (1#2) (y - inject_Z (Qfloor y))) eqn:B;
      try reflexivity.
    - apply Qle_bool_iff in A. rewrite Er in A. apply Qle_bool_iff in A. congruence.
    - apply Qle_bool_iff in B. rewrite <- Er in B. apply Qle_bool_iff in B. congruence. }
  assert (E2 : Qlt_bool (1#2) (x - inject_Z (Qfloor y))
               = Qlt_bool (1#2) (y - inject_Z (Qfloor y))).
  { unfold Qlt_bool. f_equal.
    destruct (Qle_bool (x - inject_Z (Qfloor y)) (1#2)) eqn:A;
      destruct (Qle_bool (y - inject_Z (Qfloor y)) (1#2)) eqn:B;
      try reflexivity.
    - apply Qle_bool_iff in A. rewrite Er in A. apply Qle_bool_iff in A. congruence.
    - apply Qle_bool_iff in B. rewrite <- Er in B. apply Qle_bool_iff in B. congruence. }
  now rewrite E1, E2.
Qed.

Lemma py_round_Z (z : Z) : py_round (inject_Z z) = z.
Proof.
  unfold py_round. rewrite Qfloor_Z.
  assert (E : Qlt_bool (inject_Z z - inject_Z z) (1#2) = true).
  { apply Qlt_bool_true. lra. }
  now rewrite E.
Qed.

Lemma py_round_mono (x y : Q) : x <= y -> (py_round x <= py_round y)%Z.
Proof.
  intros H.
  pose proof (Qfloor_resp_le _ _ H) as Hf.
  pose proof (Qfloor_bounds x) as [X1 X2].
  pose proof (Qfloor_bounds y) as [Y1 Y2].
  destruct (Z.eq_dec (Qfloor x) (Qfloor y)) as [E|E].
  - unfold py_round. rewrite E. rewrite E in X1, X2.
    destruct (Qlt_bool (x - inject_Z (Qfloor y)) (1#2)) eqn:A1.
    + destruct (Qlt_bool (y - inject_Z (Qfloor y)) (1#2)); [lia|].
      destruct (Qlt_bool (1#2) (y - inject_Z (Qfloor y))); [lia|].
      destruct (Z.even (Qfloor y)); lia.
    + apply Qlt_bool_false in A1.
      assert (B1 : Qlt_bool (y - inject_Z (Qfloor y)) (1#2) = false)
        by (apply Qlt_bool_false; lra).
      rewrite B1.
      destruct (Qlt_bool (1#2) (x - inject_Z (Qfloor y))) eqn:A2.
      * apply Qlt_bool_true in A2.
        assert (B2 : Qlt_bool (1#2) (y - inject_Z (Qfloor y)) = true)
          by (apply Qlt_bool_true; lra).
        rewrite B2. lia.
      * destruct (Qlt_bool (1#2) (y - inject_Z (Qfloor y)));
          destruct (Z.even (Qfloor y)); lia.
  - assert (Hlt : (Qfloor x + 1 <= Qfloor y)%Z) by lia.
    destruct (py_round_cases x) as [[-> _] | [-> _]];
      destruct (py_round_cases y) as [[-> _] | [-> _]]; lia.
Qed.

(** Rounding to binary64. *)

Lemma round_0 : Binary64.round 0 = 0.
Proof. reflexivity. Qed.

Lemma Qeq_bool_comp (x y z : Q) : x == y -> Qeq_bool x z = Qeq_bool y z.
Proof.
  intros E. destruct (Qeq_bool x z) eqn:A; destruct (Qeq_bool y z) eqn:B;
    try reflexivity.
  - apply Qeq_bool_iff in A. rewrite E in A. apply Qeq_bool_iff in A. congruence.
  - apply Qeq_bool_iff in B. rewrite <- E in B. apply Qeq_bool_iff in B. congruence.
Qed.

Lemma Qle_bool_comp_r (x y z : Q) : x == y -> Qle_bool z x = Qle_bool z y.
Proof.
  intros E. destruct (Qle_bool z x) eqn:A; destruct (Qle_bool z y) eqn:B;
    try reflexivity.
  - apply Qle_bool_iff in A. rewrite E in A. apply Qle_bool_iff in A. congruence.
  - apply Qle_bool_iff in B. rewrite <- E in B. apply Qle_bool_iff in B. congruence.
Qed.

Lemma ulp_pos (x : Q) : 0 < Binary64.ulp x.
Proof. apply pow2_pos. Qed.

Lemma ulp_comp (x y : Q) : ~ x == 0 -> x == y -> Binary64.ulp x = Binary64.ulp y.
Proof.
  intros Hx E. unfold Binary64.ulp. f_equal. f_equal.
  apply exponent_comp.
  - pose proof (Qabs_nonneg x) as H.
    destruct (Qeq_dec (Qabs x) 0) as [A|A]; [|lra].
    exfalso. apply Hx. pose proof (Qabs_Qle_condition x 0) as C.
    rewrite A in C. destruct C as [C _]. specialize (C ltac:(lra)). lra.
  - now rewrite E.
Qed.

Lemma round_comp (x y : Q) : x == y -> Binary64.round x == Binary64.round y.
Proof.
  intros E. unfold Binary64.round.
  rewrite (Qeq_bool_comp x y 0 E).
  destruct (Qeq_bool y 0) eqn:Z; [reflexivity|].
  assert (Hx : ~ x == 0).
  { intros A. rewrite E in A. apply Qeq_bool_iff in A. congruence. }
  rewrite (Qle_bool_comp_r x y 0 E).
  rewrite (ulp_comp x y Hx E).
  assert (Em : py_round (Qabs x / Binary64.ulp y) = py_round (Qabs y / Binary64.ulp y)).
  { apply py_round_comp. now rewrite E. }
  rewrite Em. reflexivity.
Qed.

#[global] Instance round_proper : Proper (Qeq ==> Qeq) Binary64.round.
Proof. intros x y E. now apply round_comp. Qed.

Lemma Qabs_opp_eq (x : Q) : Qabs (- x) == Qabs x.
Proof. apply Qabs_opp. Qed.

Lemma round_opp (x : Q) : Binary64.round (- x) == - Binary64.round x.
Proof.
  unfold Binary64.round.
  destruct (Qeq_bool x 0) eqn:Z.
  - apply Qeq_bool_iff in Z.
    assert (Z' : Qeq_bool (- x) 0 = true) by (apply Qeq_bool_iff; lra).
    rewrite Z'. reflexivity.
  - assert (Hx : ~ x == 0) by (intros A; apply Qeq_bool_iff in A; congruence).
    assert (Z' : Qeq_bool (- x) 0 = false).
    { destruct (Qeq_bool (- x) 0) eqn:A; [|reflexivity].
      apply Qeq_bool_iff in A. exfalso. apply Hx. lra. }
    rewrite Z'.
    assert (Eu : Binary64.ulp (- x) = Binary64.ulp x).
    { unfold Binary64.ulp. f_equal. f_equal. apply exponent_comp.
      - pose proof (Qabs_nonneg (- x)) as H.
        destruct (Qeq_dec (Qabs (- x)) 0) as [A|A]; [|lra].
        exfalso. apply Hx. pose proof (Qabs_Qle_condition (- x) 0) as C.
        rewrite A in C. destruct C as [C _]. specialize (C ltac:(lra)). lra.
      - apply Qabs_opp. }
    rewrite Eu.
    assert (Em : py_round (Qabs (- x) / Binary64.ulp x)
                 = py_round (Qabs x / Binary64.ulp x)).
    { apply py_round_comp. now rewrite Qabs_opp. }
    rewrite Em.
    destruct (Qle_bool 0 x) eqn:A; destruct (Qle_bool 0 (- x)) eqn:B.
    + apply Qle_bool_iff in A, B. exfalso. apply Hx. lra.
    + reflexivity.
    + ring.
    + exfalso.
      assert (x < 0) by (apply Qnot_le_lt; intros C; apply Qle_bool_iff in C; congruence).
      assert (- x < 0) by (apply Qnot_le_lt; intros C; apply Qle_bool_iff in C; congruence).
      lra.
Qed.

(** The rounding of a positive number, spelled out. *)
Lemma round_pos (x : Q) :
  0 < x ->
  Binary64.round x
  == inject_Z (py_round (x / 2 ^ (Binary64.exponent x - 52)))
     * 2 ^ (Binary64.exponent x - 52).
Proof.
  intros Hx. unfold Binary64.round.
  assert (Z : Qeq_bool x 0 = false).
  { destruct (Qeq_bool x 0) eqn:A; [|reflexivity].
    apply Qeq_bool_iff in A. lra. }
  rewrite Z.
  assert (P : Qle_bool 0 x = true) by (apply Qle_bool_iff; lra).
  rewrite P.
  assert (Ea : Qabs x == x) by (apply Qabs_pos; lra).
  unfold Binary64.ulp.
  rewrite (exponent_comp (Qabs x) x) by (rewrite ?Ea; (lra || reflexivity)).
  assert (Em : py_round (Qabs x / 2 ^ (Binary64.exponent x - 52))
               = py_round (x / 2 ^ (Binary64.exponent x - 52))).
  { apply py_round_comp. now rewrite Ea. }
  rewrite Em. reflexivity.
Qed.

(** The significand of a positive number lies in [2^52, 2^53). *)
Lemma significand_bounds (x : Q) :
  0 < x ->
  2 ^ 52 <= x / 2 ^ (Binary64.exponent x - 52)
  /\ x / 2 ^ (Binary64.exponent x - 52) < 2 ^ 53.
Proof.
  intros Hx. destruct (exponent_spec x Hx) as [H1 H2].
  set (e := Binary64.exponent x) in *.
  pose proof (pow2_pos (e - 52)) as Pu.
  assert (E1 : 2 ^ e == 2 ^ 52 * 2 ^ (e - 52)).
  { rewrite <- Qpower_plus by discriminate.
    now replace (52 + (e - 52))%Z with e by lia. }
  assert (E2 : 2 ^ (e + 1) == 2 ^ 53 * 2 ^ (e - 52)).
  { rewrite <- Qpower_plus by discriminate.
    now replace (53 + (e - 52))%Z with (e + 1)%Z by lia. }
  split.
  - apply Qle_shift_div_l; [exact Pu|]. now rewrite <- E1.
  - apply Qlt_shift_div_r; [exact Pu|]. now rewrite <- E2.
Qed.

Lemma round_pos_bounds (x : Q) :
  0 < x ->
  2 ^ Binary64.exponent x <= Binary64.round x
  /\ Binary64.round x <= 2 ^ (Binary64.exponent x + 1).
Proof.
  intros Hx. rewrite (round_pos x Hx).
  destruct (significand_bounds x Hx) as [H1 H2].
  set (e := Binary64.exponent x) in *.
  set (s := x / 2 ^ (e - 52)) in *.
  pose proof (pow2_pos (e - 52)) as Pu.
  assert (E1 : 2 ^ e == 2 ^ 52 * 2 ^ (e - 52)).
  { rewrite <- Qpower_plus by discriminate.
    now replace (52 + (e - 52))%Z with e by lia. }
  assert (E2 : 2 ^ (e + 1) == 2 ^ 53 * 2 ^ (e - 52)).
  { rewrite <- Qpower_plus by discriminate.
    now replace (53 + (e - 52))%Z with (e + 1)%Z by lia. }
  assert (M1 : (2 ^ 52 <= py_round s)%Z).
  { rewrite <- (py_round_Z (2 ^ 52)). apply py_round_mono.
    rewrite pow2_inject by lia. exact H1. }
  assert (M2 : (py_round s <= 2 ^ 53)%Z).
  { rewrite <- (py_round_Z (2 ^ 53)). apply py_round_mono.
    rewrite pow2_inject by lia. lra. }
  rewrite Zle_Qle in M1, M2. rewrite pow2_inject in M1, M2 by lia.
  rewrite E1, E2. split; apply Qmult_le_compat_r; lra.
Qed.

Lemma round_pos_pos (x : Q) : 0 < x -> 0 < Binary64.round x.
Proof.
  intros Hx. destruct (round_pos_bounds x Hx) as [H _].
  pose proof (pow2_pos (Binary64.exponent x)). lra.
Qed.

(** Rounding moves a number by at most half a unit in the last place,
    that is by one part in [2^53]. *)
Lemma round_pos_error (x : Q) :
  0 < x ->
  x * (1 - Binary64.eta) <= Binary64.round x
  /\ Binary64.round x <= x * (1 + Binary64.eta).
Proof.
  intros Hx. rewrite (round_pos x Hx).
  destruct (significand_bounds x Hx) as [H1 _].
  set (e := Binary64.exponent x) in *.
  pose proof (pow2_pos (e - 52)) as Pu.
  set (u := 2 ^ (e - 52)) in *.
  pose proof (py_round_error (x / u)) as [R1 R2].
  set (m := inject_Z (py_round (x / u))) in *.
  assert (Ex : x == (x / u) * u) by (field; lra).
  set (s := x / u) in *.
  assert (E52 : (2 ^ 52 : Q) == 4503599627370496) by reflexivity.
  assert (Eeta : Binary64.eta = (1 # 9007199254740992)) by reflexivity.
  rewrite E52 in H1. rewrite Eeta.
  clearbody m. clearbody s. clearbody u.
  split.
  - rewrite Ex.
    assert (s * (1 - (1 # 9007199254740992)) <= m) by lra.
    nra.
  - rewrite Ex.
    assert (m <= s * (1 + (1 # 9007199254740992))) by lra.
    nra.
Qed.

Lemma round_mono (x y : Q) : x <= y -> Binary64.round x <= Binary64.round y.
Proof.
  assert (Pos : forall a b, 0 < a -> a <= b -> Binary64.round a <= Binary64.round b).
  { intros a b Ha Hab.
    pose proof (exponent_mono a b Ha Hab) as He.
    destruct (Z.eq_dec (Binary64.exponent a) (Binary64.exponent b)) as [E|E].
    - rewrite (round_pos a Ha), (round_pos b ltac:(lra)), E.
      pose proof (pow2_pos (Binary64.exponent b - 52)) as Pu.
      apply Qmult_le_compat_r; [|lra].
      rewrite <- Zle_Qle. apply py_round_mono.
      apply Qmult_le_compat_r; [exact Hab|].
      apply Qlt_le_weak, Qinv_lt_0_compat. exact Pu.
    - destruct (round_pos_bounds a Ha) as [_ Ua].
      destruct (round_pos_bounds b ltac:(lra)) as [Lb _].
      pose proof (pow2_le (Binary64.exponent a + 1) (Binary64.exponent b)
                    ltac:(lia)).
      lra. }
  intros H.
  destruct (Qlt_le_dec 0 x) as [Hx|Hx].
  - now apply Pos.
  - destruct (Qlt_le_dec 0 y) as [Hy|Hy].
    + pose proof (round_pos_pos y Hy).
      destruct (Qeq_dec x 0) as [E|E].
      * rewrite (round_comp x 0 E), round_0. lra.
      * assert (Hn : 0 < - x) by lra.
        pose proof (round_pos_pos _ Hn) as P.
        rewrite round_opp in P. lra.
    + destruct (Qeq_dec y 0) as [E|E].
      * rewrite (round_comp y 0 E), round_0.
        destruct (Qeq_dec x 0) as [E'|E'].
        -- rewrite (round_comp x 0 E'), round_0. lra.
        -- assert (Hn : 0 < - x) by lra.
           pose proof (round_pos_pos _ Hn) as P.
           rewrite round_opp in P. lra.
      * assert (Hy' : 0 < - y) by lra.
        assert (Hyx : - y <= - x) by lra.
        pose proof (Pos _ _ Hy' Hyx) as P.
        rewrite !round_opp in P. lra.
Qed.


Lemma round_nonpos (x : Q) : x <= 0 -> Binary64.round x <= 0.
Proof. intros H. rewrite <- round_0. now apply round_mono. Qed.

Lemma round_eq_0 (x : Q) : Binary64.round x == 0 -> x == 0.
Proof.
  intros H. destruct (Qlt_le_dec 0 x) as [Hx|Hx].
  - pose proof (round_pos_pos x Hx). lra.
  - destruct (Qeq_dec x 0) as [E|E]; [exact E|].
    assert (Hn : 0 < - x) by lra.
    pose proof (round_pos_pos _ Hn) as P. rewrite round_opp in P. lra.
Qed.

(** The error of a rounding, for a number of magnitude at most [b]. *)
Lemma round_error (x b : Q) :
  - b <= x -> x <= b ->
  x - b * Binary64.eta <= Binary64.round x
  /\ Binary64.round x <= x + b * Binary64.eta.
Proof.
  intros H1 H2.
  assert (Eeta : Binary64.eta = (1 # 9007199254740992)) by reflexivity.
  destruct (Qlt_le_dec 0 x) as [Hx|Hx].
  - destruct (round_pos_error x Hx) as [A B]. rewrite Eeta in *. split; nra.
  - destruct (Qeq_dec x 0) as [E|E].
    + rewrite (round_comp x 0 E), round_0. rewrite Eeta. split; nra.
    + assert (Hn : 0 < - x) by lra.
      destruct (round_pos_error _ Hn) as [A B].
      rewrite round_opp in A, B. rewrite Eeta in *. split; nra.
Qed.

(** Operations. *)

#[global] Instance add_proper : Proper (Qeq ==> Qeq ==> Qeq) Binary64.add.
Proof. intros x x' Ex y y' Ey. unfold Binary64.add. now rewrite Ex, Ey. Qed.

#[global] Instance sub_proper : Proper (Qeq ==> Qeq ==> Qeq) Binary64.sub.
Proof. intros x x' Ex y y' Ey. unfold Binary64.sub. now rewrite Ex, Ey. Qed.

#[global] Instance mul_proper : Proper (Qeq ==> Qeq ==> Qeq) Binary64.mul.
Proof. intros x x' Ex y y' Ey. unfold Binary64.mul. now rewrite Ex, Ey. Qed.

#[global] Instance div_proper : Proper (Qeq ==> Qeq ==> Qeq) Binary64.div.
Proof. intros x x' Ex y y' Ey. unfold Binary64.div. now rewrite Ex, Ey. Qed.


Lemma round_between (lo hi x : Q) :
  Binary64.representable lo -> Binary64.representable hi ->
  lo <= x -> x <= hi ->
  lo <= Binary64.round x /\ Binary64.round x <= hi.
Proof.
  unfold Binary64.representable. intros Hlo Hhi H1 H2.
  split; [rewrite <- Hlo | rewrite <- Hhi]; now apply round_mono.
Qed.

Lemma representable_0 : Binary64.representable 0.
Proof. reflexivity. Qed.
Lemma representable_1 : Binary64.representable 1.
Proof. vm_compute. reflexivity. Qed.
Lemma representable_2 : Binary64.representable 2.
Proof. vm_compute. reflexivity. Qed.
Lemma representable_half : Binary64.representable (1#2).
Proof. vm_compute. reflexivity. Qed.
Lemma representable_m1 : Binary64.representable (-1).
Proof. vm_compute. reflexivity. Qed.
Lemma representable_mhalf : Binary64.representable (-(1#2)).
Proof. vm_compute. reflexivity. Qed.
Lemma representable_100 : Binary64.representable 100.
Proof. vm_compute. reflexivity. Qed.

(** ** The easing curve on floats *)

Lemma ease_low_eq (t : Q) :
  t < 1#2 ->
  Binary64.cubic_ease_in_out t
  = Binary64.round (Binary64.round (Binary64.round (4 * t) * t) * t).
Proof.
  intros Ht. unfold Binary64.cubic_ease_in_out.
  now rewrite (proj2 (Qlt_bool_true _ _) Ht).
Qed.

Lemma ease_high_eq (t : Q) :
  1#2 <= t ->
  Binary64.cubic_ease_in_out t
  = Binary64.round
      (Binary64.round
         (Binary64.round
            (Binary64.round ((1#2) * Binary64.round (Binary64.round (2 * t) - 2))
             * Binary64.round (Binary64.round (2 * t) - 2))
          * Binary64.round (Binary64.round (2 * t) - 2))
       + 1).
Proof.
  intros Ht. unfold Binary64.cubic_ease_in_out.
  now rewrite (proj2 (Qlt_bool_false _ _) Ht).
Qed.

Ltac between lo hi :=
  apply round_between; [exact lo | exact hi | try lra; try nra | try lra; try nra].

(** The ranges of the intermediate results of the lower branch. *)
Lemma ease_low_steps (t : Q) :
  0 <= t -> t < 1#2 ->
  forall a b c,
    a = Binary64.round (4 * t) ->
    b = Binary64.round (a * t) ->
    c = Binary64.round (b * t) ->
    (0 <= a /\ a <= 2) /\ (0 <= b /\ b <= 1) /\ (0 <= c /\ c <= 1#2).
Proof.
  intros Ht0 Ht a b c Ea Eb Ec.
  assert (A : 0 <= a /\ a <= 2)
    by (rewrite Ea; between representable_0 representable_2).
  clear Ea. destruct A as [A0 A2].
  assert (B : 0 <= b /\ b <= 1)
    by (rewrite Eb; between representable_0 representable_1).
  clear Eb. destruct B as [B0 B1].
  assert (C : 0 <= c /\ c <= 1#2)
    by (rewrite Ec; between representable_0 representable_half).
  tauto.
Qed.

(** The ranges of the intermediate results of the upper branch. *)
Lemma ease_high_steps (t : Q) :
  1#2 <= t -> t <= 1 ->
  forall y f g1 g2 g3 h,
    y = Binary64.round (2 * t) ->
    f = Binary64.round (y - 2) ->
    g1 = Binary64.round ((1#2) * f) ->
    g2 = Binary64.round (g1 * f) ->
    g3 = Binary64.round (g2 * f) ->
    h = Binary64.round (g3 + 1) ->
    (1 <= y /\ y <= 2) /\ (-1 <= f /\ f <= 0) /\ (-(1#2) <= g1 /\ g1 <= 0)
    /\ (0 <= g2 /\ g2 <= 1#2) /\ (-(1#2) <= g3 /\ g3 <= 0)
    /\ (1#2 <= h /\ h <= 1).
Proof.
  intros Ht Ht1 y f g1 g2 g3 h Ey Ef Eg1 Eg2 Eg3 Eh.
  assert (Y : 1 <= y /\ y <= 2)
    by (rewrite Ey; between representable_1 representable_2).
  clear Ey. destruct Y as [Y1 Y2].
  assert (F : -1 <= f /\ f <= 0)
    by (rewrite Ef; between representable_m1 representable_0).
  clear Ef. destruct F as [F1 F2].
  assert (G1 : -(1#2) <= g1 /\ g1 <= 0)
    by (rewrite Eg1; between representable_mhalf representable_0).
  clear Eg1. destruct G1 as [G11 G12].
  assert (G2 : 0 <= g2 /\ g2 <= 1#2)
    by (rewrite Eg2; between representable_0 representable_half).
  clear Eg2. destruct G2 as [G21 G22].
  assert (G3 : -(1#2) <= g3 /\ g3 <= 0)
    by (rewrite Eg3; between representable_mhalf representable_0).
  clear Eg3. destruct G3 as [G31 G32].
  assert (Hh : 1#2 <= h /\ h <= 1)
    by (rewrite Eh; between representable_half representable_1).
  tauto.
Qed.

(** Names for the intermediate results of a branch. *)
Ltac name_low t a b c :=
  remember (Binary64.round (4 * t)) as a eqn:?Ea;
  remember (Binary64.round (a * t)) as b eqn:?Eb;
  remember (Binary64.round (b * t)) as c eqn:?Ec.

Ltac name_high t y f g1 g2 g3 h :=
  remember (Binary64.round (2 * t)) as y eqn:?Ey;
  remember (Binary64.round (y - 2)) as f eqn:?Ef;
  remember (Binary64.round ((1#2) * f)) as g1 eqn:?Eg1;
  remember (Binary64.round (g1 * f)) as g2 eqn:?Eg2;
  remember (Binary64.round (g2 * f)) as g3 eqn:?Eg3;
  remember (Binary64.round (g3 + 1)) as h eqn:?Eh.


Lemma ease64_mono (s t : Q) :
  0 <= s -> s <= t -> t <= 1 ->
  Binary64.cubic_ease_in_out s <= Binary64.cubic_ease_in_out t.
Proof.
  intros Hs0 Hst Ht1.
  destruct (Qlt_le_dec s (1#2)) as [Hs|Hs];
    destruct (Qlt_le_dec t (1#2)) as [Ht|Ht].
  - rewrite (ease_low_eq s Hs), (ease_low_eq t Ht).
    name_low s a b c. name_low t a' b' c'.
    destruct (ease_low_steps s Hs0 Hs a b c Ea Eb Ec)
      as ((A0 & A2) & (B0 & B1) & _).
    destruct (ease_low_steps t ltac:(lra) Ht a' b' c' Ea0 Eb0 Ec0)
      as ((A0' & A2') & (B0' & B1') & _).
    assert (A : a <= a') by (rewrite Ea, Ea0; apply round_mono; lra).
    clear Ea Ea0.
    assert (B : b <= b') by (rewrite Eb, Eb0; apply round_mono; nra).
    clear Eb Eb0.
    rewrite Ec, Ec0. apply round_mono. nra.
  - rewrite (ease_low_eq s Hs), (ease_high_eq t Ht).
    name_low s a b c. name_high t y f g1 g2 g3 h.
    destruct (ease_low_steps s Hs0 Hs a b c Ea Eb Ec) as (_ & _ & C).
    destruct (ease_high_steps t Ht Ht1 y f g1 g2 g3 h Ey Ef Eg1 Eg2 Eg3 Eh)
      as (_ & _ & _ & _ & _ & C').
    lra.
  - lra.
  - rewrite (ease_high_eq s Hs), (ease_high_eq t Ht).
    name_high s y f g1 g2 g3 h. name_high t y' f' g1' g2' g3' h'.
    destruct (ease_high_steps s Hs ltac:(lra) y f g1 g2 g3 h Ey Ef Eg1 Eg2 Eg3 Eh)
      as (_ & (F1 & F2) & (G11 & G12) & (G21 & G22) & (G31 & G32) & _).
    destruct (ease_high_steps t Ht Ht1 y' f' g1' g2' g3' h'
                Ey0 Ef0 Eg0 Eg4 Eg5 Eh0)
      as (_ & (F1' & F2') & (G11' & G12') & (G21' & G22') & (G31' & G32') & _).
    assert (Y : y <= y') by (rewrite Ey, Ey0; apply round_mono; lra).
    clear Ey Ey0.
    assert (F : f <= f') by (rewrite Ef, Ef0; apply round_mono; lra).
    clear Ef Ef0.
    assert (G1 : g1 <= g1') by (rewrite Eg1, Eg0; apply round_mono; lra).
    clear Eg1 Eg0.
    assert (G2 : g2' <= g2) by (rewrite Eg2, Eg4; apply round_mono; nra).
    clear Eg2 Eg4.
    assert (G3 : g3 <= g3') by (rewrite Eg3, Eg5; apply round_mono; nra).
    clear Eg3 Eg5.
    rewrite Eh, Eh0. apply round_mono. lra.
Qed.

Lemma low_core (t a b c e : Q) :
  0 <= e -> 0 <= t -> t < 1#2 ->
  4 * t - 2 * e <= a -> a <= 4 * t + 2 * e ->
  0 <= a -> a <= 2 ->
  a * t - e <= b -> b <= a * t + e ->
  0 <= b -> b <= 1 ->
  b * t - (1#2) * e <= c -> c <= b * t + (1#2) * e ->
  4 * t * t * t - 8 * e <= c /\ c <= 4 * t * t * t + 8 * e.
Proof.
  intros He Ht0 Ht Ea1 Ea2 A0 A2 Eb1 Eb2 B0 B1 Ec1 Ec2.
  assert (X1 : 4 * t * t - 2 * e <= b /\ b <= 4 * t * t + 2 * e) by (split; nra).
  destruct X1 as [X1 X2].
  split; nra.
Qed.

Lemma high_core (t y f g1 g2 g3 h e : Q) :
  0 <= e ->
  1#2 <= t -> t <= 1 ->
  2 * t - 2 * e <= y -> y <= 2 * t + 2 * e ->
  1 <= y -> y <= 2 ->
  (y - 2) - e <= f -> f <= (y - 2) + e ->
  -1 <= f -> f <= 0 ->
  (1#2) * f - (1#2) * e <= g1 -> g1 <= (1#2) * f + (1#2) * e ->
  -(1#2) <= g1 -> g1 <= 0 ->
  g1 * f - (1#2) * e <= g2 -> g2 <= g1 * f + (1#2) * e ->
  0 <= g2 -> g2 <= 1#2 ->
  g2 * f - (1#2) * e <= g3 -> g3 <= g2 * f + (1#2) * e ->
  -(1#2) <= g3 -> g3 <= 0 ->
  (g3 + 1) - e <= h -> h <= (g3 + 1) + e ->
  1 - 4 * (1 - t) * (1 - t) * (1 - t) - 8 * e <= h
  /\ h <= 1 - 4 * (1 - t) * (1 - t) * (1 - t) + 8 * e.
Proof.
  intros He Ht Ht1 Ey1 Ey2 Y1 Y2 Ef1 Ef2 F1 F2 Eg1 Eg2 G11 G12
         Eh1 Eh2 G21 G22 Ei1 Ei2 G31 G32 Ej1 Ej2.
  set (p := 2 * t - 2) in *.
  assert (P1 : -1 <= p /\ p <= 0) by (unfold p; lra).
  assert (Xf : p - 3 * e <= f /\ f <= p + 3 * e) by (unfold p; lra).
  assert (Xg1 : (1#2) * p - 2 * e <= g1 /\ g1 <= (1#2) * p + 2 * e) by lra.
  destruct P1 as [P1 P2]. destruct Xf as [Xf1 Xf2]. destruct Xg1 as [Xg11 Xg12].
  assert (Ep : 1 - 4 * (1 - t) * (1 - t) * (1 - t) == (1#2) * p * p * p + 1)
    by (unfold p; ring).
  rewrite Ep. clearbody p. clear Ep Ey1 Ey2 Ef1 Ef2 Eg1 Eg2 Y1 Y2 Ht Ht1 t y.
  assert (Xg2 : (1#2) * p * p - 4 * e <= g2 /\ g2 <= (1#2) * p * p + 4 * e).
  { clear Ei1 Ei2 Ej1 Ej2.
    assert (E : g1 * f - (1#2) * p * p == g1 * (f - p) + p * (g1 - (1#2) * p))
      by ring.
    assert (g1 * (f - p) <= (3#2) * e) by nra.
    assert (p * (g1 - (1#2) * p) <= 2 * e) by nra.
    assert (-((3#2) * e) <= g1 * (f - p)) by nra.
    assert (-(2 * e) <= p * (g1 - (1#2) * p)) by nra.
    split; lra. }
  destruct Xg2 as [Xg21 Xg22].
  assert (Xg3 : (1#2) * p * p * p - 6 * e <= g3 /\ g3 <= (1#2) * p * p * p + 6 * e).
  { clear Eh1 Eh2 Ej1 Ej2 Xg11 Xg12.
    assert (E : g2 * f - (1#2) * p * p * p
                == g2 * (f - p) + p * (g2 - (1#2) * p * p)) by ring.
    assert (g2 * (f - p) <= (3#2) * e) by nra.
    assert (p * (g2 - (1#2) * p * p) <= 4 * e) by nra.
    assert (-((3#2) * e) <= g2 * (f - p)) by nra.
    assert (-(4 * e) <= p * (g2 - (1#2) * p * p)) by nra.
    split; lra. }
  destruct Xg3 as [Xg31 Xg32].
  split; lra.
Qed.

(** The curve computed in binary64 is the cubic ease-in-out curve, up to
    [2^-50]. *)
Lemma ease64_is_cubic (t : Q) :
  0 <= t -> t <= 1 ->
  let c := if Qlt_bool t (1#2) then 4 * t * t * t
           else 1 - 4 * (1 - t) * (1 - t) * (1 - t) in
  c - (1 # 1125899906842624) <= Binary64.cubic_ease_in_out t
  /\ Binary64.cubic_ease_in_out t <= c + (1 # 1125899906842624).
Proof.
  intros H0 H1. cbv zeta.
  assert (E8 : (1 # 1125899906842624) == 8 * Binary64.eta) by reflexivity.
  rewrite E8.
  assert (He : 0 <= Binary64.eta) by discriminate.
  destruct (Qlt_le_dec t (1#2)) as [H|H].
  - rewrite (proj2 (Qlt_bool_true _ _) H), (ease_low_eq t H).
    name_low t a b c.
    destruct (ease_low_steps t H0 H a b c Ea Eb Ec)
      as ((A0 & A2) & (B0 & B1) & _).
    pose proof (round_error (4 * t) 2 ltac:(lra) ltac:(lra)) as [Ea1 Ea2].
    rewrite <- Ea in Ea1, Ea2. clear Ea.
    pose proof (round_error (a * t) 1 ltac:(nra) ltac:(nra)) as [Eb1 Eb2].
    rewrite <- Eb in Eb1, Eb2. clear Eb.
    pose proof (round_error (b * t) (1#2) ltac:(nra) ltac:(nra)) as [Ec1 Ec2].
    rewrite <- Ec in Ec1, Ec2. clear Ec.
    apply (low_core t a b c Binary64.eta); try assumption; lra.
  - rewrite (proj2 (Qlt_bool_false _ _) H), (ease_high_eq t H).
    name_high t y f g1 g2 g3 h.
    destruct (ease_high_steps t H H1 y f g1 g2 g3 h Ey Ef Eg1 Eg2 Eg3 Eh)
      as ((Y1 & Y2) & (F1 & F2) & (G11 & G12) & (G21 & G22) & (G31 & G32) & _).
    pose proof (round_error (2 * t) 2 ltac:(lra) ltac:(lra)) as [Ey1 Ey2].
    rewrite <- Ey in Ey1, Ey2. clear Ey.
    pose proof (round_error (y - 2) 1 ltac:(lra) ltac:(lra)) as [Ef1 Ef2].
    rewrite <- Ef in Ef1, Ef2. clear Ef.
    pose proof (round_error ((1#2) * f) (1#2) ltac:(lra) ltac:(lra)) as [Ex1 Ex2].
    rewrite <- Eg1 in Ex1, Ex2. clear Eg1.
    pose proof (round_error (g1 * f) (1#2) ltac:(nra) ltac:(nra)) as [Eh1 Eh2].
    rewrite <- Eg2 in Eh1, Eh2. clear Eg2.
    pose proof (round_error (g2 * f) (1#2) ltac:(nra) ltac:(nra)) as [Ei1 Ei2].
    rewrite <- Eg3 in Ei1, Ei2. clear Eg3.
    pose proof (round_error (g3 + 1) 1 ltac:(lra) ltac:(lra)) as [Ej1 Ej2].
    rewrite <- Eh in Ej1, Ej2. clear Eh.
    apply (high_core t y f g1 g2 g3 h Binary64.eta); try assumption; lra.
Qed.

(** ** The queued values on floats *)


Lemma eased64_first (s T : Q) :
  Binary64.representable s -> Binary64.eased_position s T 0 == s.
Proof.
  unfold Binary64.representable. intros Hs. unfold Binary64.eased_position.
  assert (E : Binary64.cubic_ease_in_out
                (Binary64.div (inject_Z 0) (inject_Z (Z.of_nat Joint.num_steps - 1)))
              == 0) by (vm_compute; reflexivity).
  cbv zeta. unfold Binary64.add, Binary64.mul, Binary64.sub.
  rewrite E.
  assert (E1 : Binary64.round (1 - 0) == 1) by (vm_compute; reflexivity).
  rewrite E1.
  assert (E2 : 1 * s == s) by ring. rewrite E2, Hs.
  assert (E3 : 0 * T == 0) by ring. rewrite E3, round_0.
  assert (E4 : s + 0 == s) by ring. rewrite E4. exact Hs.
Qed.

Lemma eased64_last (s T : Q) :
  Binary64.representable T -> Binary64.eased_position s T 49 == T.
Proof.
  unfold Binary64.representable. intros HT. unfold Binary64.eased_position.
  assert (E : Binary64.cubic_ease_in_out
                (Binary64.div (inject_Z 49) (inject_Z (Z.of_nat Joint.num_steps - 1)))
              == 1) by (vm_compute; reflexivity).
  cbv zeta. unfold Binary64.add, Binary64.mul, Binary64.sub.
  rewrite E.
  assert (E1 : Binary64.round (1 - 1) == 0) by (vm_compute; reflexivity).
  rewrite E1.
  assert (E2 : 0 * s == 0) by ring. rewrite E2, round_0.
  assert (E3 : 1 * T == T) by ring. rewrite E3, HT.
  assert (E4 : 0 + T == T) by ring. rewrite E4. exact HT.
Qed.






(** ** set_servo_angle on floats *)

Lemma fold_append (g : Z -> Q) (l : list Z) (j : Joint.t) :
  fold_left (fun self step => Joint.append (g step) self) l j
  = Joint.with_queue (Joint.intermediate_positions j ++ map g l) j.
Proof.
  revert j. induction l as [|x l IH]; intros j.
  - cbn. rewrite app_nil_r. now destruct j.
  - cbn [fold_left map]. rewrite IH. unfold Joint.append, Joint.with_queue.
    cbn. now rewrite <- app_assoc.
Qed.

Lemma set_servo_angle64_eq (a : Q) (j : Joint.t) :
  Binary64.set_servo_angle a j
  = Joint.with_queue
      (Joint.intermediate_positions j
       ++ map (Binary64.eased_position (Joint.position j) (Joint.clamp j a))
            (range Joint.num_steps)) j.
Proof. unfold Binary64.set_servo_angle. apply fold_append. Qed.


Lemma last_map_range (g : Z -> Q) (d : Q) :
  last (map g (range Joint.num_steps)) d = g 49%Z.
Proof. reflexivity. Qed.

(** ** get_flexion on floats *)

Lemma span64_pos (j : Joint.t) :
  Joint.min_pos j < Joint.max_pos j ->
  0 < Binary64.sub (Joint.max_pos j) (Joint.min_pos j).
Proof. intros H. apply round_pos_pos. lra. Qed.

Lemma get_flexion64_eq (j : Joint.t) :
  Joint.min_pos j < Joint.max_pos j ->
  Binary64.get_flexion j = Some (py_int (Binary64.flexion_ratio j)).
Proof.
  intros H. unfold Binary64.get_flexion. cbv zeta.
  pose proof (span64_pos j H) as P.
  destruct (Qeq_bool (Binary64.sub (Joint.max_pos j) (Joint.min_pos j)) 0) eqn:E;
    [|reflexivity].
  apply Qeq_bool_iff in E. lra.
Qed.

Lemma flexion_ratio64_mono (j : Joint.t) (p q : Q) :
  Joint.min_pos j < Joint.max_pos j -> p <= q ->
  Binary64.flexion_ratio (Joint.with_position p j) <= Binary64.flexion_ratio (Joint.with_position q j).
Proof.
  intros H Hpq. unfold Binary64.flexion_ratio. cbn [Joint.position Joint.min_pos Joint.max_pos Joint.with_position].
  pose proof (span64_pos j H) as P.
  set (d := Binary64.sub (Joint.max_pos j) (Joint.min_pos j)) in *. clearbody d.
  unfold Binary64.mul, Binary64.div, Binary64.sub.
  apply round_mono. apply Qmult_le_compat_r; [|discriminate].
  apply round_mono. apply Qmult_le_compat_r.
  - apply round_mono. lra.
  - apply Qlt_le_weak, Qinv_lt_0_compat. exact P.
Qed.

Lemma flexion_ratio64_min (j : Joint.t) :
  Joint.min_pos j < Joint.max_pos j ->
  Joint.position j == Joint.min_pos j -> Binary64.flexion_ratio j == 0.
Proof.
  intros H E. unfold Binary64.flexion_ratio.
  pose proof (span64_pos j H) as P.
  set (d := Binary64.sub (Joint.max_pos j) (Joint.min_pos j)) in *. clearbody d.
  unfold Binary64.mul, Binary64.div, Binary64.sub.
  assert (E1 : Joint.position j - Joint.min_pos j == 0) by lra.
  rewrite E1, round_0.
  assert (E2 : 0 / d == 0) by (field; lra).
  rewrite E2, round_0.
  assert (E3 : 0 * 100 == 0) by ring.
  rewrite E3, round_0. reflexivity.
Qed.

Lemma flexion_ratio64_max (j : Joint.t) :
  Joint.min_pos j < Joint.max_pos j ->
  Joint.position j == Joint.max_pos j -> Binary64.flexion_ratio j == 100.
Proof.
  intros H E. unfold Binary64.flexion_ratio.
  pose proof (span64_pos j H) as P.
  unfold Binary64.mul, Binary64.div, Binary64.sub in *.
  assert (E1 : Joint.position j - Joint.min_pos j
               == Joint.max_pos j - Joint.min_pos j) by lra.
  rewrite E1.
  set (d := Binary64.round (Joint.max_pos j - Joint.min_pos j)) in *. clearbody d.
  assert (E2 : d / d == 1) by (field; lra).
  assert (R1 : Binary64.round 1 == 1) by exact representable_1.
  rewrite E2, R1.
  assert (E3 : 1 * 100 == 100) by ring.
  rewrite E3. apply representable_100.
Qed.

Lemma get_flexion64_range (j : Joint.t) :
  Joint.min_pos j < Joint.max_pos j ->
  Joint.in_range j (Joint.position j) ->
  exists a, Binary64.get_flexion j = Some a /\ (0 <= a <= 100)%Z.
Proof.
  intros Hc [Hlo Hhi]. eexists. split; [now apply get_flexion64_eq|].
  assert (E0 : Binary64.flexion_ratio (Joint.with_position (Joint.min_pos j) j) == 0)
    by (now apply flexion_ratio64_min).
  assert (E1 : Binary64.flexion_ratio (Joint.with_position (Joint.max_pos j) j) == 100)
    by (now apply flexion_ratio64_max).
  pose proof (flexion_ratio64_mono j _ _ Hc Hlo) as M0.
  pose proof (flexion_ratio64_mono j _ _ Hc Hhi) as M1.
  assert (Ej : Binary64.flexion_ratio (Joint.with_position (Joint.position j) j) = Binary64.flexion_ratio j)
    by reflexivity.
  rewrite Ej in M0, M1.
  rewrite E0 in M0. rewrite E1 in M1.
  apply py_int_mono in M0, M1.
  change (py_int 0) with 0%Z in M0. change (py_int 100) with 100%Z in M1.
  lia.
Qed.

(** ** Joint: flexion *)

Section FlexionFacts.

Import Joint.






End FlexionFacts.

(** ** Joint: ticking and draining *)

Section TickFacts.

Import Joint.

Lemma update_eq (j : Joint.t) :
  exists es, update j = (idle j, tick j, es).
Proof.
  unfold tick, idle, update.
  destruct (intermediate_positions j); eexists; reflexivity.
Qed.

Lemma tick_idle (j : Joint.t) : idle j = true -> tick j = j.
Proof.
  unfold tick, idle, update. destruct (intermediate_positions j); easy.
Qed.

Lemma drain_idle (j : Joint.t) : idle j = true -> drain j = j.
Proof.
  unfold drain, idle, final_target. destruct j as [c n lo hi p q]. simpl.
  destruct q; [reflexivity | discriminate].
Qed.

Lemma tick_final_target (j : Joint.t) : final_target (tick j) = final_target j.
Proof.
  unfold tick, update, final_target.
  destruct j as [c n lo hi p q].
  cbn [intermediate_positions position].
  destruct q as [|a q]; [reflexivity|].
  cbn [fst snd with_position with_queue intermediate_positions position].
  symmetry. apply last_cons.
Qed.

Lemma drain_tick (j : Joint.t) : drain (tick j) = drain j.
Proof.
  unfold drain. rewrite tick_final_target.
  unfold tick, update.
  destruct j as [c n lo hi p q]. simpl.
  destruct q; reflexivity.
Qed.

Lemma tick_length (j : Joint.t) :
  List.length (intermediate_positions (tick j))
  = Nat.pred (List.length (intermediate_positions j)).
Proof.
  unfold tick, update. destruct (intermediate_positions j) eqn:E; simpl.
  - now rewrite E.
  - reflexivity.
Qed.

Lemma idle_length (j : Joint.t) :
  idle j = true <-> List.length (intermediate_positions j) = 0%nat.
Proof.
  unfold idle. destruct (intermediate_positions j); simpl; split; easy.
Qed.

Lemma tick_min_pos (j : Joint.t) : min_pos (tick j) = min_pos j.
Proof. unfold tick, update. destruct (intermediate_positions j); reflexivity. Qed.

Lemma tick_max_pos (j : Joint.t) : max_pos (tick j) = max_pos j.
Proof. unfold tick, update. destruct (intermediate_positions j); reflexivity. Qed.

Lemma drain_final_target (j : Joint.t) : final_target (drain j) = final_target j.
Proof. reflexivity. Qed.

Lemma drain_queue (j : Joint.t) : intermediate_positions (drain j) = [].
Proof. reflexivity. Qed.

Lemma drain_position (j : Joint.t) : position (drain j) = final_target j.
Proof. reflexivity. Qed.

End TickFacts.

(** ** The hand's store of joints *)

Lemma joint_set_joint (r r' : JointRef) (j : Joint.t) (h : HandState.t) :
  HandState.joint r (HandState.set_joint r' j h)
  = if JointRef_eqb r' r then j else HandState.joint r h.
Proof. destruct r, r'; reflexivity. Qed.

Lemma joint_on_joint (r r' : JointRef) (f : Joint.t -> Joint.t) (h : HandState.t) :
  HandState.joint r (Pure.on_joint r' f h)
  = if JointRef_eqb r' r then f (HandState.joint r h) else HandState.joint r h.
Proof. unfold Pure.on_joint. rewrite joint_set_joint. destruct r, r'; reflexivity. Qed.

Lemma joint_on_fingers (r : JointRef) (f : Joint.t -> Joint.t) (h : HandState.t) :
  HandState.joint r (Pure.on_fingers f h)
  = if JointRef_eqb r Wrist then HandState.joint r h else f (HandState.joint r h).
Proof. destruct r; reflexivity. Qed.

Lemma on_fingers_id (f : Joint.t -> Joint.t) (h : HandState.t) :
  (forall r, In r five_fingers -> f (HandState.joint r h) = HandState.joint r h) ->
  Pure.on_fingers f h = h.
Proof.
  intros H. destruct h as [w t i m r p fs fnt].
  unfold Pure.on_fingers, Pure.on_joint, HandState.set_joint. simpl.
  pose proof (H Thumb) as Ht. pose proof (H Index) as Hi.
  pose proof (H Middle) as Hm. pose proof (H Ring) as Hr.
  pose proof (H Pinkie) as Hp. simpl in *.
  rewrite Ht, Hi, Hm, Hr, Hp by tauto. reflexivity.
Qed.

Lemma all_idle_spec (h : HandState.t) :
  Pure.all_idle h = true
  <-> forall r, In r five_fingers ->
        Joint.intermediate_positions (HandState.joint r h) = [].
Proof.
  unfold Pure.all_idle. rewrite forallb_forall.
  split; intros H r Hr; specialize (H r Hr); unfold Joint.idle in *;
    destruct (Joint.intermediate_positions (HandState.joint r h));
    congruence.
Qed.

(** ** Running: the rules *)

Lemma runs_ret {A} (a : A) (h : HandState.t) (l : list Event) :
  runs_to (ret a) (mkWorld h l) a h.
Proof. exists l. reflexivity. Qed.

Lemma runs_bind {A B} (m : M A) (k : A -> M B) (w : World)
    (a : A) (h1 : HandState.t) (b : B) (h2 : HandState.t) :
  runs_to m w a h1 ->
  (forall l, runs_to (k a) (mkWorld h1 l) b h2) ->
  runs_to (bind m k) w b h2.
Proof.
  intros [l1 H1] H2. destruct (H2 l1) as [l2 E].
  exists l2. unfold bind. rewrite H1. exact E.
Qed.

Lemma runs_gets {A} (f : HandState.t -> A) (h : HandState.t) (l : list Event) :
  runs_to (gets f) (mkWorld h l) (f h) h.
Proof. exists l. reflexivity. Qed.

Lemma runs_modify (f : HandState.t -> HandState.t) (h : HandState.t) (l : list Event) :
  runs_to (modify f) (mkWorld h l) tt (f h).
Proof. exists l. reflexivity. Qed.

Lemma runs_emit (e : Event) (h : HandState.t) (l : list Event) :
  runs_to (emit e) (mkWorld h l) tt h.
Proof. exists (e :: l). reflexivity. Qed.

Lemma runs_emit_all (es : list Event) (h : HandState.t) (l : list Event) :
  runs_to (emit_all es) (mkWorld h l) tt h.
Proof.
  revert l. induction es as [|e es IH]; intros l.
  - apply runs_ret.
  - simpl. eapply runs_bind; [apply runs_emit|]. intros l'. apply IH.
Qed.

Lemma runs_set_servo_angle (r : JointRef) (a : Q) (h : HandState.t) (l : list Event) :
  runs_to (set_servo_angle r a) (mkWorld h l) tt (Pure.set_servo_angle r a h).
Proof. apply runs_modify. Qed.

Lemma runs_update_joint (r : JointRef) (h : HandState.t) (l : list Event) :
  runs_to (update_joint r) (mkWorld h l)
    (Joint.idle (HandState.joint r h)) (Pure.on_joint r Joint.tick h).
Proof.
  unfold update_joint.
  eapply runs_bind; [apply runs_gets|]. intros l1.
  destruct (update_eq (HandState.joint r h)) as [es E]. rewrite E.
  eapply runs_bind; [apply runs_modify|]. intros l2.
  eapply runs_bind; [apply runs_emit_all|]. intros l3.
  apply runs_ret.
Qed.

Lemma runs_get_flexion (r : JointRef) (h : HandState.t) (l : list Event) :
  Joint.min_pos (HandState.joint r h) < Joint.max_pos (HandState.joint r h) ->
  runs_to (get_flexion r) (mkWorld h l)
    (py_int (Binary64.flexion_ratio (HandState.joint r h))) h.
Proof.
  intros H. unfold get_flexion.
  eapply runs_bind; [apply runs_gets|]. intros l1.
  rewrite (get_flexion64_eq _ H). apply runs_ret.
Qed.

Lemma runs_send_data (c : string) (d : Line) (h : HandState.t) (l : list Event) :
  runs_to (send_data c d) (mkWorld h l) tt h.
Proof.
  unfold send_data.
  eapply runs_bind; [apply runs_emit|]. intros l1. apply runs_emit.
Qed.

(** ** [Hand.show_positions] and [Hand.update] *)

Lemma runs_show_positions_loop (h : HandState.t) (fs : list JointRef) :
  nondegenerate h ->
  forall data : list (string * Q * Z),
  exists data',
  forall l : list Event,
    runs_to
      (for_fold fs
         (fun data f =>
            j <- gets (HandState.joint f) ;;
            p <- get_flexion f ;;
            ret (data ++ [(Joint.name j, Joint.position j, p)]))
         data)
      (mkWorld h l) data' h.
Proof.
  intros Hn. induction fs as [|f fs IH]; intros data.
  - exists data. intros l. apply runs_ret.
  - destruct (IH (data ++ [(Joint.name (HandState.joint f h),
                            Joint.position (HandState.joint f h),
                            py_int (Binary64.flexion_ratio (HandState.joint f h)))]))
      as [data' E].
    exists data'. intros l. simpl. eapply runs_bind.
    + eapply runs_bind; [apply runs_gets|]. intros l1.
      eapply runs_bind; [apply runs_get_flexion, Hn|]. intros l2.
      apply runs_ret.
    + intros l1. apply E.
Qed.

Lemma runs_show_positions (h : HandState.t) (l : list Event) :
  nondegenerate h -> runs_to Hand.show_positions (mkWorld h l) tt h.
Proof.
  intros Hn. unfold Hand.show_positions.
  eapply runs_bind; [apply runs_gets|]. intros l1.
  destruct (runs_show_positions_loop h (HandState.fingers h) Hn []) as [data E].
  eapply runs_bind; [apply E|]. intros l2.
  eapply runs_bind; [apply runs_gets|]. intros l3.
  eapply runs_bind; [apply runs_get_flexion, Hn|]. intros l4.
  apply runs_send_data.
Qed.

Lemma runs_update_loop (fs : list JointRef) :
  NoDup fs ->
  forall (h : HandState.t) (l : list Event) (ready : bool),
    runs_to
      (for_fold fs
         (fun ready f =>
            done <- update_joint f ;;
            ret (if negb done then false else ready))
         ready)
      (mkWorld h l)
      (ready && forallb (fun r => Joint.idle (HandState.joint r h)) fs)
      (fold_left (fun h r => Pure.on_joint r Joint.tick h) fs h).
Proof.
  induction 1 as [|f fs Hf Hnd IH]; intros h l ready.
  - simpl. rewrite andb_true_r. apply runs_ret.
  - simpl. eapply runs_bind.
    + eapply runs_bind; [apply runs_update_joint|]. intros l1. apply runs_ret.
    + intros l1.
      replace (ready && (Joint.idle (HandState.joint f h)
                         && forallb (fun r => Joint.idle (HandState.joint r h)) fs))
        with ((if negb (Joint.idle (HandState.joint f h)) then false else ready)
              && forallb (fun r => Joint.idle
                                     (HandState.joint r (Pure.on_joint f Joint.tick h)))
                   fs).
      * apply IH.
      * assert (E : forallb (fun r => Joint.idle
                                        (HandState.joint r (Pure.on_joint f Joint.tick h)))
                      fs
                    = forallb (fun r => Joint.idle (HandState.joint r h)) fs).
        { clear IH Hnd. induction fs as [|x fs IHfs]; [reflexivity|].
          simpl. rewrite IHfs by (intros Hin; apply Hf; now right).
          rewrite joint_on_joint.
          destruct (JointRef_eqb f x) eqn:Ex; [|reflexivity].
          exfalso. apply Hf. left. destruct f, x; try discriminate; reflexivity. }
        rewrite E.
        destruct (Joint.idle (HandState.joint f h)), ready; reflexivity.
Qed.

Lemma five_fingers_NoDup : NoDup five_fingers.
Proof.
  unfold five_fingers.
  repeat (constructor; [simpl; intuition discriminate|]). constructor.
Qed.

Lemma runs_update (h : HandState.t) (l : list Event) :
  HandState.fingers h = five_fingers ->
  nondegenerate h ->
  runs_to Hand.update (mkWorld h l) (Pure.all_idle h) (Pure.update h).
Proof.
  intros Hf Hn. unfold Hand.update.
  eapply runs_bind; [apply runs_gets|]. intros l1. rewrite Hf.
  eapply runs_bind.
  { apply (runs_update_loop five_fingers five_fingers_NoDup h l1 true). }
  intros l2. rewrite andb_true_l.
  fold (Pure.all_idle h). fold (Pure.on_fingers Joint.tick h). fold (Pure.update h).
  eapply runs_bind; [|intros l3; apply runs_ret].
  destruct (negb (Pure.all_idle h)); [|apply runs_ret].
  apply runs_show_positions.
  intros r. unfold Pure.update. rewrite joint_on_fingers.
  destruct (JointRef_eqb r Wrist); [apply Hn|].
  rewrite tick_min_pos, tick_max_pos. apply Hn.
Qed.

(** ** The waiting loops *)

Lemma on_joint_drain_tick (r : JointRef) (h : HandState.t) :
  Pure.on_joint r Joint.drain (Pure.on_joint r Joint.tick h)
  = Pure.on_joint r Joint.drain h.
Proof.
  unfold Pure.on_joint. rewrite joint_set_joint.
  replace (JointRef_eqb r r) with true by (destruct r; reflexivity).
  rewrite drain_tick. destruct r; reflexivity.
Qed.

Lemma on_joint_idle (r : JointRef) (h : HandState.t) :
  Joint.idle (HandState.joint r h) = true ->
  Pure.on_joint r Joint.tick h = Pure.on_joint r Joint.drain h.
Proof.
  intros H. unfold Pure.on_joint. now rewrite tick_idle, drain_idle.
Qed.

Lemma runs_wait_joint (r : JointRef) (fuel : nat) :
  forall (h : HandState.t) (l : list Event),
    (List.length (Joint.intermediate_positions (HandState.joint r h)) < fuel)%nat ->
    runs_to (while_not fuel (update_joint r)) (mkWorld h l) tt
      (Pure.on_joint r Joint.drain h).
Proof.
  induction fuel as [|fuel IH]; intros h l Hlen; [lia|].
  simpl. eapply runs_bind; [apply runs_update_joint|]. intros l1.
  destruct (Joint.idle (HandState.joint r h)) eqn:E.
  - rewrite (on_joint_idle _ _ E). apply runs_ret.
  - rewrite <- on_joint_drain_tick. apply IH.
    rewrite joint_on_joint.
    replace (JointRef_eqb r r) with true by (destruct r; reflexivity).
    rewrite tick_length.
    assert (List.length (Joint.intermediate_positions (HandState.joint r h)) <> 0%nat).
    { intros H0. apply idle_length in H0. congruence. }
    lia.
Qed.

Lemma wait_ready_update (h : HandState.t) :
  Pure.wait_ready (Pure.update h) = Pure.wait_ready h.
Proof.
  destruct h as [w t i m r p fs fnt].
  unfold Pure.wait_ready, Pure.update, Pure.on_fingers, Pure.on_joint,
    HandState.set_joint.
  simpl. now rewrite !drain_tick.
Qed.

Lemma update_all_idle (h : HandState.t) :
  Pure.all_idle h = true -> Pure.update h = h /\ Pure.wait_ready h = h.
Proof.
  intros H. unfold Pure.all_idle in H. rewrite forallb_forall in H.
  split; apply on_fingers_id; intros r Hr;
    [apply tick_idle | apply drain_idle]; now apply H.
Qed.

Lemma max_pred (a b : nat) :
  Nat.max (Nat.pred a) (Nat.pred b) = Nat.pred (Nat.max a b).
Proof. lia. Qed.

Lemma pending_update (h : HandState.t) :
  pending (Pure.update h) = Nat.pred (pending h).
Proof.
  unfold pending, Pure.update, list_max, five_fingers.
  cbn [map fold_right]. rewrite !joint_on_fingers.
  cbn [JointRef_eqb]. rewrite !tick_length.
  change 0%nat with (Nat.pred 0) at 1. now rewrite !max_pred.
Qed.

Lemma pending_le (h : HandState.t) (n : nat) :
  (pending h <= n)%nat
  <-> forall r, In r five_fingers ->
        (List.length (Joint.intermediate_positions (HandState.joint r h)) <= n)%nat.
Proof.
  unfold pending. rewrite list_max_le, Forall_map, Forall_forall. reflexivity.
Qed.

Lemma pending_all_idle (h : HandState.t) :
  Pure.all_idle h = false -> (0 < pending h)%nat.
Proof.
  intros H. destruct (Nat.eq_dec (pending h) 0) as [E|E]; [|lia].
  exfalso. assert (Hall : Pure.all_idle h = true); [|congruence].
  unfold Pure.all_idle. apply forallb_forall. intros r Hr.
  apply idle_length.
  assert (Hle : (pending h <= 0)%nat) by lia.
  rewrite pending_le in Hle. specialize (Hle r Hr). lia.
Qed.

Lemma fingers_on_fingers (f : Joint.t -> Joint.t) (h : HandState.t) :
  HandState.fingers (Pure.on_fingers f h) = HandState.fingers h.
Proof. reflexivity. Qed.

Lemma nondegenerate_update (h : HandState.t) :
  nondegenerate h -> nondegenerate (Pure.update h).
Proof.
  intros Hn r. unfold Pure.update. rewrite joint_on_fingers.
  destruct (JointRef_eqb r Wrist); [apply Hn|].
  rewrite tick_min_pos, tick_max_pos. apply Hn.
Qed.

Lemma runs_wait_ready (fuel : nat) :
  forall (h : HandState.t) (l : list Event),
    HandState.fingers h = five_fingers ->
    nondegenerate h ->
    (pending h < fuel)%nat ->
    runs_to (while_not fuel Hand.update) (mkWorld h l) tt (Pure.wait_ready h).
Proof.
  induction fuel as [|fuel IH]; intros h l Hf Hn Hp; [lia|].
  simpl. eapply runs_bind; [now apply runs_update|]. intros l1.
  destruct (Pure.all_idle h) eqn:E.
  - destruct (update_all_idle h E) as [-> ->]. apply runs_ret.
  - rewrite <- wait_ready_update. apply IH.
    + exact Hf.
    + now apply nondegenerate_update.
    + rewrite pending_update. pose proof (pending_all_idle h E). lia.
Qed.

(** ** What the hand's functions keep and change *)

Lemma drain_min_pos (j : Joint.t) : Joint.min_pos (Joint.drain j) = Joint.min_pos j.
Proof. reflexivity. Qed.

Lemma drain_max_pos (j : Joint.t) : Joint.max_pos (Joint.drain j) = Joint.max_pos j.
Proof. reflexivity. Qed.

Lemma set_servo_angle_length (a : Q) (j : Joint.t) :
  List.length (Joint.intermediate_positions (Joint.set_servo_angle a j))
  = (List.length (Joint.intermediate_positions j) + 50)%nat.
Proof. now rewrite set_servo_angle_queue, length_app, steps_length. Qed.

Lemma drain_length (j : Joint.t) :
  List.length (Joint.intermediate_positions (Joint.drain j)) = 0%nat.
Proof. reflexivity. Qed.

Lemma joint_set_fingers (r : JointRef) (l : list JointRef) (h : HandState.t) :
  HandState.joint r (HandState.set_fingers l h) = HandState.joint r h.
Proof. destruct r; reflexivity. Qed.

Lemma fingers_on_joint (r : JointRef) (f : Joint.t -> Joint.t) (h : HandState.t) :
  HandState.fingers (Pure.on_joint r f h) = HandState.fingers h.
Proof. reflexivity. Qed.

Lemma fingers_not_thumb_on_joint (r : JointRef) (f : Joint.t -> Joint.t)
    (h : HandState.t) :
  HandState.fingers_not_thumb (Pure.on_joint r f h) = HandState.fingers_not_thumb h.
Proof. reflexivity. Qed.

Lemma fingers_not_thumb_on_fingers (f : Joint.t -> Joint.t) (h : HandState.t) :
  HandState.fingers_not_thumb (Pure.on_fingers f h) = HandState.fingers_not_thumb h.
Proof. reflexivity. Qed.

Lemma number_finger_eq (n k : Z) (r : JointRef) (h : HandState.t) :
  Pure.number_finger n k r h
  = Pure.on_joint r
      (Joint.set_servo_angle
         (if (k <=? n)%Z then Joint.min_pos (HandState.joint r h)
          else Joint.max_pos (HandState.joint r h)))
      h.
Proof. unfold Pure.number_finger. destruct (k <=? n)%Z; reflexivity. Qed.

Lemma bit_finger_eq (n i : Z) (r : JointRef) (h : HandState.t) :
  Pure.bit_finger n i r h
  = Pure.on_joint r
      (Joint.set_servo_angle
         (if negb (Z.land n (2 ^ i) =? 0)%Z then Joint.min_pos (HandState.joint r h)
          else Joint.max_pos (HandState.joint r h)))
      h.
Proof.
  unfold Pure.bit_finger.
  destruct (negb (Z.land n (2 ^ i) =? 0)%Z); reflexivity.
Qed.

Create Rewrite HintDb hand.

#[local] Hint Rewrite joint_on_joint joint_on_fingers joint_set_fingers
  fingers_on_joint fingers_on_fingers
  fingers_not_thumb_on_joint fingers_not_thumb_on_fingers
  set_servo_angle_min_pos set_servo_angle_max_pos
  tick_min_pos tick_max_pos drain_min_pos drain_max_pos
  set_servo_angle_length drain_length : hand.

Ltac unfold_pure :=
  unfold Pure.make_fist, Pure.make_metal, Pure.make_palm, Pure.close_four,
    Pure.close_thumb, Pure.clear_thumb, Pure.wait_ready, Pure.update,
    Pure.number_finger, Pure.bit_finger,
    Pure.open_finger, Pure.close_finger, Pure.set_servo_angle,
    five_fingers, four_fingers in *;
  cbn [fold_left] in *.

(** Bounds and queue lengths do not depend on the angles asked for. *)
Ltac forget_angles :=
  repeat match goal with
         | |- context [Joint.set_servo_angle ?a] =>
             tryif is_var a then fail
             else (let x := fresh "angle" in generalize a; intros x)
         end.

Ltac hand_simpl :=
  unfold_pure; rewrite ?number_finger_eq, ?bit_finger_eq;
  forget_angles;
  repeat (autorewrite with hand; cbn [JointRef_eqb]).

Ltac each_finger r H :=
  simpl in H;
  destruct H as [<-|[<-|[<-|[<-|[<-|[]]]]]].

Lemma length_le_pending (r : JointRef) (h : HandState.t) :
  In r five_fingers ->
  (List.length (Joint.intermediate_positions (HandState.joint r h)) <= pending h)%nat.
Proof. intros Hr. now apply (pending_le h (pending h)). Qed.

Lemma runs_open_finger (r : JointRef) (h : HandState.t) (l : list Event) :
  runs_to (Hand.open_finger r) (mkWorld h l) tt (Pure.open_finger r h).
Proof.
  unfold Hand.open_finger.
  eapply runs_bind; [apply runs_gets|]. intros l1. apply runs_set_servo_angle.
Qed.

Lemma runs_close_finger (r : JointRef) (h : HandState.t) (l : list Event) :
  runs_to (Hand.close_finger r) (mkWorld h l) tt (Pure.close_finger r h).
Proof.
  unfold Hand.close_finger.
  eapply runs_bind; [apply runs_gets|]. intros l1. apply runs_set_servo_angle.
Qed.

Lemma runs_clear_thumb (fuel : nat) (h : HandState.t) (l : list Event) :
  (List.length (Joint.intermediate_positions (HandState.thumb h)) + 50 < fuel)%nat ->
  runs_to (Hand.clear_thumb fuel) (mkWorld h l) tt (Pure.clear_thumb h).
Proof.
  intros Hf. unfold Hand.clear_thumb.
  eapply runs_bind; [apply runs_set_servo_angle|]. intros l1.
  apply runs_wait_joint. hand_simpl. exact Hf.
Qed.

Lemma runs_close_thumb (fuel : nat) (h : HandState.t) (l : list Event) :
  HandState.fingers h = five_fingers ->
  nondegenerate h ->
  (pending h < fuel)%nat ->
  runs_to (Hand.close_thumb fuel) (mkWorld h l) tt (Pure.close_thumb h).
Proof.
  intros Hf Hn Hp. unfold Hand.close_thumb.
  eapply runs_bind; [now apply runs_wait_ready|]. intros l1.
  apply runs_set_servo_angle.
Qed.

(** ** The gestures *)

Lemma nondegenerate_ext (h h' : HandState.t) :
  (forall r, Joint.min_pos (HandState.joint r h') = Joint.min_pos (HandState.joint r h)
             /\ Joint.max_pos (HandState.joint r h') = Joint.max_pos (HandState.joint r h)) ->
  nondegenerate h -> nondegenerate h'.
Proof. intros E Hn r. destruct (E r) as [-> ->]. apply Hn. Qed.

Ltac same_bounds :=
  let r := fresh "r" in
  unfold_pure; rewrite ?number_finger_eq, ?bit_finger_eq; forget_angles;
  intros r; destruct r; hand_simpl; split; reflexivity.

Ltac pending_bound h :=
  let r := fresh "r" in
  let Hr := fresh "Hr" in
  match goal with
  | |- (pending ?h' < _)%nat =>
      let P := fresh "P" in
      assert (P : (pending h' <= pending h + 50)%nat);
      [ unfold_pure; rewrite ?number_finger_eq, ?bit_finger_eq; forget_angles;
        apply pending_le; intros r Hr;
        pose proof (length_le_pending r h Hr);
        each_finger r Hr; hand_simpl; lia
      | lia ]
  end.


Lemma runs_make_palm (h : HandState.t) (l : list Event) :
  HandState.fingers h = five_fingers ->
  runs_to Hand.make_palm (mkWorld h l) tt (Pure.make_palm h).
Proof.
  intros Hf. unfold Hand.make_palm.
  eapply runs_bind; [apply runs_gets|]. intros l1. rewrite Hf.
  unfold five_fingers. cbn [for_each].
  eapply runs_bind; [apply runs_open_finger|]. intros l2.
  eapply runs_bind; [apply runs_open_finger|]. intros l3.
  eapply runs_bind; [apply runs_open_finger|]. intros l4.
  eapply runs_bind; [apply runs_open_finger|]. intros l5.
  eapply runs_bind; [apply runs_open_finger|]. intros l6.
  apply runs_ret.
Qed.


Lemma runs_number_finger (n i : Z) (r : JointRef) (h : HandState.t) (l : list Event) :
  Hand.list_index r (HandState.fingers h) = Some i ->
  runs_to
    (i <- Hand.fingers_index r ;;
     if (i <=? n)%Z then Hand.open_finger r else Hand.close_finger r)
    (mkWorld h l) tt (Pure.number_finger n i r h).
Proof.
  intros Hi. unfold Hand.fingers_index.
  eapply runs_bind.
  { eapply runs_bind; [apply runs_gets|]. intros l1. rewrite Hi. apply runs_ret. }
  intros l1. unfold Pure.number_finger.
  destruct (i <=? n)%Z; [apply runs_open_finger | apply runs_close_finger].
Qed.

Lemma runs_make_number (fuel : nat) (n : Z) (h : HandState.t) (l : list Event) :
  lists_in_order h ->
  nondegenerate h ->
  (pending h + 50 < fuel)%nat ->
  runs_to (Hand.make_number fuel n) (mkWorld h l) tt (Pure.make_number n h).
Proof.
  intros [Hf Hfnt] Hn Hp. unfold Hand.make_number, Pure.make_number.
  eapply runs_bind.
  { apply runs_clear_thumb.
    pose proof (length_le_pending Thumb h ltac:(simpl; tauto)) as Ht.
    simpl in Ht. lia. }
  intros l1.
  eapply runs_bind; [apply runs_gets|]. intros l2.
  replace (HandState.fingers_not_thumb (Pure.clear_thumb h)) with four_fingers
    by (symmetry; exact Hfnt).
  eapply runs_bind.
  { unfold four_fingers. cbn [for_each].
    eapply runs_bind;
      [apply (runs_number_finger n 1 Index);
       rewrite ?number_finger_eq; hand_simpl; rewrite Hf; reflexivity|].
    intros l3.
    eapply runs_bind;
      [apply (runs_number_finger n 2 Middle);
       rewrite ?number_finger_eq; hand_simpl; rewrite Hf; reflexivity|].
    intros l4.
    eapply runs_bind;
      [apply (runs_number_finger n 3 Ring);
       rewrite ?number_finger_eq; hand_simpl; rewrite Hf; reflexivity|].
    intros l5.
    eapply runs_bind;
      [apply (runs_number_finger n 4 Pinkie);
       rewrite ?number_finger_eq; hand_simpl; rewrite Hf; reflexivity|].
    intros l6. apply runs_ret. }
  intros l3.
  destruct (n >=? 5)%Z; [apply runs_open_finger|].
  rewrite !number_finger_eq.
  apply runs_close_thumb.
  - hand_simpl. exact Hf.
  - revert Hn. apply nondegenerate_ext. same_bounds.
  - pending_bound h.
Qed.

Lemma runs_bit_finger (n i : Z) (r : JointRef) (h : HandState.t) (l : list Event) :
  nth_error (HandState.fingers h) (Z.to_nat i) = Some r ->
  runs_to
    (if negb (Z.land n (2 ^ i) =? 0)%Z then
       f <- Hand.fingers_item i ;;
       Hand.open_finger f ;;
       emit (print (Literal "1"))
     else
       f <- Hand.fingers_item i ;;
       Hand.close_finger f ;;
       emit (print (Literal "0")))
    (mkWorld h l) tt (Pure.bit_finger n i r h).
Proof.
  intros Hi. unfold Pure.bit_finger, Hand.fingers_item.
  destruct (negb (Z.land n (2 ^ i) =? 0)%Z).
  - eapply runs_bind.
    { eapply runs_bind; [apply runs_gets|]. intros l1. rewrite Hi. apply runs_ret. }
    intros l1. eapply runs_bind; [apply runs_open_finger|]. intros l2.
    apply runs_emit.
  - eapply runs_bind.
    { eapply runs_bind; [apply runs_gets|]. intros l1. rewrite Hi. apply runs_ret. }
    intros l1. eapply runs_bind; [apply runs_close_finger|]. intros l2.
    apply runs_emit.
Qed.

Lemma runs_fingers_reverse (h : HandState.t) (l : list Event) :
  runs_to Hand.fingers_reverse (mkWorld h l) tt
    (HandState.set_fingers (rev (HandState.fingers h)) h).
Proof. exists l. reflexivity. Qed.

Lemma runs_display_binary (fuel : nat) (n : Z) (h : HandState.t) (l : list Event) :
  lists_in_order h ->
  nondegenerate h ->
  (pending h + 50 < fuel)%nat ->
  runs_to (Hand.display_binary fuel n) (mkWorld h l) tt (Pure.display_binary n h).
Proof.
  intros [Hf Hfnt] Hn Hp. unfold Hand.display_binary, Pure.display_binary.
  destruct ((n >=? 0) && (n <=? 31))%Z; [|apply runs_ret].
  eapply runs_bind; [now apply runs_make_palm|]. intros l1.
  eapply runs_bind.
  { apply runs_wait_ready.
    - exact Hf.
    - revert Hn. apply nondegenerate_ext. same_bounds.
    - pending_bound h. }
  intros l2.
  eapply runs_bind; [apply runs_fingers_reverse|].
  intros l3.
  replace (HandState.fingers (Pure.wait_ready (Pure.make_palm h)))
    with five_fingers by (symmetry; exact Hf).
  change (rev (range 5)) with [4; 3; 2; 1; 0]%Z.
  cbn [for_each].
  eapply runs_bind.
  { eapply runs_bind; [apply runs_bit_finger; reflexivity|]. intros l4.
    eapply runs_bind; [apply runs_bit_finger; unfold Pure.bit_finger;
      destruct (negb (Z.land n (2 ^ 4) =? 0)%Z); reflexivity|]. intros l5.
    eapply runs_bind; [apply runs_bit_finger; unfold Pure.bit_finger;
      destruct (negb (Z.land n (2 ^ 4) =? 0)%Z),
               (negb (Z.land n (2 ^ 3) =? 0)%Z); reflexivity|]. intros l6.
    eapply runs_bind; [apply runs_bit_finger; unfold Pure.bit_finger;
      destruct (negb (Z.land n (2 ^ 4) =? 0)%Z),
               (negb (Z.land n (2 ^ 3) =? 0)%Z),
               (negb (Z.land n (2 ^ 2) =? 0)%Z); reflexivity|]. intros l7.
    eapply runs_bind; [apply runs_bit_finger; unfold Pure.bit_finger;
      destruct (negb (Z.land n (2 ^ 4) =? 0)%Z),
               (negb (Z.land n (2 ^ 3) =? 0)%Z),
               (negb (Z.land n (2 ^ 2) =? 0)%Z),
               (negb (Z.land n (2 ^ 1) =? 0)%Z); reflexivity|]. intros l8.
    apply runs_ret. }
  intros l4.
  match goal with
  | |- runs_to _ _ _ (HandState.set_fingers _ ?x) =>
      replace (HandState.set_fingers five_fingers x)
        with (HandState.set_fingers (rev (HandState.fingers x)) x);
      [apply runs_fingers_reverse|]
  end.
  f_equal. unfold Pure.bit_finger.
  destruct (negb (Z.land n (2 ^ 4) =? 0)%Z),
           (negb (Z.land n (2 ^ 3) =? 0)%Z),
           (negb (Z.land n (2 ^ 2) =? 0)%Z),
           (negb (Z.land n (2 ^ 1) =? 0)%Z),
           (negb (Z.land n (2 ^ 0) =? 0)%Z); reflexivity.
Qed.

(** * The claims *)

(** ** Joint *)

(** C2.  For every joint and every target angle, the numbers being
    floats, [set_servo_angle] appends exactly 50 values to the queue it
    finds.  The value of step [k] is [(1 - e) * start + e * target], each
    operation rounded, with [start] the position at call time, [target]
    the angle brought back to [min_pos] if below it and then to [max_pos]
    if above it, and [e] the easing curve at the float [k / 49].  The
    curve is 0 at 0 and 1 at 1, does not decrease on [[0, 1]] and is the
    cubic ease-in-out curve, [4 t^3] below one half and [1 - 4 (1 - t)^3]
    from there on, to within [2^-50].  The first value queued is the
    position at call time and the last one is the target, both exactly. *)
Theorem C2_set_servo_angle_appends_eased_steps (j : Joint.t) (a : Q) :
  Binary64.representable (Joint.position j) ->
  Binary64.representable (Joint.min_pos j) ->
  Binary64.representable (Joint.max_pos j) ->
  Binary64.representable a ->
  let start := Joint.position j in
  let target :=
    let a := if Qlt_bool a (Joint.min_pos j) then Joint.min_pos j else a in
    if Qlt_bool (Joint.max_pos j) a then Joint.max_pos j else a in
  let queue := Joint.intermediate_positions j in
  let queue' := Joint.intermediate_positions (Binary64.set_servo_angle a j) in
  queue'
  = queue
    ++ map (fun step =>
              let e := Binary64.cubic_ease_in_out
                         (Binary64.div (inject_Z step) 49) in
              Binary64.add (Binary64.mul (Binary64.sub 1 e) start)
                (Binary64.mul e target))
         (range 50)
  /\ List.length queue' = (List.length queue + 50)%nat
  /\ Binary64.cubic_ease_in_out 0 == 0
  /\ Binary64.cubic_ease_in_out 1 == 1
  /\ (forall s t, 0 <= s -> s <= t -> t <= 1 ->
        Binary64.cubic_ease_in_out s <= Binary64.cubic_ease_in_out t)
  /\ (forall t, 0 <= t -> t <= 1 ->
        let cubic := if Qlt_bool t (1#2) then 4 * t * t * t
                     else 1 - 4 * (1 - t) * (1 - t) * (1 - t) in
        cubic - (1 # 1125899906842624) <= Binary64.cubic_ease_in_out t
        /\ Binary64.cubic_ease_in_out t <= cubic + (1 # 1125899906842624))
  /\ nth (List.length queue) queue' target == start
  /\ last queue' start == target.
Proof.
  intros Hp Hmin Hmax Ha. cbv zeta.
  assert (Hq : Joint.intermediate_positions (Binary64.set_servo_angle a j)
               = Joint.intermediate_positions j
                 ++ map (Binary64.eased_position (Joint.position j) (Joint.clamp j a))
                      (range Joint.num_steps))
    by (now rewrite set_servo_angle64_eq).
  assert (Ht : Binary64.representable (Joint.clamp j a)).
  { unfold Joint.clamp.
    destruct (Qlt_bool a (Joint.min_pos j));
      [destruct (Qlt_bool (Joint.max_pos j) (Joint.min_pos j))
      |destruct (Qlt_bool (Joint.max_pos j) a)]; assumption. }
  split.
  { rewrite Hq. f_equal. }
  split.
  { rewrite Hq, length_app, length_map. reflexivity. }
  split; [vm_compute; reflexivity|].
  split; [vm_compute; reflexivity|].
  split; [exact ease64_mono|].
  split; [exact ease64_is_cubic|].
  split.
  - rewrite Hq, app_nth2, Nat.sub_diag by lia.
    change (range Joint.num_steps) with (0%Z :: map Z.of_nat (seq 1 49)).
    cbn [map nth]. now apply eased64_first.
  - rewrite Hq, last_app_r by discriminate.
    rewrite last_map_range. now apply eased64_last.
Qed.

Lemma C2_witness :
  Binary64.cubic_ease_in_out (1#4) <= Binary64.cubic_ease_in_out (3#4)
  /\ last (Joint.intermediate_positions (Binary64.set_servo_angle 200 fresh_thumb)) 0
     == 150.
Proof.
  assert (H0 : Binary64.representable (Joint.position fresh_thumb))
    by (vm_compute; reflexivity).
  assert (H1 : Binary64.representable (Joint.min_pos fresh_thumb))
    by (vm_compute; reflexivity).
  assert (H2 : Binary64.representable (Joint.max_pos fresh_thumb))
    by (vm_compute; reflexivity).
  assert (H3 : Binary64.representable 200) by (vm_compute; reflexivity).
  destruct (C2_set_servo_angle_appends_eased_steps fresh_thumb 200 H0 H1 H2 H3)
    as (_ & _ & _ & _ & Hmono & _ & _ & Hlast).
  split.
  - apply Hmono; discriminate.
  - exact Hlast.
Defined.

(** C6 fails as worded: rounding takes a queued value past the bound.
    The thumb standing on its [max_pos] of 150 and sent to 200 queues, at
    step 3, the float next above 150. *)
Lemma C6_counterexample_passes_max_pos :
  Joint.position thumb_closed == Joint.max_pos thumb_closed
  /\ Joint.max_pos thumb_closed < 200
  /\ nth 3 (Joint.intermediate_positions (Binary64.set_servo_angle 200 thumb_closed)) 0
     == 150 + (1 # 35184372088832)
  /\ Joint.max_pos thumb_closed
     < nth 3 (Joint.intermediate_positions
                (Binary64.set_servo_angle 200 thumb_closed)) 0.
Proof. repeat split; vm_compute; reflexivity. Qed.



(** Once the position and every queued value lie within the calibration
    range, no sequence of calls takes the position out of it. *)
Lemma run_keeps_in_range (cs : list Joint.call) (j : Joint.t) :
  Joint.min_pos j <= Joint.max_pos j ->
  Joint.in_range j (Joint.position j) ->
  Forall (Joint.in_range j) (Joint.intermediate_positions j) ->
  Joint.in_range j (Joint.position (Joint.run cs j)).
Proof.
  unfold Joint.run.
  assert (G : forall j' : Joint.t,
             Joint.min_pos j' = Joint.min_pos j ->
             Joint.max_pos j' = Joint.max_pos j ->
             Joint.in_range j (Joint.position j') ->
             Forall (Joint.in_range j) (Joint.intermediate_positions j') ->
             Joint.min_pos j <= Joint.max_pos j ->
             Joint.in_range j
               (Joint.position (fold_left (fun j c => Joint.do_call c j) cs j'))).
  { induction cs as [|c cs IH]; intros j' Hlo Hhi Hp Hq Hc; [exact Hp|].
    destruct c as [a|]; cbn [fold_left Joint.do_call].
    - apply IH; try assumption;
        rewrite ?set_servo_angle_min_pos, ?set_servo_angle_max_pos,
          ?set_servo_angle_position; try assumption.
      rewrite set_servo_angle_queue. apply Forall_app. split; [exact Hq|].
      apply Forall_forall. intros v Hv. apply steps_between in Hv.
      assert (Hcl : Joint.in_range j (Joint.clamp j' a)).
      { unfold Joint.in_range. rewrite <- Hlo, <- Hhi.
        apply clamp_in_range. now rewrite Hlo, Hhi. }
      destruct Hv as [Hv1 Hv2]. destruct Hp as [Hp1 Hp2].
      destruct Hcl as [Hc1 Hc2]. split.
      + apply Qle_trans with (Qmin (Joint.position j') (Joint.clamp j' a));
          [now apply Q.min_glb | exact Hv1].
      + apply Qle_trans with (Qmax (Joint.position j') (Joint.clamp j' a));
          [exact Hv2 | now apply Q.max_lub].
    - assert (Ht : Joint.in_range j (Joint.position (Joint.tick j'))
                   /\ Forall (Joint.in_range j)
                        (Joint.intermediate_positions (Joint.tick j'))).
      { unfold Joint.tick, Joint.update.
        destruct j' as [c n lo hi p q]. simpl in *.
        destruct q as [|x q]; simpl; [now split|].
        inversion Hq; subst. now split. }
      destruct Ht as [Ht1 Ht2].
      apply IH; try assumption; rewrite ?tick_min_pos, ?tick_max_pos;
        assumption. }
  intros Hc Hp Hq. now apply G.
Qed.

(** C3.  The thumb as [Hand.__init__] builds it is given its first target
    (70, the angle of [clear_thumb]) and ticked once: the step applied is
    the position 0 that [Joint.__init__] sets, below the thumb's
    [min_pos] of 10. *)
Theorem C3_first_step_of_fresh_thumb_is_below_min_pos :
  let j := Joint.run [Joint.call_set_servo_angle 70; Joint.call_update]
             fresh_thumb in
  Joint.position j == 0
  /\ Joint.min_pos j == 10
  /\ ~ Joint.in_range j (Joint.position j).
Proof.
  cbv zeta. split; [reflexivity|]. split; [reflexivity|].
  intros [H _]. vm_compute in H. apply H. reflexivity.
Qed.

(** C8 fails as worded: thirteen ticks into its first closing move the
    middle finger reports flexion 5, where rounding gives 6. *)
Lemma C8_counterexample_truncates :
  Joint.get_flexion middle_closing = Some 5%Z
  /\ Joint.flexion_percent_spec middle_closing = 6%Z.
Proof. split; reflexivity. Qed.

(** C8, amended.  For a joint with [min_pos < max_pos], [get_flexion]
    returns the float [(position - min_pos) / (max_pos - min_pos) * 100]
    truncated towards zero; that is 0 at [min_pos], 100 at [max_pos],
    non-decreasing in the position, and within [0, 100] whenever the
    position is within [[min_pos, max_pos]].  The float being the result
    of three rounded operations, the value can be one less than the ratio
    as a real number would give: see the witness. *)
Theorem C8_get_flexion_truncates (j : Joint.t) :
  Joint.min_pos j < Joint.max_pos j ->
  Binary64.get_flexion j
  = Some (py_int
            (Binary64.mul
               (Binary64.div
                  (Binary64.sub (Joint.position j) (Joint.min_pos j))
                  (Binary64.sub (Joint.max_pos j) (Joint.min_pos j)))
               100))
  /\ (Joint.position j == Joint.min_pos j -> Binary64.get_flexion j = Some 0%Z)
  /\ (Joint.position j == Joint.max_pos j -> Binary64.get_flexion j = Some 100%Z)
  /\ (forall p q, p <= q ->
        exists a b,
          Binary64.get_flexion (Joint.with_position p j) = Some a
          /\ Binary64.get_flexion (Joint.with_position q j) = Some b
          /\ (a <= b)%Z)
  /\ (Joint.in_range j (Joint.position j) ->
        exists a, Binary64.get_flexion j = Some a /\ (0 <= a <= 100)%Z).
Proof.
  intros Hc.
  split; [now apply get_flexion64_eq|].
  split.
  { intros E. rewrite (get_flexion64_eq _ Hc). f_equal.
    rewrite (py_int_comp _ 0); [reflexivity | now apply flexion_ratio64_min]. }
  split.
  { intros E. rewrite (get_flexion64_eq _ Hc). f_equal.
    rewrite (py_int_comp _ 100); [reflexivity | now apply flexion_ratio64_max]. }
  split.
  { intros p q Hpq. eexists. eexists.
    split; [apply get_flexion64_eq; exact Hc|].
    split; [apply get_flexion64_eq; exact Hc|].
    apply py_int_mono. now apply flexion_ratio64_mono. }
  now apply get_flexion64_range.
Qed.

Lemma C8_witness :
  Binary64.get_flexion joint_on_29 = Some 28%Z
  /\ Binary64.get_flexion fresh_thumb = Some (-7)%Z
  /\ Binary64.get_flexion (Joint.with_position 10 fresh_thumb) = Some 0%Z
  /\ Binary64.get_flexion (Joint.with_position 150 fresh_thumb) = Some 100%Z.
Proof.
  assert (Hc : Joint.min_pos fresh_thumb < Joint.max_pos fresh_thumb)
    by reflexivity.
  assert (Hc' : Joint.min_pos joint_on_29 < Joint.max_pos joint_on_29)
    by reflexivity.
  split.
  { destruct (C8_get_flexion_truncates joint_on_29 Hc') as (E & _).
    rewrite E. vm_compute. reflexivity. }
  split.
  { destruct (C8_get_flexion_truncates fresh_thumb Hc) as (E & _).
    rewrite E. vm_compute. reflexivity. }
  split.
  - destruct (C8_get_flexion_truncates (Joint.with_position 10 fresh_thumb) Hc)
      as (_ & E & _).
    apply E. reflexivity.
  - destruct (C8_get_flexion_truncates (Joint.with_position 150 fresh_thumb) Hc)
      as (_ & _ & E & _).
    apply E. reflexivity.
Defined.

(** ** Hand *)

(** C1 fails as worded: with the wrist's queue full and the fingers idle,
    [Hand.update] reports ready and leaves the wrist as it was. *)
Lemma C1_counterexample_wrist_is_not_ticked :
  exists w',
    Hand.update wrist_moving = Ok true w'
    /\ HandState.wrist (hand w') = HandState.wrist (hand wrist_moving)
    /\ List.length (Joint.intermediate_positions (HandState.wrist (hand w')))
       = 50%nat.
Proof.
  eexists. split; [vm_compute; reflexivity|].
  split; vm_compute; reflexivity.
Qed.

(** C1, amended.  On a hand whose [fingers] list is as built and whose
    joints have [min_pos < max_pos], [Hand.update] returns; it has called
    [Joint.update] on each of the five fingers (thumb, index, middle,
    ring, pinkie) and on nothing else, the wrist being left as it was;
    and the flag returned is true if and only if the queue of every one of
    the five fingers was empty at the call. *)
Theorem C1_update_ticks_the_five_fingers (w : World) :
  HandState.fingers (hand w) = five_fingers ->
  nondegenerate (hand w) ->
  exists ready w',
    Hand.update w = Ok ready w'
    /\ (forall r, In r five_fingers ->
          HandState.joint r (hand w')
          = snd (fst (Joint.update (HandState.joint r (hand w)))))
    /\ HandState.wrist (hand w') = HandState.wrist (hand w)
    /\ (ready = true
        <-> forall r, In r five_fingers ->
              Joint.intermediate_positions (HandState.joint r (hand w)) = []).
Proof.
  destruct w as [h l]. cbn [hand]. intros Hf Hn.
  destruct (runs_update h l Hf Hn) as [l' E].
  exists (Pure.all_idle h), {| hand := Pure.update h; log := l' |}.
  split; [exact E|]. cbn [hand].
  split.
  { intros r Hr. unfold Pure.update. rewrite joint_on_fingers.
    each_finger r Hr; reflexivity. }
  split; [reflexivity|].
  apply all_idle_spec.
Qed.

Lemma C1_witness :
  exists ready w',
    Hand.update index_closing = Ok ready w'
    /\ ready = false
    /\ List.length (Joint.intermediate_positions
                      (HandState.joint Index (hand index_closing))) = 50%nat
    /\ List.length (Joint.intermediate_positions
                      (HandState.joint Index (hand w'))) = 49%nat
    /\ HandState.wrist (hand w') = HandState.wrist (hand index_closing)
    /\ List.length (Joint.intermediate_positions (HandState.wrist (hand w')))
       = 50%nat.
Proof.
  assert (Hf : HandState.fingers (hand index_closing) = five_fingers)
    by reflexivity.
  assert (Hn : nondegenerate (hand index_closing))
    by (intros r; destruct r; reflexivity).
  destruct (C1_update_ticks_the_five_fingers index_closing Hf Hn)
    as (ready & w' & E & Hj & Hw & Hr).
  exists ready, w'. split; [exact E|].
  split.
  { destruct ready; [|reflexivity]. exfalso.
    assert (Hi : In Index five_fingers) by (cbn; tauto).
    pose proof (proj1 Hr eq_refl Index Hi) as H0.
    apply (f_equal (@List.length Q)) in H0. vm_compute in H0. discriminate. }
  split; [vm_compute; reflexivity|].
  split.
  { rewrite (Hj Index) by (cbn; tauto). vm_compute. reflexivity. }
  split; [exact Hw|].
  rewrite Hw. vm_compute. reflexivity.
Defined.

(** ** Final targets on the hand *)

Lemma JointRef_eqb_refl (r : JointRef) : JointRef_eqb r r = true.
Proof. destruct r; reflexivity. Qed.

Section Calibration.

Variable h : HandState.t.

Lemma same_calibration_refl : same_calibration h h.
Proof. intros r. split; reflexivity. Qed.

Lemma same_calibration_on_joint (r : JointRef) (f : Joint.t -> Joint.t)
    (x : HandState.t) :
  (forall j, Joint.min_pos (f j) = Joint.min_pos j
             /\ Joint.max_pos (f j) = Joint.max_pos j) ->
  same_calibration h x -> same_calibration h (Pure.on_joint r f x).
Proof.
  intros Hf Hx r'. rewrite joint_on_joint.
  destruct (JointRef_eqb r r'); [|apply Hx].
  destruct (Hf (HandState.joint r' x)) as [-> ->]. apply Hx.
Qed.

Lemma same_calibration_set_servo_angle (r : JointRef) (a : Q) (x : HandState.t) :
  same_calibration h x -> same_calibration h (Pure.set_servo_angle r a x).
Proof.
  apply same_calibration_on_joint. intros j.
  now rewrite set_servo_angle_min_pos, set_servo_angle_max_pos.
Qed.

Lemma same_calibration_open_finger (r : JointRef) (x : HandState.t) :
  same_calibration h x -> same_calibration h (Pure.open_finger r x).
Proof. apply same_calibration_set_servo_angle. Qed.

Lemma same_calibration_close_finger (r : JointRef) (x : HandState.t) :
  same_calibration h x -> same_calibration h (Pure.close_finger r x).
Proof. apply same_calibration_set_servo_angle. Qed.

Lemma same_calibration_wait_ready (x : HandState.t) :
  same_calibration h x -> same_calibration h (Pure.wait_ready x).
Proof.
  intros Hx r. unfold Pure.wait_ready. rewrite joint_on_fingers.
  destruct (JointRef_eqb r Wrist); apply Hx.
Qed.

Lemma same_calibration_clear_thumb (x : HandState.t) :
  same_calibration h x -> same_calibration h (Pure.clear_thumb x).
Proof.
  intros Hx. unfold Pure.clear_thumb.
  apply same_calibration_on_joint; [intros j; split; reflexivity|].
  now apply same_calibration_set_servo_angle.
Qed.

Lemma same_calibration_close_thumb (x : HandState.t) :
  same_calibration h x -> same_calibration h (Pure.close_thumb x).
Proof.
  intros Hx. unfold Pure.close_thumb.
  now apply same_calibration_set_servo_angle, same_calibration_wait_ready.
Qed.

Lemma same_calibration_set_fingers (l : list JointRef) (x : HandState.t) :
  same_calibration h x -> same_calibration h (HandState.set_fingers l x).
Proof. intros Hx r. rewrite joint_set_fingers. apply Hx. Qed.

Lemma same_calibration_number_finger (n k : Z) (r : JointRef) (x : HandState.t) :
  same_calibration h x -> same_calibration h (Pure.number_finger n k r x).
Proof.
  intros Hx. unfold Pure.number_finger.
  destruct (k <=? n)%Z; now apply same_calibration_set_servo_angle.
Qed.

Lemma same_calibration_bit_finger (n i : Z) (r : JointRef) (x : HandState.t) :
  same_calibration h x -> same_calibration h (Pure.bit_finger n i r x).
Proof.
  intros Hx. unfold Pure.bit_finger.
  destruct (negb (Z.land n (2 ^ i) =? 0)%Z);
    now apply same_calibration_set_servo_angle.
Qed.

Lemma same_calibration_make_palm (x : HandState.t) :
  same_calibration h x -> same_calibration h (Pure.make_palm x).
Proof.
  intros Hx. unfold Pure.make_palm, five_fingers. cbn [fold_left].
  now repeat apply same_calibration_open_finger.
Qed.

Lemma same_calibration_close_four (x : HandState.t) :
  same_calibration h x -> same_calibration h (Pure.close_four x).
Proof.
  intros Hx. unfold Pure.close_four, four_fingers. cbn [fold_left].
  now repeat apply same_calibration_close_finger.
Qed.

(** Final targets of a finger that has just been opened or closed. *)
Lemma final_target_set_on (r : JointRef) (a : Q) (x : HandState.t) :
  Joint.final_target (HandState.joint r (Pure.set_servo_angle r a x))
  == Joint.clamp (HandState.joint r x) a.
Proof.
  unfold Pure.set_servo_angle.
  rewrite joint_on_joint, JointRef_eqb_refl.
  apply final_target_set_servo_angle.
Qed.

Lemma final_target_open_finger (r : JointRef) (x : HandState.t) :
  nondegenerate h -> same_calibration h x ->
  Joint.final_target (HandState.joint r (Pure.open_finger r x))
  == Joint.min_pos (HandState.joint r h).
Proof.
  intros Hn Hx. unfold Pure.open_finger. rewrite final_target_set_on.
  destruct (Hx r) as [E1 E2]. pose proof (Hn r) as Hr.
  rewrite clamp_inside; rewrite ?E1, ?E2; try reflexivity; lra.
Qed.

Lemma final_target_close_finger (r : JointRef) (x : HandState.t) :
  nondegenerate h -> same_calibration h x ->
  Joint.final_target (HandState.joint r (Pure.close_finger r x))
  == Joint.max_pos (HandState.joint r h).
Proof.
  intros Hn Hx. unfold Pure.close_finger. rewrite final_target_set_on.
  destruct (Hx r) as [E1 E2]. pose proof (Hn r) as Hr.
  rewrite clamp_inside; rewrite ?E1, ?E2; try reflexivity; lra.
Qed.

End Calibration.

Create HintDb calibration.

#[local] Hint Resolve same_calibration_refl same_calibration_set_servo_angle
  same_calibration_open_finger same_calibration_close_finger
  same_calibration_wait_ready same_calibration_clear_thumb
  same_calibration_close_thumb same_calibration_set_fingers
  same_calibration_number_finger same_calibration_bit_finger
  same_calibration_make_palm same_calibration_close_four : calibration.

Lemma joint_set_servo_angle_other (r r' : JointRef) (a : Q) (x : HandState.t) :
  JointRef_eqb r r' = false ->
  HandState.joint r' (Pure.set_servo_angle r a x) = HandState.joint r' x.
Proof.
  intros E. unfold Pure.set_servo_angle. now rewrite joint_on_joint, E.
Qed.

Lemma joint_open_finger_other (r r' : JointRef) (x : HandState.t) :
  JointRef_eqb r r' = false ->
  HandState.joint r' (Pure.open_finger r x) = HandState.joint r' x.
Proof. apply joint_set_servo_angle_other. Qed.

Lemma joint_close_finger_other (r r' : JointRef) (x : HandState.t) :
  JointRef_eqb r r' = false ->
  HandState.joint r' (Pure.close_finger r x) = HandState.joint r' x.
Proof. apply joint_set_servo_angle_other. Qed.

Lemma joint_number_finger_other (n k : Z) (r r' : JointRef) (x : HandState.t) :
  JointRef_eqb r r' = false ->
  HandState.joint r' (Pure.number_finger n k r x) = HandState.joint r' x.
Proof.
  intros E. unfold Pure.number_finger.
  destruct (k <=? n)%Z;
    [now apply joint_open_finger_other | now apply joint_close_finger_other].
Qed.

Lemma joint_wait_ready (r : JointRef) (x : HandState.t) :
  JointRef_eqb r Wrist = false ->
  HandState.joint r (Pure.wait_ready x) = Joint.drain (HandState.joint r x).
Proof.
  intros E. unfold Pure.wait_ready. now rewrite joint_on_fingers, E.
Qed.

(** Strip from [joint r (...)] the calls that leave [r] or its final
    target alone. *)
Ltac peel :=
  repeat first
    [ rewrite joint_set_fingers
    | rewrite joint_open_finger_other by reflexivity
    | rewrite joint_close_finger_other by reflexivity
    | rewrite joint_number_finger_other by reflexivity
    | rewrite joint_set_servo_angle_other by reflexivity
    | rewrite joint_wait_ready by reflexivity ].

(** The final target of a finger whose last call opened or closed it. *)
Ltac final_target_now Hn :=
  lazymatch goal with
  | |- Joint.final_target (HandState.joint _ (Pure.open_finger _ _)) == _ =>
      apply final_target_open_finger; [exact Hn | auto 20 with calibration]
  | |- Joint.final_target (HandState.joint _ (Pure.close_finger _ _)) == _ =>
      apply final_target_close_finger; [exact Hn | auto 20 with calibration]
  end.

Ltac as_joints :=
  change HandState.pinkie with (HandState.joint Pinkie) in *;
  change HandState.ring with (HandState.joint Ring) in *;
  change HandState.middle with (HandState.joint Middle) in *;
  change HandState.index with (HandState.joint Index) in *;
  change HandState.thumb with (HandState.joint Thumb) in *;
  change HandState.wrist with (HandState.joint Wrist) in *.

Lemma display_binary_5 (h : HandState.t) :
  Pure.display_binary 5 h
  = HandState.set_fingers five_fingers
      (Pure.open_finger Pinkie
         (Pure.close_finger Ring
            (Pure.open_finger Middle
               (Pure.close_finger Index
                  (Pure.close_finger Thumb
                     (HandState.set_fingers (rev five_fingers)
                        (Pure.wait_ready (Pure.make_palm h)))))))).
Proof. reflexivity. Qed.

Lemma final_targets_display_binary_5 (h h' : HandState.t) :
  nondegenerate h ->
  h' = Pure.display_binary 5 h ->
  Joint.final_target (HandState.joint Pinkie h') == Joint.min_pos (HandState.joint Pinkie h)
  /\ Joint.final_target (HandState.joint Ring h') == Joint.max_pos (HandState.joint Ring h)
  /\ Joint.final_target (HandState.joint Middle h') == Joint.min_pos (HandState.joint Middle h)
  /\ Joint.final_target (HandState.joint Index h') == Joint.max_pos (HandState.joint Index h)
  /\ Joint.final_target (HandState.joint Thumb h') == Joint.max_pos (HandState.joint Thumb h).
Proof.
  intros Hn E. rewrite display_binary_5 in E. subst h'.
  split; [|split; [|split; [|split]]]; peel; final_target_now Hn.
Qed.

Lemma clamp_ext (j j' : Joint.t) (a : Q) :
  Joint.min_pos j' = Joint.min_pos j ->
  Joint.max_pos j' = Joint.max_pos j ->
  Joint.clamp j' a = Joint.clamp j a.
Proof. intros E1 E2. unfold Joint.clamp. now rewrite E1, E2. Qed.

Lemma final_target_close_thumb (h x h' : HandState.t) :
  same_calibration h x ->
  h' = Pure.close_thumb x ->
  Joint.final_target (HandState.joint Thumb h') == Joint.clamp (HandState.joint Thumb h) 120
  /\ List.length (Joint.intermediate_positions (HandState.joint Thumb h')) = 50%nat
  /\ forall r, In r four_fingers ->
       HandState.joint r h' = Joint.drain (HandState.joint r x).
Proof.
  intros Hx ->. unfold Pure.close_thumb. split; [|split].
  - rewrite final_target_set_on.
    assert (Hc : same_calibration h (Pure.wait_ready x))
      by auto with calibration.
    destruct (Hc Thumb) as [E1 E2]. now rewrite (clamp_ext _ _ _ E1 E2).
  - unfold Pure.set_servo_angle. rewrite joint_on_joint, JointRef_eqb_refl.
    rewrite set_servo_angle_length, joint_wait_ready by reflexivity.
    reflexivity.
  - intros r Hr. simpl in Hr.
    destruct Hr as [<-|[<-|[<-|[<-|[]]]]]; peel; reflexivity.
Qed.

Lemma calibrated_nondegenerate (h : HandState.t) :
  calibrated h -> nondegenerate h.
Proof.
  intros [_ Hc] r. destruct (Hc r) as [-> ->]. destruct r; reflexivity.
Qed.

Lemma calibrated_thumb_120 (h : HandState.t) :
  calibrated h -> Joint.clamp (HandState.joint Thumb h) 120 = 120.
Proof.
  intros [_ Hc]. destruct (Hc Thumb) as [E1 E2].
  apply clamp_inside; [rewrite E1 | rewrite E2]; discriminate.
Qed.



Lemma fresh_world_calibrated : calibrated (hand fresh_world).
Proof. split; [split; reflexivity|]. intros r. split; reflexivity. Qed.


Lemma same_calibration_display_binary (n : Z) (h : HandState.t) :
  same_calibration h (Pure.display_binary n h).
Proof.
  unfold Pure.display_binary.
  destruct ((n >=? 0) && (n <=? 31))%Z; cbv zeta; auto 20 with calibration.
Qed.

(** C5 fails as worded: on a hand just built [display_binary(5)] leaves
    the thumb, whose target was its position 0, with 50 steps queued
    towards 150, its [max_pos]. *)
Lemma C5_counterexample_thumb_is_closed :
  exists w',
    Hand.display_binary 101 5 fresh_world = Ok tt w'
    /\ Joint.final_target (HandState.thumb (hand fresh_world)) == 0
    /\ Joint.final_target (HandState.thumb (hand w')) == 150
    /\ List.length (Joint.intermediate_positions (HandState.thumb (hand w')))
       = 50%nat.
Proof.
  eexists. split; [vm_compute; reflexivity|].
  split; [reflexivity|]. split; vm_compute; reflexivity.
Qed.

(** C5, amended.  On a hand whose lists are as built and whose joints have
    [min_pos < max_pos], [display_binary(5)] returns (given fuel for its
    waiting loop) with final targets: pinkie open ([min_pos]), ring closed
    ([max_pos]), middle open, index closed, and the thumb, which shows
    bit 4, closed ([max_pos]). *)
Theorem C5_display_binary_5_final_targets (fuel : nat) (w : World) :
  lists_in_order (hand w) ->
  nondegenerate (hand w) ->
  (pending (hand w) + 50 < fuel)%nat ->
  exists w',
    Hand.display_binary fuel 5 w = Ok tt w'
    /\ Joint.final_target (HandState.pinkie (hand w'))
       == Joint.min_pos (HandState.pinkie (hand w'))
    /\ Joint.final_target (HandState.ring (hand w'))
       == Joint.max_pos (HandState.ring (hand w'))
    /\ Joint.final_target (HandState.middle (hand w'))
       == Joint.min_pos (HandState.middle (hand w'))
    /\ Joint.final_target (HandState.index (hand w'))
       == Joint.max_pos (HandState.index (hand w'))
    /\ Joint.final_target (HandState.thumb (hand w'))
       == Joint.max_pos (HandState.thumb (hand w')).
Proof.
  destruct w as [h l]. cbn [hand]. intros Hl Hn Hp.
  destruct (runs_display_binary fuel 5 h l Hl Hn Hp) as [l' E].
  eexists. split; [exact E|]. cbn [hand].
  pose proof (same_calibration_display_binary 5 h) as Hs.
  destruct (final_targets_display_binary_5 h _ Hn eq_refl)
    as (Hp' & Hr & Hm & Hi & Ht).
  as_joints.
  destruct (Hs Pinkie) as [-> _]. destruct (Hs Ring) as [_ ->].
  destruct (Hs Middle) as [-> _]. destruct (Hs Index) as [_ ->].
  destruct (Hs Thumb) as [_ ->].
  repeat split; assumption.
Qed.

Lemma C5_witness :
  exists w',
    Hand.display_binary 101 5 fresh_world = Ok tt w'
    /\ Joint.final_target (HandState.pinkie (hand w'))
       == Joint.min_pos (HandState.pinkie (hand w')).
Proof.
  assert (Hp : (pending (hand fresh_world) + 50 < 101)%nat) by (vm_compute; lia).
  destruct (C5_display_binary_5_final_targets 101 fresh_world
              (proj1 fresh_world_calibrated)
              (calibrated_nondegenerate _ fresh_world_calibrated) Hp)
    as (w' & E & H & _).
  exists w'. split; assumption.
Defined.

Lemma final_target_number_finger (h x : HandState.t) (n k : Z) (r : JointRef) :
  nondegenerate h -> same_calibration h x ->
  Joint.final_target (HandState.joint r (Pure.number_finger n k r x))
  == if (k <=? n)%Z then Joint.min_pos (HandState.joint r h)
     else Joint.max_pos (HandState.joint r h).
Proof.
  intros Hn Hx. unfold Pure.number_finger. destruct (k <=? n)%Z.
  - now apply final_target_open_finger.
  - now apply final_target_close_finger.
Qed.

Lemma leb_succ_ltb (k n : Z) : (k + 1 <=? n)%Z = (k <? n)%Z.
Proof.
  destruct (Z.leb_spec (k + 1) n), (Z.ltb_spec k n); try reflexivity; lia.
Qed.

Lemma same_calibration_make_number (n : Z) (h : HandState.t) :
  same_calibration h (Pure.make_number n h).
Proof.
  unfold Pure.make_number. cbv zeta.
  destruct (n >=? 5)%Z; auto 20 with calibration.
Qed.

Lemma final_targets_make_number (n : Z) (h h' : HandState.t) :
  calibrated h ->
  h' = Pure.make_number n h ->
  (forall k r, nth_error four_fingers k = Some r ->
     Joint.final_target (HandState.joint r h')
     == if (Z.of_nat k <? n)%Z then Joint.min_pos (HandState.joint r h)
        else Joint.max_pos (HandState.joint r h))
  /\ Joint.final_target (HandState.joint Thumb h')
     == if (n >=? 5)%Z then Joint.min_pos (HandState.joint Thumb h) else 120.
Proof.
  intros Hc ->. pose proof (calibrated_nondegenerate h Hc) as Hn.
  unfold Pure.make_number. cbv zeta. split.
  - intros k r Hk.
    destruct k as [|[|[|[|k]]]]; simpl in Hk;
      [ | | | | destruct k; discriminate ];
      injection Hk as <-;
      rewrite <- leb_succ_ltb;
      (destruct (n >=? 5)%Z;
       [ peel | unfold Pure.close_thumb; peel; rewrite drain_final_target; peel ]);
      apply final_target_number_finger; auto 20 with calibration.
  - destruct (n >=? 5)%Z.
    + apply final_target_open_finger; auto 20 with calibration.
    + match goal with
      | |- Joint.final_target (HandState.joint Thumb (Pure.close_thumb ?x)) == _ =>
          destruct (final_target_close_thumb h x _
                      ltac:(auto 20 with calibration) eq_refl) as (Ht & _)
      end.
      rewrite Ht. now rewrite calibrated_thumb_120.
Qed.

(** C7.  On a hand with the calibration of [Hand.__init__],
    [make_number(n)] returns (given fuel for its waiting loops); the
    non-thumb finger at place [k] of [index, middle, ring, pinkie]
    (counted from 0) ends open ([min_pos]) when [k < n] and closed
    ([max_pos]) otherwise, and the thumb ends open when [n >= 5] and on
    its closing angle 120 otherwise.  For [n = 3]: index, middle and ring
    open, pinkie closed, thumb closing. *)
Theorem C7_make_number_final_targets (fuel : nat) (w : World) :
  calibrated (hand w) ->
  (pending (hand w) + 50 < fuel)%nat ->
  (forall n : Z,
     exists w',
       Hand.make_number fuel n w = Ok tt w'
       /\ (forall k r, nth_error four_fingers k = Some r ->
             Joint.final_target (HandState.joint r (hand w'))
             == if (Z.of_nat k <? n)%Z
                then Joint.min_pos (HandState.joint r (hand w'))
                else Joint.max_pos (HandState.joint r (hand w')))
       /\ Joint.final_target (HandState.thumb (hand w'))
          == if (n >=? 5)%Z then Joint.min_pos (HandState.thumb (hand w'))
             else 120)
  /\ (exists w',
        Hand.make_number fuel 3 w = Ok tt w'
        /\ Joint.final_target (HandState.index (hand w'))
           == Joint.min_pos (HandState.index (hand w'))
        /\ Joint.final_target (HandState.middle (hand w'))
           == Joint.min_pos (HandState.middle (hand w'))
        /\ Joint.final_target (HandState.ring (hand w'))
           == Joint.min_pos (HandState.ring (hand w'))
        /\ Joint.final_target (HandState.pinkie (hand w'))
           == Joint.max_pos (HandState.pinkie (hand w'))
        /\ Joint.final_target (HandState.thumb (hand w')) == 120).
Proof.
  destruct w as [h l]. cbn [hand]. intros Hc Hp.
  pose proof (calibrated_nondegenerate h Hc) as Hn.
  assert (G : forall n : Z,
             exists w',
               Hand.make_number fuel n (mkWorld h l) = Ok tt w'
               /\ (forall k r, nth_error four_fingers k = Some r ->
                     Joint.final_target (HandState.joint r (hand w'))
                     == if (Z.of_nat k <? n)%Z
                        then Joint.min_pos (HandState.joint r (hand w'))
                        else Joint.max_pos (HandState.joint r (hand w')))
               /\ Joint.final_target (HandState.thumb (hand w'))
                  == if (n >=? 5)%Z then Joint.min_pos (HandState.thumb (hand w'))
                     else 120).
  { intros n.
    destruct (runs_make_number fuel n h l (proj1 Hc) Hn Hp) as [l' E].
    eexists. split; [exact E|]. cbn [hand].
    destruct (final_targets_make_number n h _ Hc eq_refl) as [Hf Ht].
    pose proof (same_calibration_make_number n h) as Hs.
    split.
    - intros k r Hk. destruct (Hs r) as [-> ->]. now apply Hf.
    - as_joints. destruct (Hs Thumb) as [-> _]. exact Ht. }
  split; [exact G|].
  destruct (G 3%Z) as (w' & E & Hf & Ht).
  exists w'. split; [exact E|]. as_joints.
  split; [exact (Hf 0%nat Index eq_refl)|].
  split; [exact (Hf 1%nat Middle eq_refl)|].
  split; [exact (Hf 2%nat Ring eq_refl)|].
  split; [exact (Hf 3%nat Pinkie eq_refl)|].
  exact Ht.
Qed.

Lemma C7_witness :
  exists w',
    Hand.make_number 51 3 fresh_world = Ok tt w'
    /\ Joint.final_target (HandState.pinkie (hand w'))
       == Joint.max_pos (HandState.pinkie (hand w'))
    /\ Joint.final_target (HandState.thumb (hand w')) == 120.
Proof.
  assert (Hp : (pending (hand fresh_world) + 50 < 51)%nat) by (vm_compute; lia).
  destruct (C7_make_number_final_targets 51 fresh_world
              fresh_world_calibrated Hp)
    as (_ & w' & E & _ & _ & _ & Hk & Ht).
  exists w'. repeat split; assumption.
Defined.

(** ** The order of commands in [make_fist] *)

Lemma runs_fist_prefix (fuel : nat) (h : HandState.t) (l : list Event) :
  lists_in_order h ->
  (pending h + 50 < fuel)%nat ->
  runs_to
    (Hand.clear_thumb fuel ;;
     fs <- gets HandState.fingers_not_thumb ;;
     for_each fs Hand.close_finger)
    (mkWorld h l) tt (Pure.close_four (Pure.clear_thumb h)).
Proof.
  intros [Hf Hfnt] Hp.
  eapply runs_bind.
  { apply runs_clear_thumb.
    pose proof (length_le_pending Thumb h ltac:(simpl; tauto)) as Ht.
    simpl in Ht. lia. }
  intros l1.
  eapply runs_bind; [apply runs_gets|]. intros l2.
  replace (HandState.fingers_not_thumb (Pure.clear_thumb h)) with four_fingers
    by (symmetry; exact Hfnt).
  unfold four_fingers. cbn [for_each].
  eapply runs_bind; [apply runs_close_finger|]. intros l3.
  eapply runs_bind; [apply runs_close_finger|]. intros l4.
  eapply runs_bind; [apply runs_close_finger|]. intros l5.
  eapply runs_bind; [apply runs_close_finger|]. intros l6.
  apply runs_ret.
Qed.

Lemma make_fist_after_prefix (fuel : nat) (w w1 : World) :
  (Hand.clear_thumb fuel ;;
   fs <- gets HandState.fingers_not_thumb ;;
   for_each fs Hand.close_finger) w = Ok tt w1 ->
  Hand.make_fist fuel w = Hand.close_thumb fuel w1.
Proof.
  unfold Hand.make_fist, bind.
  destruct (Hand.clear_thumb fuel w) as [[] wa| |]; try discriminate.
  unfold gets.
  destruct (for_each (HandState.fingers_not_thumb (hand wa)) Hand.close_finger wa)
    as [[] wb| |]; try discriminate.
  intros E. injection E as <-. reflexivity.
Qed.

Lemma close_thumb_after_wait (fuel : nat) (w1 w2 : World) :
  while_not fuel Hand.update w1 = Ok tt w2 ->
  Hand.close_thumb fuel w1 = set_servo_angle Thumb 120 w2.
Proof. intros E. unfold Hand.close_thumb, bind. now rewrite E. Qed.

(** C4.  On a hand whose lists are as built and whose joints have
    [min_pos < max_pos], [make_fist] runs (given fuel for its waiting
    loops) in three stretches: the thumb is cleared and the four other
    fingers are told to close; the waiting loop of [close_thumb] ticks the
    hand until it reports ready, which leaves the queue of every finger
    empty and each of the four fingers on its [max_pos]; only then is the
    thumb given its closing angle, which is the last thing [make_fist]
    does. *)
Theorem C4_make_fist_thumb_waits_for_fingers (fuel : nat) (w : World) :
  lists_in_order (hand w) ->
  nondegenerate (hand w) ->
  (pending (hand w) + 50 < fuel)%nat ->
  exists w1 w2 w3,
    (Hand.clear_thumb fuel ;;
     fs <- gets HandState.fingers_not_thumb ;;
     for_each fs Hand.close_finger) w = Ok tt w1
    /\ while_not fuel Hand.update w1 = Ok tt w2
    /\ (forall r, In r five_fingers ->
          Joint.intermediate_positions (HandState.joint r (hand w2)) = [])
    /\ (forall r, In r four_fingers ->
          Joint.position (HandState.joint r (hand w2))
          == Joint.max_pos (HandState.joint r (hand w2)))
    /\ set_servo_angle Thumb 120 w2 = Ok tt w3
    /\ Hand.make_fist fuel w = Ok tt w3
    /\ List.length (Joint.intermediate_positions (HandState.thumb (hand w3)))
       = 50%nat.
Proof.
  destruct w as [h l]. cbn [hand]. intros Hl Hn Hp.
  destruct (runs_fist_prefix fuel h l Hl Hp) as [l1 E1].
  set (x := Pure.close_four (Pure.clear_thumb h)) in *.
  assert (Hx : same_calibration h x) by (unfold x; auto with calibration).
  assert (Hw : runs_to (while_not fuel Hand.update) (mkWorld x l1) tt
                 (Pure.wait_ready x)).
  { apply runs_wait_ready.
    - exact (proj1 Hl).
    - revert Hn. apply nondegenerate_ext. exact Hx.
    - unfold x. pending_bound h. }
  destruct Hw as [l2 E2].
  exists (mkWorld x l1), (mkWorld (Pure.wait_ready x) l2),
    (mkWorld (Pure.set_servo_angle Thumb 120 (Pure.wait_ready x)) l2).
  split; [exact E1|]. split; [exact E2|]. cbn [hand].
  split.
  { intros r Hr. each_finger r Hr; rewrite joint_wait_ready by reflexivity;
      reflexivity. }
  split.
  { intros r Hr.
    assert (Hs : same_calibration h (Pure.wait_ready x))
      by auto with calibration.
    destruct (Hs r) as [_ ->].
    simpl in Hr. destruct Hr as [<-|[<-|[<-|[<-|[]]]]];
      rewrite joint_wait_ready by reflexivity;
      rewrite drain_position; unfold x, Pure.close_four, four_fingers;
      cbn [fold_left]; peel;
      apply final_target_close_finger; auto 20 with calibration. }
  split; [reflexivity|].
  split.
  { rewrite (make_fist_after_prefix _ _ _ E1).
    rewrite (close_thumb_after_wait _ _ _ E2). reflexivity. }
  as_joints. unfold Pure.set_servo_angle.
  rewrite joint_on_joint, JointRef_eqb_refl, set_servo_angle_length.
  now rewrite joint_wait_ready by reflexivity.
Qed.

Lemma C4_witness :
  exists w3,
    Hand.make_fist 51 fresh_world = Ok tt w3
    /\ List.length (Joint.intermediate_positions (HandState.thumb (hand w3)))
       = 50%nat.
Proof.
  assert (Hp : (pending (hand fresh_world) + 50 < 51)%nat) by (vm_compute; lia).
  destruct (C4_make_fist_thumb_waits_for_fingers 51 fresh_world
              (proj1 fresh_world_calibrated)
              (calibrated_nondegenerate _ fresh_world_calibrated) Hp)
    as (w1 & w2 & w3 & _ & _ & _ & _ & _ & E & Hlen).
  exists w3. split; assumption.
Defined.

(** ** The arithmetic mode *)

Lemma display_binary_out_of_range (fuel : nat) (n : Z) (w : World) :
  (n < 0)%Z \/ (31 < n)%Z -> Hand.display_binary fuel n w = Ok tt w.
Proof.
  intros H. unfold Hand.display_binary.
  replace ((n >=? 0) && (n <=? 31))%Z with false; [reflexivity|].
  symmetry. apply andb_false_iff.
  destruct H; [left; rewrite Z.geb_leb | right]; apply Z.leb_gt; lia.
Qed.

(** C9.  Whatever [eval] is, as long as it gives 32 for the text [+32]
    that the keys [=], [3], [2] collect: on Enter the arithmetic mode calls
    [display_binary(32)], which does nothing, and goes back to the normal
    mode; the hand is as it was before the keys, so no fist is made.  The
    same holds of [display_binary(n)] for every [n] outside 0..31. *)
Theorem C9_out_of_range_result_leaves_hand_alone
    (eval : string -> exn + Z) (fuel : nat) (w : World) :
  eval "+32"%string = inr 32%Z ->
  (exists w',
     type_keys eval fuel keys_equals_32_enter console_start w
     = Ok console_start w'
     /\ hand w' = hand w)
  /\ (forall n : Z, (n < 0)%Z \/ (31 < n)%Z ->
        Hand.display_binary fuel n w = Ok tt w).
Proof.
  intros He. split; [|intros n Hn; now apply display_binary_out_of_range].
  unfold type_keys, keys_equals_32_enter, console_start.
  cbn [list_ascii_of_string for_fold].
  cbn. unfold bind, arithmetic_mode, CR. cbn.
  unfold bind, ret, call_eval. rewrite He. cbn.
  eexists. split; reflexivity.
Qed.

Lemma C9_witness :
  exists w',
    type_keys eval_sum 51 keys_equals_32_enter console_start fresh_world
    = Ok console_start w'
    /\ hand w' = hand fresh_world.
Proof.
  assert (He : eval_sum "+32"%string = inr 32%Z) by reflexivity.
  destruct (C9_out_of_range_result_leaves_hand_alone eval_sum 51 fresh_world He)
    as [H _].
  exact H.
Defined.

(** * Further properties of the code *)

(** ** Joint: ticking through the queue *)

Lemma run_updates (k : nat) (j : Joint.t) :
  Joint.run (repeat Joint.call_update (S k)) j
  = Joint.run (repeat Joint.call_update k) (Joint.tick j).
Proof. reflexivity. Qed.

Lemma updates_in_order (k : nat) (j : Joint.t) :
  let j' := Joint.run (repeat Joint.call_update k) j in
  Joint.intermediate_positions j' = skipn k (Joint.intermediate_positions j)
  /\ Joint.position j'
     = last (firstn k (Joint.intermediate_positions j)) (Joint.position j)
  /\ Joint.min_pos j' = Joint.min_pos j
  /\ Joint.max_pos j' = Joint.max_pos j.
Proof.
  cbv zeta. revert j. induction k as [|k IH]; intros j.
  - repeat split; reflexivity.
  - rewrite run_updates. destruct (IH (Joint.tick j)) as (Hq & Hp & Hlo & Hhi).
    rewrite Hq, Hp, Hlo, Hhi, tick_min_pos, tick_max_pos.
    unfold Joint.tick, Joint.update.
    destruct j as [c n lo hi p q]. cbn [Joint.intermediate_positions Joint.position].
    destruct q as [|a q]; cbn.
    + rewrite skipn_nil, firstn_nil. repeat split; reflexivity.
    + repeat split; try reflexivity. symmetry. apply last_cons.
Qed.

(** X1.  [update] applies the queue first in, first out: after [k] calls
    the queue has lost its first [k] values, the position is the last of
    them (the old position if there was none), and the calibration is
    untouched. *)
Theorem X1_update_applies_queue_in_order (k : nat) (j : Joint.t) :
  let j' := Joint.run (repeat Joint.call_update k) j in
  Joint.intermediate_positions j' = skipn k (Joint.intermediate_positions j)
  /\ Joint.position j'
     = last (firstn k (Joint.intermediate_positions j)) (Joint.position j)
  /\ Joint.min_pos j' = Joint.min_pos j
  /\ Joint.max_pos j' = Joint.max_pos j.
Proof. exact (updates_in_order k j). Qed.

Lemma firstn_app_all {A} (l1 l2 : list A) :
  firstn (List.length l1 + List.length l2) (l1 ++ l2) = l1 ++ l2.
Proof. rewrite <- length_app. apply firstn_all. Qed.

Lemma last_set_servo_angle (a : Q) (j : Joint.t) :
  last (Joint.intermediate_positions (Joint.set_servo_angle a j))
    (Joint.position (Joint.set_servo_angle a j))
  == Joint.clamp j a.
Proof.
  rewrite set_servo_angle_queue, set_servo_angle_position.
  rewrite last_app_r by (intros H; apply (f_equal (@List.length Q)) in H;
                         rewrite steps_length in H; discriminate).
  rewrite steps_last. apply eased_position_last.
Qed.

(** X2.  A move takes exactly 50 ticks more than what was queued before
    it: after that many calls of [update] the queue is empty and the
    position is the clamped target, and one tick earlier the joint is not
    yet idle. *)
Theorem X2_move_lands_on_clamped_target (a : Q) (j : Joint.t) (n : nat) :
  n = List.length (Joint.intermediate_positions j) ->
  Joint.intermediate_positions
    (Joint.run (repeat Joint.call_update (n + 50)) (Joint.set_servo_angle a j))
  = []
  /\ Joint.position
       (Joint.run (repeat Joint.call_update (n + 50)) (Joint.set_servo_angle a j))
     == Joint.clamp j a
  /\ Joint.idle
       (Joint.run (repeat Joint.call_update (n + 49)) (Joint.set_servo_angle a j))
     = false.
Proof.
  intros Hn.
  destruct (updates_in_order (n + 50) (Joint.set_servo_angle a j))
    as (Hq & Hp & _).
  destruct (updates_in_order (n + 49) (Joint.set_servo_angle a j))
    as (Hq' & _).
  assert (L : List.length (Joint.intermediate_positions (Joint.set_servo_angle a j))
              = (n + 50)%nat)
    by (rewrite Hn; apply set_servo_angle_length).
  split; [|split].
  - rewrite Hq, <- L. apply skipn_all.
  - rewrite Hp, <- L, firstn_all. apply last_set_servo_angle.
  - apply not_true_is_false. intros Hi. apply idle_length in Hi.
    rewrite Hq', length_skipn, L in Hi. lia.
Qed.

Lemma X2_witness :
  Joint.position
    (Joint.run (repeat Joint.call_update 50) (Joint.set_servo_angle 200 fresh_thumb))
  == 150.
Proof.
  destruct (X2_move_lands_on_clamped_target 200 fresh_thumb 0 eq_refl)
    as (_ & H & _).
  exact H.
Defined.

Lemma steps_after_set_servo_angle (a b : Q) (j : Joint.t) :
  Joint.steps (Joint.set_servo_angle a j) b = Joint.steps j b.
Proof.
  unfold Joint.steps. rewrite set_servo_angle_position.
  rewrite (clamp_ext j (Joint.set_servo_angle a j) b);
    [reflexivity | apply set_servo_angle_min_pos | apply set_servo_angle_max_pos].
Qed.

Lemma steps_cons (j : Joint.t) (b : Q) :
  exists rest,
    Joint.steps j b
    = Joint.eased_position (Joint.position j) (Joint.clamp j b) 0 :: rest.
Proof. eexists. reflexivity. Qed.

(** X3.  Moves chain without cancelling, and each path is computed from
    the position at call time: when a second target is set before any
    tick, the joint first runs to the first target, then jumps back to
    where it stood when the calls were made, and only then runs to the
    second target. *)
Theorem X3_chained_move_restarts_from_call_time_position
    (a b : Q) (j : Joint.t) (n : nat) :
  n = List.length (Joint.intermediate_positions j) ->
  let j2 := Joint.set_servo_angle b (Joint.set_servo_angle a j) in
  List.length (Joint.intermediate_positions j2) = (n + 100)%nat
  /\ Joint.position (Joint.run (repeat Joint.call_update (n + 50)) j2)
     == Joint.clamp j a
  /\ Joint.position (Joint.run (repeat Joint.call_update (n + 51)) j2)
     == Joint.position j
  /\ Joint.position (Joint.run (repeat Joint.call_update (n + 100)) j2)
     == Joint.clamp j b.
Proof.
  intros Hn j2.
  assert (Q2 : Joint.intermediate_positions j2
               = (Joint.intermediate_positions j ++ Joint.steps j a)
                 ++ Joint.steps j b).
  { unfold j2. rewrite !set_servo_angle_queue.
    now rewrite steps_after_set_servo_angle. }
  assert (P2 : Joint.position j2 = Joint.position j).
  { unfold j2. now rewrite !set_servo_angle_position. }
  assert (La : List.length (Joint.intermediate_positions j ++ Joint.steps j a)
               = (n + 50)%nat)
    by (rewrite length_app, steps_length; lia).
  assert (Na : Joint.steps j a <> []).
  { intros H. apply (f_equal (@List.length Q)) in H.
    rewrite steps_length in H. discriminate. }
  assert (Nb : Joint.steps j b <> []).
  { intros H. apply (f_equal (@List.length Q)) in H.
    rewrite steps_length in H. discriminate. }
  split; [|split; [|split]].
  - rewrite Q2, length_app, La, steps_length. lia.
  - destruct (updates_in_order (n + 50) j2) as (_ & Hp & _).
    rewrite Hp, Q2, <- La, firstn_app, firstn_all, Nat.sub_diag.
    cbn [firstn]. rewrite app_nil_r, last_app_r by exact Na.
    rewrite steps_last. apply eased_position_last.
  - destruct (updates_in_order (n + 51) j2) as (_ & Hp & _).
    rewrite Hp, Q2, firstn_app, La.
    replace (n + 51 - (n + 50))%nat with 1%nat by lia.
    rewrite firstn_all2 by lia.
    destruct (steps_cons j b) as [rest ->]. cbn [firstn].
    rewrite last_app_r by discriminate. cbn [last].
    apply eased_position_first.
  - destruct (updates_in_order (n + 100) j2) as (_ & Hp & _).
    rewrite Hp, firstn_all2 by (rewrite Q2, length_app, La, steps_length; lia).
    rewrite Q2, last_app_r by exact Nb.
    rewrite steps_last. apply eased_position_last.
Qed.

Lemma X3_witness :
  Joint.position
    (Joint.run (repeat Joint.call_update 51)
       (Joint.set_servo_angle 20 (Joint.set_servo_angle 70 fresh_thumb)))
  == 0.
Proof.
  destruct (X3_chained_move_restarts_from_call_time_position
              70 20 fresh_thumb 0 eq_refl) as (_ & _ & H & _).
  exact H.
Defined.

(** ** Joint: what reaches the servo *)

Lemma pulse_width_range (a : Q) :
  0 <= a -> a <= 180 ->
  (Joint.servo_min <= Joint.pulse_width a <= Joint.servo_max)%Z.
Proof.
  intros H0 H1. unfold Joint.pulse_width, Joint.servo_min, Joint.servo_max.
  change (inject_Z (644 - 114)) with 530.
  assert (L : (Qfloor 0 <= Qfloor (a * 530 / 180))%Z).
  { apply Qfloor_resp_le. apply Qle_shift_div_l; [reflexivity|]. lra. }
  assert (U : (Qfloor (a * 530 / 180) <= Qfloor 530)%Z).
  { apply Qfloor_resp_le. apply Qle_shift_div_r; [reflexivity|]. lra. }
  change (Qfloor 0) with 0%Z in L. change (Qfloor 530) with 530%Z in U.
  lia.
Qed.

Lemma update_effects (j : Joint.t) (a : Q) (rest : list Q) :
  Joint.intermediate_positions j = a :: rest ->
  snd (Joint.update j)
  = [Joint.set_pwm (Joint.servo_channel j) 0 (Joint.pulse_width a);
     Joint.sleep Joint.delay_time].
Proof. intros E. unfold Joint.update. rewrite E. reflexivity. Qed.

Lemma update_effects_idle (j : Joint.t) :
  Joint.intermediate_positions j = [] -> Joint.update j = (true, j, []).
Proof. intros E. unfold Joint.update. now rewrite E. Qed.

Lemma set_servo_angle_channel (a : Q) (j : Joint.t) :
  Joint.servo_channel (Joint.set_servo_angle a j) = Joint.servo_channel j.
Proof. rewrite set_servo_angle_eq. reflexivity. Qed.

Lemma tick_channel (j : Joint.t) :
  Joint.servo_channel (Joint.tick j) = Joint.servo_channel j.
Proof.
  unfold Joint.tick, Joint.update.
  destruct (Joint.intermediate_positions j); reflexivity.
Qed.

(** Whatever interval contains the calibration range, the position and
    the queued values, no sequence of calls leaves it. *)
Lemma run_keeps_interval (A B : Q) (cs : list Joint.call) :
  forall j : Joint.t,
    A <= Joint.min_pos j -> Joint.min_pos j <= Joint.max_pos j ->
    Joint.max_pos j <= B ->
    A <= Joint.position j <= B ->
    Forall (fun v => A <= v <= B) (Joint.intermediate_positions j) ->
    let j' := Joint.run cs j in
    Joint.servo_channel j' = Joint.servo_channel j
    /\ A <= Joint.position j' <= B
    /\ Forall (fun v => A <= v <= B) (Joint.intermediate_positions j').
Proof.
  unfold Joint.run.
  induction cs as [|c cs IH]; intros j HA Hc HB Hp Hq; cbv zeta.
  - split; [reflexivity|]. split; assumption.
  - destruct c as [a|]; cbn [fold_left Joint.do_call].
    + destruct (IH (Joint.set_servo_angle a j)) as (E & Hp' & Hq').
      * now rewrite set_servo_angle_min_pos.
      * now rewrite set_servo_angle_min_pos, set_servo_angle_max_pos.
      * now rewrite set_servo_angle_max_pos.
      * now rewrite set_servo_angle_position.
      * rewrite set_servo_angle_queue. apply Forall_app. split; [exact Hq|].
        apply Forall_forall. intros v Hv. apply steps_between in Hv.
        destruct (clamp_in_range j a Hc) as [C1 C2].
        destruct Hv as [Hv1 Hv2]. destruct Hp as [Hp1 Hp2]. split.
        -- apply Qle_trans with (Qmin (Joint.position j) (Joint.clamp j a));
             [apply Q.min_glb; lra | exact Hv1].
        -- apply Qle_trans with (Qmax (Joint.position j) (Joint.clamp j a));
             [exact Hv2 | apply Q.max_lub; lra].
      * rewrite set_servo_angle_channel in E. split; [exact E|].
        split; assumption.
    + assert (Ht : A <= Joint.position (Joint.tick j) <= B
                   /\ Forall (fun v => A <= v <= B)
                        (Joint.intermediate_positions (Joint.tick j))).
      { unfold Joint.tick, Joint.update.
        destruct j as [ch n lo hi p q]. simpl in *.
        destruct q as [|x q]; simpl; [now split|].
        inversion Hq; subst. now split. }
      destruct Ht as [Ht1 Ht2].
      destruct (IH (Joint.tick j)) as (E & Hp' & Hq'); try assumption.
      * now rewrite tick_min_pos.
      * now rewrite tick_min_pos, tick_max_pos.
      * now rewrite tick_max_pos.
      * rewrite tick_channel in E. split; [exact E|]. split; assumption.
Qed.

(** X4.  A joint built with [0 <= open_pos <= closed_pos <= 180] never
    drives its servo out of the pulse range: whatever calls it has
    received since [Joint.__init__], the next [update] either does nothing
    or sends one pulse, on the joint's own channel, starting at 0 and of a
    width within [[servo_min, servo_max]] = [[114, 644]], followed by one
    sleep. *)
Theorem X4_pulse_width_stays_in_servo_range
    (ch : Z) (nm : string) (open_pos closed_pos : Q) (cs : list Joint.call) :
  0 <= open_pos -> open_pos <= closed_pos -> closed_pos <= 180 ->
  let j := Joint.run cs (Joint.init ch nm open_pos closed_pos) in
  snd (Joint.update j) = []
  \/ exists width,
       snd (Joint.update j)
       = [Joint.set_pwm ch 0 width; Joint.sleep Joint.delay_time]
       /\ (114 <= width <= 644)%Z.
Proof.
  intros H0 Hc H180. cbv zeta.
  destruct (run_keeps_interval 0 180 cs (Joint.init ch nm open_pos closed_pos))
    as (E & _ & Hq); try assumption.
  - split; [apply Qle_refl | discriminate].
  - constructor.
  - cbn [Joint.servo_channel Joint.init] in E.
    remember (Joint.run cs (Joint.init ch nm open_pos closed_pos)) as j eqn:Ej.
    clear Ej.
    destruct (Joint.intermediate_positions j) as [|a rest] eqn:Eq.
    + left. now rewrite update_effects_idle.
    + right. exists (Joint.pulse_width a).
      rewrite (update_effects j a rest Eq), E. split; [reflexivity|].
      inversion Hq as [|? ? [Ha0 Ha1] _]; subst.
      now apply pulse_width_range.
Qed.

Lemma X4_witness :
  snd (Joint.update
         (Joint.run [Joint.call_set_servo_angle 200; Joint.call_update]
            (Joint.init 4 "t" 10 150))) = []
  \/ exists width,
       snd (Joint.update
              (Joint.run [Joint.call_set_servo_angle 200; Joint.call_update]
                 (Joint.init 4 "t" 10 150)))
       = [Joint.set_pwm 4 0 width; Joint.sleep Joint.delay_time]
       /\ (114 <= width <= 644)%Z.
Proof.
  apply (X4_pulse_width_stays_in_servo_range 4 "t" 10 150
           [Joint.call_set_servo_angle 200; Joint.call_update]);
    discriminate.
Defined.

(** X5.  The deprecated [goto_servo_angle] moves at once: for
    [min_pos <= max_pos] the position becomes the clamped angle, which
    lies within [[min_pos, max_pos]]; the queue is left alone; one pulse
    is sent for that angle and the position is printed.  With
    [0 <= min_pos] and [max_pos <= 180] the pulse is within
    [[114, 644]]. *)
Theorem X5_goto_servo_angle_applies_clamped_angle (a : Q) (j : Joint.t) :
  Joint.min_pos j <= Joint.max_pos j ->
  let j' := fst (Joint.goto_servo_angle a j) in
  Joint.position j' = Joint.clamp j a
  /\ Joint.in_range j (Joint.position j')
  /\ Joint.intermediate_positions j' = Joint.intermediate_positions j
  /\ snd (Joint.goto_servo_angle a j)
     = [Joint.goto_set_pwm (Joint.servo_channel j) 0
          (Joint.pulse_width (Joint.clamp j a));
        Joint.goto_print (Joint.name j) (Joint.clamp j a)]
  /\ (0 <= Joint.min_pos j -> Joint.max_pos j <= 180 ->
      (114 <= Joint.pulse_width (Joint.clamp j a) <= 644)%Z).
Proof.
  intros Hc j'. destruct (clamp_in_range j a Hc) as [C1 C2].
  split; [reflexivity|]. split; [split; assumption|].
  split; [reflexivity|]. split; [reflexivity|].
  intros H0 H180. apply pulse_width_range; lra.
Qed.

Lemma X5_witness :
  Joint.position (fst (Joint.goto_servo_angle 200 fresh_thumb)) = 150.
Proof.
  assert (Hc : Joint.min_pos fresh_thumb <= Joint.max_pos fresh_thumb)
    by discriminate.
  destruct (X5_goto_servo_angle_applies_clamped_angle 200 fresh_thumb Hc)
    as (H & _).
  exact H.
Defined.

(** ** Running, with the events *)

Lemma emits_ret {A} (a : A) (h : HandState.t) (l : list Event) :
  emits (ret a) (mkWorld h l) a h [].
Proof. reflexivity. Qed.

Lemma emits_bind {A B} (m : M A) (k : A -> M B) (w : World)
    (a : A) (h1 : HandState.t) (e1 : list Event)
    (b : B) (h2 : HandState.t) (e2 : list Event) :
  emits m w a h1 e1 ->
  (forall l, emits (k a) (mkWorld h1 l) b h2 e2) ->
  emits (bind m k) w b h2 (e2 ++ e1).
Proof.
  unfold emits. intros H1 H2. unfold bind. rewrite H1, H2.
  cbn [log]. now rewrite app_assoc.
Qed.

Lemma emits_gets {A} (f : HandState.t -> A) (h : HandState.t) (l : list Event) :
  emits (gets f) (mkWorld h l) (f h) h [].
Proof. reflexivity. Qed.

Lemma emits_modify (f : HandState.t -> HandState.t) (h : HandState.t)
    (l : list Event) :
  emits (modify f) (mkWorld h l) tt (f h) [].
Proof. reflexivity. Qed.

Lemma emits_emit (e : Event) (h : HandState.t) (l : list Event) :
  emits (emit e) (mkWorld h l) tt h [e].
Proof. reflexivity. Qed.

Lemma emits_emit_all (es : list Event) (h : HandState.t) (l : list Event) :
  emits (emit_all es) (mkWorld h l) tt h (rev es).
Proof.
  revert l. induction es as [|e es IH]; intros l; [reflexivity|].
  cbn [emit_all rev].
  apply (emits_bind (emit e) (fun _ => emit_all es) (mkWorld h l) tt h [e]
           tt h (rev es)).
  - apply emits_emit.
  - intros l'. apply IH.
Qed.

Lemma emits_eq {A} (m : M A) (w : World) (a : A) (h' : HandState.t)
    (es es' : list Event) :
  emits m w a h' es -> es = es' -> emits m w a h' es'.
Proof. intros H <-. exact H. Qed.

Lemma emits_set_servo_angle (r : JointRef) (a : Q) (h : HandState.t)
    (l : list Event) :
  emits (set_servo_angle r a) (mkWorld h l) tt (Pure.set_servo_angle r a h) [].
Proof. reflexivity. Qed.

Lemma emits_bind_eq {A B} (m : M A) (k : A -> M B) (w : World)
    (a : A) (h1 : HandState.t) (e1 : list Event)
    (b : B) (h2 : HandState.t) (e2 es : list Event) :
  emits m w a h1 e1 ->
  (forall l, emits (k a) (mkWorld h1 l) b h2 e2) ->
  es = e2 ++ e1 ->
  emits (bind m k) w b h2 es.
Proof. intros H1 H2 ->. exact (emits_bind m k w a h1 e1 b h2 e2 H1 H2). Qed.

(** [m ;; k]: first [m], then [k], then the events of both. *)
Ltac emits_seq t1 t2 :=
  eapply emits_bind_eq; [ t1 | intros ?; t2 | try reflexivity ].

Lemma emits_open_finger (r : JointRef) (h : HandState.t) (l : list Event) :
  emits (Hand.open_finger r) (mkWorld h l) tt (Pure.open_finger r h) [].
Proof.
  unfold Hand.open_finger.
  eapply emits_bind_eq;
    [apply emits_gets | intros l'; apply emits_set_servo_angle | reflexivity].
Qed.

Lemma emits_close_finger (r : JointRef) (h : HandState.t) (l : list Event) :
  emits (Hand.close_finger r) (mkWorld h l) tt (Pure.close_finger r h) [].
Proof.
  unfold Hand.close_finger.
  eapply emits_bind_eq;
    [apply emits_gets | intros l'; apply emits_set_servo_angle | reflexivity].
Qed.

Lemma emits_sleep (s : Q) (h : HandState.t) (l : list Event) :
  emits (Hand.sleep s) (mkWorld h l) tt h [hardware (Joint.sleep s)].
Proof. reflexivity. Qed.

(** A loop over the fingers whose body emits the same events each turn. *)
Lemma emits_for_each (body : JointRef -> M unit)
    (f : JointRef -> HandState.t -> HandState.t) (es : list Event)
    (fs : list JointRef) :
  (forall r h l, emits (body r) (mkWorld h l) tt (f r h) es) ->
  forall h l,
    emits (for_each fs body) (mkWorld h l) tt (Pure.for_fingers fs f h)
      (List.concat (repeat es (List.length fs))).
Proof.
  intros Hb. induction fs as [|r fs IH]; intros h l; [reflexivity|].
  cbn [for_each List.length repeat List.concat].
  eapply emits_bind_eq; [apply Hb | intros l'; apply IH |].
  clear. induction (List.length fs) as [|n IHn]; cbn [repeat List.concat].
  - now rewrite app_nil_r.
  - rewrite <- app_assoc, <- IHn, app_assoc. reflexivity.
Qed.

Lemma concat_repeat_nil {A} (n : nat) : List.concat (repeat (@nil A) n) = [].
Proof. induction n; [reflexivity | exact IHn]. Qed.

Lemma emits_make_palm (h : HandState.t) (l : list Event) :
  HandState.fingers h = five_fingers ->
  emits Hand.make_palm (mkWorld h l) tt (Pure.make_palm h) [].
Proof.
  intros Hf. unfold Hand.make_palm.
  eapply emits_bind_eq;
    [ apply emits_gets
    | intros l'; rewrite Hf;
      apply (emits_for_each Hand.open_finger Pure.open_finger [] five_fingers);
      intros r h0 l0; apply emits_open_finger
    | reflexivity ].
Qed.

Lemma emits_make_call_me (h : HandState.t) (l : list Event) :
  emits Hand.make_call_me (mkWorld h l) tt (Pure.make_call_me h) [].
Proof.
  unfold Hand.make_call_me, Pure.make_call_me.
  emits_seq ltac:(apply emits_open_finger)
    ltac:(emits_seq ltac:(apply emits_close_finger)
      ltac:(emits_seq ltac:(apply emits_close_finger)
        ltac:(emits_seq ltac:(apply emits_close_finger)
          ltac:(apply emits_open_finger)))).
Qed.

(** ** Gestures that do not wait *)

Lemma joint_set_fingers_not_thumb (r : JointRef) (l : list JointRef)
    (h : HandState.t) :
  HandState.joint r (HandState.set_fingers_not_thumb l h) = HandState.joint r h.
Proof. destruct r; reflexivity. Qed.

Lemma same_calibration_set_fingers_not_thumb (h : HandState.t)
    (l : list JointRef) (x : HandState.t) :
  same_calibration h x ->
  same_calibration h (HandState.set_fingers_not_thumb l x).
Proof. intros Hx r. rewrite joint_set_fingers_not_thumb. apply Hx. Qed.

#[local] Hint Resolve same_calibration_set_fingers_not_thumb : calibration.
#[local] Hint Rewrite joint_set_fingers_not_thumb set_servo_angle_position : hand.

Ltac unfold_gestures :=
  unfold Pure.make_ripple_wave, Pure.ripple_round,
    Pure.make_casey_neistat_wave, Pure.wave_round, Pure.make_call_me,
    Pure.make_palm, Pure.for_fingers, four_fingers, five_fingers;
  cbn [rev app fold_left].

Ltac peel_more :=
  repeat first
    [ rewrite joint_set_fingers
    | rewrite joint_set_fingers_not_thumb
    | rewrite joint_open_finger_other by reflexivity
    | rewrite joint_close_finger_other by reflexivity
    | rewrite joint_set_servo_angle_other by reflexivity ].

(** The facts shared by the gestures that only open and close fingers:
    the final target and what is left alone. *)
(** Strip, outermost first, the calls on other fingers from the joint
    whose final target is asked for. *)
Ltac peel_final_target :=
  repeat lazymatch goal with
         | |- Joint.final_target (HandState.joint ?r' ?t) == _ =>
             lazymatch t with
             | HandState.set_fingers ?l ?x =>
                 rewrite (joint_set_fingers r' l x)
             | HandState.set_fingers_not_thumb ?l ?x =>
                 rewrite (joint_set_fingers_not_thumb r' l x)
             | Pure.open_finger ?r ?x =>
                 rewrite (joint_open_finger_other r r' x eq_refl)
             | Pure.close_finger ?r ?x =>
                 rewrite (joint_close_finger_other r r' x eq_refl)
             | Pure.set_servo_angle ?r ?a ?x =>
                 rewrite (joint_set_servo_angle_other r r' a x eq_refl)
             end
         end.

Ltac opened Hn :=
  peel_final_target; apply final_target_open_finger;
  [exact Hn | auto 30 with calibration].

Ltac closed Hn :=
  peel_final_target; apply final_target_close_finger;
  [exact Hn | auto 30 with calibration].

Lemma make_palm_facts (h : HandState.t) (r : JointRef) :
  nondegenerate h -> In r five_fingers ->
  Joint.final_target (HandState.joint r (Pure.make_palm h))
  == Joint.min_pos (HandState.joint r h)
  /\ List.length (Joint.intermediate_positions (HandState.joint r (Pure.make_palm h)))
     = (List.length (Joint.intermediate_positions (HandState.joint r h)) + 50)%nat
  /\ Joint.position (HandState.joint r (Pure.make_palm h))
     = Joint.position (HandState.joint r h).
Proof.
  intros Hn Hr. split; [|split].
  - unfold_gestures. each_finger r Hr; opened Hn.
  - each_finger r Hr; hand_simpl; reflexivity.
  - each_finger r Hr; hand_simpl; reflexivity.
Qed.

Lemma same_calibration_nondegenerate (h x : HandState.t) :
  same_calibration h x -> nondegenerate h -> nondegenerate x.
Proof. intros Hs. apply nondegenerate_ext. exact Hs. Qed.

(** X6.  [make_palm] does not wait and sends nothing: on a hand whose
    [fingers] list is as built and whose joints have [min_pos < max_pos]
    it returns with the log and the wrist as they were, every finger's
    position unchanged, 50 steps added to every finger's queue and every
    finger heading for its [min_pos].  Calling it again changes no final
    target. *)
Theorem X6_make_palm_opens_every_finger (w : World) :
  HandState.fingers (hand w) = five_fingers ->
  nondegenerate (hand w) ->
  exists w',
    Hand.make_palm w = Ok tt w'
    /\ log w' = log w
    /\ HandState.wrist (hand w') = HandState.wrist (hand w)
    /\ (forall r, In r five_fingers ->
          Joint.final_target (HandState.joint r (hand w'))
          == Joint.min_pos (HandState.joint r (hand w'))
          /\ List.length (Joint.intermediate_positions (HandState.joint r (hand w')))
             = (List.length (Joint.intermediate_positions (HandState.joint r (hand w)))
                + 50)%nat
          /\ Joint.position (HandState.joint r (hand w'))
             = Joint.position (HandState.joint r (hand w)))
    /\ exists w'',
         Hand.make_palm w' = Ok tt w''
         /\ forall r, In r five_fingers ->
              Joint.final_target (HandState.joint r (hand w''))
              == Joint.final_target (HandState.joint r (hand w')).
Proof.
  destruct w as [h l]. cbn [hand log]. intros Hf Hn.
  pose proof (emits_make_palm h l Hf) as E. unfold emits in E.
  assert (Hs : same_calibration h (Pure.make_palm h)) by auto with calibration.
  assert (Hn' : nondegenerate (Pure.make_palm h))
    by (now apply (same_calibration_nondegenerate h)).
  eexists. split; [exact E|]. cbn [hand log].
  split; [reflexivity|]. split; [reflexivity|]. split.
  - intros r Hr. destruct (make_palm_facts h r Hn Hr) as (F & L & P).
    destruct (Hs r) as [-> _]. repeat split; assumption.
  - assert (Hf' : HandState.fingers (Pure.make_palm h) = five_fingers)
      by (hand_simpl; exact Hf).
    pose proof (emits_make_palm (Pure.make_palm h) l Hf') as E2.
    unfold emits in E2. eexists. split; [exact E2|]. cbn [hand].
    intros r Hr.
    destruct (make_palm_facts h r Hn Hr) as (F & _).
    destruct (make_palm_facts (Pure.make_palm h) r Hn' Hr) as (F2 & _).
    rewrite F2, F. destruct (Hs r) as [-> _]. reflexivity.
Qed.

Lemma X6_witness :
  exists w',
    Hand.make_palm fresh_world = Ok tt w'
    /\ log w' = log fresh_world.
Proof.
  destruct (X6_make_palm_opens_every_finger fresh_world eq_refl
              (calibrated_nondegenerate _ fresh_world_calibrated))
    as (w' & E & L & _).
  exists w'. split; assumption.
Defined.

(** X7.  [make_call_me] does not wait and sends nothing: on a hand whose
    joints have [min_pos < max_pos] it returns with the log and the wrist
    as they were, 50 steps added to every finger's queue, thumb and pinkie
    heading for their [min_pos] and index, middle and ring for their
    [max_pos]. *)
Theorem X7_make_call_me_final_targets (w : World) :
  nondegenerate (hand w) ->
  exists w',
    Hand.make_call_me w = Ok tt w'
    /\ log w' = log w
    /\ HandState.wrist (hand w') = HandState.wrist (hand w)
    /\ (forall r, In r five_fingers ->
          List.length (Joint.intermediate_positions (HandState.joint r (hand w')))
          = (List.length (Joint.intermediate_positions (HandState.joint r (hand w)))
             + 50)%nat)
    /\ Joint.final_target (HandState.thumb (hand w'))
       == Joint.min_pos (HandState.thumb (hand w'))
    /\ Joint.final_target (HandState.index (hand w'))
       == Joint.max_pos (HandState.index (hand w'))
    /\ Joint.final_target (HandState.middle (hand w'))
       == Joint.max_pos (HandState.middle (hand w'))
    /\ Joint.final_target (HandState.ring (hand w'))
       == Joint.max_pos (HandState.ring (hand w'))
    /\ Joint.final_target (HandState.pinkie (hand w'))
       == Joint.min_pos (HandState.pinkie (hand w')).
Proof.
  destruct w as [h l]. cbn [hand log]. intros Hn.
  pose proof (emits_make_call_me h l) as E. unfold emits in E.
  assert (Hs : same_calibration h (Pure.make_call_me h))
    by (unfold Pure.make_call_me; auto 10 with calibration).
  eexists. split; [exact E|]. cbn [hand log].
  split; [reflexivity|]. split; [reflexivity|]. split.
  { intros r Hr. unfold Pure.make_call_me.
    each_finger r Hr; hand_simpl; reflexivity. }
  as_joints.
  destruct (Hs Thumb) as [-> _]. destruct (Hs Index) as [_ ->].
  destruct (Hs Middle) as [_ ->]. destruct (Hs Ring) as [_ ->].
  destruct (Hs Pinkie) as [-> _].
  unfold Pure.make_call_me.
  split; [opened Hn|]. split; [closed Hn|]. split; [closed Hn|].
  split; [closed Hn | opened Hn].
Qed.

Lemma X7_witness :
  exists w',
    Hand.make_call_me fresh_world = Ok tt w'
    /\ Joint.final_target (HandState.index (hand w'))
       == Joint.max_pos (HandState.index (hand w')).
Proof.
  destruct (X7_make_call_me_final_targets fresh_world
              (calibrated_nondegenerate _ fresh_world_calibrated))
    as (w' & E & _ & _ & _ & _ & Hi & _).
  exists w'. split; assumption.
Defined.

(** ** The waves *)

Lemma emits_wave_round (h : HandState.t) (l : list Event) :
  HandState.fingers_not_thumb h = four_fingers ->
  emits
    (Hand.sleep (1#2) ;;
     (fs <- gets HandState.fingers_not_thumb ;; for_each fs Hand.close_finger) ;;
     Hand.sleep (1#2) ;;
     (fs <- gets HandState.fingers_not_thumb ;; for_each fs Hand.open_finger))
    (mkWorld h l) tt (Pure.wave_round h)
    [hardware (Joint.sleep (1#2)); hardware (Joint.sleep (1#2))].
Proof.
  intros Hf. unfold Pure.wave_round.
  emits_seq ltac:(apply emits_sleep)
    ltac:(emits_seq
            ltac:(emits_seq ltac:(apply emits_gets)
                    ltac:(rewrite Hf;
                          apply (emits_for_each Hand.close_finger
                                   Pure.close_finger [] four_fingers);
                          intros; apply emits_close_finger))
            ltac:(emits_seq ltac:(apply emits_sleep)
                    ltac:(emits_seq ltac:(apply emits_gets)
                            ltac:(replace (HandState.fingers_not_thumb
                                             (Pure.for_fingers four_fingers
                                                Pure.close_finger h))
                                    with four_fingers
                                    by (symmetry; exact Hf);
                                  apply (emits_for_each Hand.open_finger
                                           Pure.open_finger [] four_fingers);
                                  intros; apply emits_open_finger)))).
Qed.

Lemma emits_make_casey_neistat_wave (h : HandState.t) (l : list Event) :
  lists_in_order h ->
  emits Hand.make_casey_neistat_wave (mkWorld h l) tt
    (Pure.make_casey_neistat_wave h)
    (repeat (hardware (Joint.sleep (1#2))) 4).
Proof.
  intros [Hf Hfnt]. unfold Hand.make_casey_neistat_wave,
    Pure.make_casey_neistat_wave.
  change (range 2) with [0%Z; 1%Z]. cbn [for_each].
  emits_seq ltac:(apply emits_make_palm; exact Hf)
    ltac:(emits_seq ltac:(apply emits_wave_round; exact Hfnt)
            ltac:(emits_seq ltac:(apply emits_wave_round; exact Hfnt)
                    ltac:(apply emits_ret))).
Qed.

Lemma emits_ripple_round (h : HandState.t) (l : list Event) :
  HandState.fingers_not_thumb h = rev four_fingers ->
  emits
    ((fs <- gets HandState.fingers_not_thumb ;;
      for_each fs (fun f => set_servo_angle f 50 ;; Hand.sleep (1#10))) ;;
     (fs <- gets HandState.fingers_not_thumb ;;
      for_each fs (fun f => Hand.open_finger f ;; Hand.sleep (1#10))))
    (mkWorld h l) tt (Pure.ripple_round h)
    (repeat (hardware (Joint.sleep (1#10))) 8).
Proof.
  intros Hf. unfold Pure.ripple_round.
  emits_seq
    ltac:(emits_seq ltac:(apply emits_gets)
            ltac:(rewrite Hf;
                  apply (emits_for_each
                           (fun f => set_servo_angle f 50 ;; Hand.sleep (1#10))
                           (fun r => Pure.set_servo_angle r 50)
                           [hardware (Joint.sleep (1#10))] (rev four_fingers));
                  intros;
                  emits_seq ltac:(apply emits_set_servo_angle)
                    ltac:(apply emits_sleep)))
    ltac:(emits_seq ltac:(apply emits_gets)
            ltac:(replace (HandState.fingers_not_thumb
                             (Pure.for_fingers (rev four_fingers)
                                (fun r => Pure.set_servo_angle r 50) h))
                    with (rev four_fingers) by (symmetry; exact Hf);
                  apply (emits_for_each
                           (fun f => Hand.open_finger f ;; Hand.sleep (1#10))
                           Pure.open_finger
                           [hardware (Joint.sleep (1#10))] (rev four_fingers));
                  intros;
                  emits_seq ltac:(apply emits_open_finger)
                    ltac:(apply emits_sleep))).
Qed.

Lemma emits_reverse_four (h : HandState.t) (l : list Event) :
  HandState.fingers_not_thumb h = four_fingers ->
  emits Hand.fingers_not_thumb_reverse (mkWorld h l) tt
    (HandState.set_fingers_not_thumb (rev four_fingers) h) [].
Proof.
  intros E. unfold emits, Hand.fingers_not_thumb_reverse, modify.
  cbn [hand log app]. now rewrite E.
Qed.

Lemma emits_reverse_back (h : HandState.t) (l : list Event) :
  HandState.fingers_not_thumb h = rev four_fingers ->
  emits Hand.fingers_not_thumb_reverse (mkWorld h l) tt
    (HandState.set_fingers_not_thumb four_fingers h) [].
Proof.
  intros E. unfold emits, Hand.fingers_not_thumb_reverse, modify.
  cbn [hand log app]. now rewrite E.
Qed.

Lemma emits_make_ripple_wave (h : HandState.t) (l : list Event) :
  lists_in_order h ->
  emits Hand.make_ripple_wave (mkWorld h l) tt (Pure.make_ripple_wave h)
    (repeat (hardware (Joint.sleep (1#10))) 16).
Proof.
  intros [Hf Hfnt]. unfold Hand.make_ripple_wave, Pure.make_ripple_wave.
  change (range 2) with [0%Z; 1%Z]. cbn [for_each].
  emits_seq ltac:(apply emits_make_palm; exact Hf)
    ltac:(emits_seq
            ltac:(apply emits_reverse_four; exact Hfnt)
            ltac:(emits_seq
                    ltac:(emits_seq
                            ltac:(apply emits_ripple_round; reflexivity)
                            ltac:(emits_seq
                                    ltac:(apply emits_ripple_round; reflexivity)
                                    ltac:(apply emits_ret)))
                    ltac:(apply emits_reverse_back; reflexivity))).
Qed.

Ltac each_of_four r H :=
  simpl in H; destruct H as [<-|[<-|[<-|[<-|[]]]]].

Lemma length_after_set_servo_angle (r r' : JointRef) (a : Q) (x : HandState.t) :
  List.length (Joint.intermediate_positions
                 (HandState.joint r' (Pure.set_servo_angle r a x)))
  = ((if JointRef_eqb r r' then 50 else 0)
     + List.length (Joint.intermediate_positions (HandState.joint r' x)))%nat.
Proof.
  unfold Pure.set_servo_angle. rewrite joint_on_joint.
  destruct (JointRef_eqb r r'); [|reflexivity].
  rewrite set_servo_angle_length. lia.
Qed.

Lemma length_after_open_finger (r r' : JointRef) (x : HandState.t) :
  List.length (Joint.intermediate_positions
                 (HandState.joint r' (Pure.open_finger r x)))
  = ((if JointRef_eqb r r' then 50 else 0)
     + List.length (Joint.intermediate_positions (HandState.joint r' x)))%nat.
Proof. apply length_after_set_servo_angle. Qed.

Lemma length_after_close_finger (r r' : JointRef) (x : HandState.t) :
  List.length (Joint.intermediate_positions
                 (HandState.joint r' (Pure.close_finger r x)))
  = ((if JointRef_eqb r r' then 50 else 0)
     + List.length (Joint.intermediate_positions (HandState.joint r' x)))%nat.
Proof. apply length_after_set_servo_angle. Qed.

Lemma position_after_set_servo_angle (r r' : JointRef) (a : Q) (x : HandState.t) :
  Joint.position (HandState.joint r' (Pure.set_servo_angle r a x))
  = Joint.position (HandState.joint r' x).
Proof.
  unfold Pure.set_servo_angle. rewrite joint_on_joint.
  destruct (JointRef_eqb r r'); [|reflexivity].
  apply set_servo_angle_position.
Qed.

Lemma position_after_open_finger (r r' : JointRef) (x : HandState.t) :
  Joint.position (HandState.joint r' (Pure.open_finger r x))
  = Joint.position (HandState.joint r' x).
Proof. apply position_after_set_servo_angle. Qed.

Lemma position_after_close_finger (r r' : JointRef) (x : HandState.t) :
  Joint.position (HandState.joint r' (Pure.close_finger r x))
  = Joint.position (HandState.joint r' x).
Proof. apply position_after_set_servo_angle. Qed.

Create Rewrite HintDb queued.

#[local] Hint Rewrite length_after_open_finger length_after_close_finger
  length_after_set_servo_angle position_after_open_finger
  position_after_close_finger position_after_set_servo_angle
  joint_set_fingers joint_set_fingers_not_thumb : queued.

(** Queue lengths and positions after a run of opening and closing
    calls. *)
Ltac count_queued :=
  autorewrite with queued; cbn [JointRef_eqb Nat.add]; try reflexivity; try lia.

Lemma wave_facts (h x : HandState.t) :
  nondegenerate h ->
  x = Pure.make_casey_neistat_wave h \/ x = Pure.make_ripple_wave h ->
  same_calibration h x
  /\ HandState.wrist x = HandState.wrist h
  /\ HandState.fingers x = HandState.fingers h
  /\ (forall r, In r five_fingers ->
        Joint.final_target (HandState.joint r x)
        == Joint.min_pos (HandState.joint r x)
        /\ Joint.position (HandState.joint r x)
           = Joint.position (HandState.joint r h))
  /\ List.length (Joint.intermediate_positions (HandState.thumb x))
     = (List.length (Joint.intermediate_positions (HandState.thumb h)) + 50)%nat
  /\ (forall r, In r four_fingers ->
        List.length (Joint.intermediate_positions (HandState.joint r x))
        = (List.length (Joint.intermediate_positions (HandState.joint r h))
           + 250)%nat).
Proof.
  intros Hn Hx.
  assert (Hs : same_calibration h x).
  { destruct Hx as [-> | ->]; unfold_gestures; auto 40 with calibration. }
  split; [exact Hs|].
  split; [destruct Hx as [-> | ->]; reflexivity|].
  split; [destruct Hx as [-> | ->]; reflexivity|].
  split; [|split].
  - intros r Hr. destruct (Hs r) as [-> _]. clear Hs. split.
    + destruct Hx as [-> | ->]; unfold_gestures; each_finger r Hr; opened Hn.
    + destruct Hx as [-> | ->]; unfold_gestures; each_finger r Hr; count_queued.
  - clear Hs. as_joints.
    destruct Hx as [-> | ->]; unfold_gestures; count_queued.
  - clear Hs. intros r Hr.
    destruct Hx as [-> | ->]; unfold_gestures; each_of_four r Hr; count_queued.
Qed.

(** X8.  [make_casey_neistat_wave] only queues: on a hand whose lists are
    as built and whose joints have [min_pos < max_pos] it returns having
    sent no pulse, the log gaining four sleeps of half a second and
    nothing else; no position has changed, the thumb has 50 steps more
    and each other finger 250 (open, then twice close and open), every
    finger ends heading for its [min_pos], and wrist and lists are as
    they were. *)
Theorem X8_casey_neistat_wave_only_queues (w : World) :
  lists_in_order (hand w) ->
  nondegenerate (hand w) ->
  exists w',
    Hand.make_casey_neistat_wave w = Ok tt w'
    /\ log w' = repeat (hardware (Joint.sleep (1#2))) 4 ++ log w
    /\ lists_in_order (hand w')
    /\ HandState.wrist (hand w') = HandState.wrist (hand w)
    /\ (forall r, In r five_fingers ->
          Joint.final_target (HandState.joint r (hand w'))
          == Joint.min_pos (HandState.joint r (hand w'))
          /\ Joint.position (HandState.joint r (hand w'))
             = Joint.position (HandState.joint r (hand w)))
    /\ List.length (Joint.intermediate_positions (HandState.thumb (hand w')))
       = (List.length (Joint.intermediate_positions (HandState.thumb (hand w)))
          + 50)%nat
    /\ (forall r, In r four_fingers ->
          List.length (Joint.intermediate_positions (HandState.joint r (hand w')))
          = (List.length (Joint.intermediate_positions (HandState.joint r (hand w)))
             + 250)%nat).
Proof.
  destruct w as [h l]. cbn [hand log]. intros Hl Hn.
  pose proof (emits_make_casey_neistat_wave h l Hl) as E. unfold emits in E.
  destruct (wave_facts h _ Hn (or_introl eq_refl))
    as (_ & Hw & Hf & Ht & Lt & Lf).
  eexists. split; [exact E|]. cbn [hand log].
  split; [reflexivity|].
  split; [exact Hl|].
  split; [exact Hw|]. split; [exact Ht|]. split; [exact Lt | exact Lf].
Qed.

Lemma X8_witness :
  exists w',
    Hand.make_casey_neistat_wave fresh_world = Ok tt w'
    /\ log w' = repeat (hardware (Joint.sleep (1#2))) 4 ++ log fresh_world.
Proof.
  destruct (X8_casey_neistat_wave_only_queues fresh_world
              (proj1 fresh_world_calibrated)
              (calibrated_nondegenerate _ fresh_world_calibrated))
    as (w' & E & L & _).
  exists w'. split; assumption.
Defined.

(** X9.  [make_ripple_wave] only queues, and puts [fingers_not_thumb]
    back in order: on a hand whose lists are as built and whose joints
    have [min_pos < max_pos] it returns having sent no pulse, the log
    gaining sixteen sleeps of a tenth of a second and nothing else; the
    two lists are again as built, no position has changed, the thumb has
    50 steps more and each other finger 250, and every finger ends
    heading for its [min_pos]. *)
Theorem X9_ripple_wave_only_queues_and_restores_order (w : World) :
  lists_in_order (hand w) ->
  nondegenerate (hand w) ->
  exists w',
    Hand.make_ripple_wave w = Ok tt w'
    /\ log w' = repeat (hardware (Joint.sleep (1#10))) 16 ++ log w
    /\ lists_in_order (hand w')
    /\ HandState.wrist (hand w') = HandState.wrist (hand w)
    /\ (forall r, In r five_fingers ->
          Joint.final_target (HandState.joint r (hand w'))
          == Joint.min_pos (HandState.joint r (hand w'))
          /\ Joint.position (HandState.joint r (hand w'))
             = Joint.position (HandState.joint r (hand w)))
    /\ List.length (Joint.intermediate_positions (HandState.thumb (hand w')))
       = (List.length (Joint.intermediate_positions (HandState.thumb (hand w)))
          + 50)%nat
    /\ (forall r, In r four_fingers ->
          List.length (Joint.intermediate_positions (HandState.joint r (hand w')))
          = (List.length (Joint.intermediate_positions (HandState.joint r (hand w)))
             + 250)%nat).
Proof.
  destruct w as [h l]. cbn [hand log]. intros Hl Hn.
  pose proof (emits_make_ripple_wave h l Hl) as E. unfold emits in E.
  destruct (wave_facts h _ Hn (or_intror eq_refl))
    as (_ & Hw & Hf & Ht & Lt & Lf).
  eexists. split; [exact E|]. cbn [hand log].
  split; [reflexivity|].
  split; [split; [exact (proj1 Hl) | reflexivity]|].
  split; [exact Hw|]. split; [exact Ht|]. split; [exact Lt | exact Lf].
Qed.

Lemma X9_witness :
  exists w',
    Hand.make_ripple_wave fresh_world = Ok tt w'
    /\ lists_in_order (hand w').
Proof.
  destruct (X9_ripple_wave_only_queues_and_restores_order fresh_world
              (proj1 fresh_world_calibrated)
              (calibrated_nondegenerate _ fresh_world_calibrated))
    as (w' & E & _ & L & _).
  exists w'. split; assumption.
Defined.

(** ** What [Hand.update] sends *)

Lemma emits_update_joint (r : JointRef) (h : HandState.t) (l : list Event) :
  emits (update_joint r) (mkWorld h l)
    (Joint.idle (HandState.joint r h)) (Pure.on_joint r Joint.tick h)
    (rev (map hardware (snd (Joint.update (HandState.joint r h))))).
Proof.
  unfold update_joint.
  destruct (update_eq (HandState.joint r h)) as [es E].
  eapply emits_bind_eq;
    [ apply emits_gets
    | intros l1; rewrite E;
      emits_seq ltac:(apply emits_modify)
        ltac:(emits_seq ltac:(apply emits_emit_all) ltac:(apply emits_ret))
    | rewrite E; cbn [snd app]; now rewrite ?app_nil_r ].
Qed.

Lemma pulses_on_other (r : JointRef) (f : Joint.t -> Joint.t)
    (h : HandState.t) (fs : list JointRef) :
  ~ In r fs -> pulses (Pure.on_joint r f h) fs = pulses h fs.
Proof.
  intros Hr. unfold pulses. f_equal. apply map_ext_in. intros x Hx.
  rewrite joint_on_joint.
  destruct (JointRef_eqb r x) eqn:E; [|reflexivity].
  exfalso. apply Hr. destruct r, x; try discriminate; exact Hx.
Qed.

Lemma emits_update_loop (fs : list JointRef) :
  NoDup fs ->
  forall (h : HandState.t) (l : list Event) (ready : bool),
    emits
      (for_fold fs
         (fun ready f =>
            done <- update_joint f ;;
            ret (if negb done then false else ready))
         ready)
      (mkWorld h l)
      (ready && forallb (fun r => Joint.idle (HandState.joint r h)) fs)
      (fold_left (fun h r => Pure.on_joint r Joint.tick h) fs h)
      (rev (pulses h fs)).
Proof.
  induction 1 as [|f fs Hf Hnd IH]; intros h l ready.
  - cbn. rewrite andb_true_r. apply emits_ret.
  - cbn [for_fold fold_left forallb].
    replace (ready && (Joint.idle (HandState.joint f h)
                       && forallb (fun r => Joint.idle (HandState.joint r h)) fs))
      with ((if negb (Joint.idle (HandState.joint f h)) then false else ready)
            && forallb (fun r => Joint.idle
                                   (HandState.joint r (Pure.on_joint f Joint.tick h)))
                 fs).
    + emits_seq
        ltac:(emits_seq ltac:(apply emits_update_joint) ltac:(apply emits_ret))
        ltac:(apply IH).
      rewrite (pulses_on_other f Joint.tick h fs Hf).
      unfold pulses. cbn [map List.concat app]. rewrite rev_app_distr.
      reflexivity.
    + assert (E : forallb (fun r => Joint.idle
                                      (HandState.joint r (Pure.on_joint f Joint.tick h)))
                    fs
                  = forallb (fun r => Joint.idle (HandState.joint r h)) fs).
      { clear IH Hnd. induction fs as [|x fs IHfs]; [reflexivity|].
        simpl. rewrite IHfs by (intros Hin; apply Hf; now right).
        rewrite joint_on_joint.
        destruct (JointRef_eqb f x) eqn:Ex; [|reflexivity].
        exfalso. apply Hf. left. destruct f, x; try discriminate; reflexivity. }
      rewrite E.
      destruct (Joint.idle (HandState.joint f h)), ready; reflexivity.
Qed.

Lemma emits_get_flexion (r : JointRef) (h : HandState.t) (l : list Event) :
  Joint.min_pos (HandState.joint r h) < Joint.max_pos (HandState.joint r h) ->
  emits (get_flexion r) (mkWorld h l)
    (py_int (Binary64.flexion_ratio (HandState.joint r h))) h [].
Proof.
  intros H. unfold get_flexion.
  emits_seq ltac:(apply emits_gets)
    ltac:(rewrite (get_flexion64_eq _ H); apply emits_ret).
Qed.

Lemma emits_show_positions_loop (h : HandState.t) (fs : list JointRef) :
  nondegenerate h ->
  forall (data : list (string * Q * Z)) (l : list Event),
    emits
      (for_fold fs
         (fun data f =>
            j <- gets (HandState.joint f) ;;
            p <- get_flexion f ;;
            ret (data ++ [(Joint.name j, Joint.position j, p)]))
         data)
      (mkWorld h l)
      (data ++ map (fun r => telemetry_entry (HandState.joint r h)) fs) h [].
Proof.
  intros Hn. induction fs as [|f fs IH]; intros data l.
  - cbn. rewrite app_nil_r. apply emits_ret.
  - cbn [for_fold map].
    replace (data ++ telemetry_entry (HandState.joint f h)
                     :: map (fun r => telemetry_entry (HandState.joint r h)) fs)
      with ((data ++ [telemetry_entry (HandState.joint f h)])
            ++ map (fun r => telemetry_entry (HandState.joint r h)) fs)
      by (rewrite <- app_assoc; reflexivity).
    emits_seq
      ltac:(emits_seq ltac:(apply emits_gets)
              ltac:(emits_seq ltac:(apply emits_get_flexion; apply Hn)
                      ltac:(apply emits_ret)))
      ltac:(apply IH).
Qed.

Lemma emits_show_positions (h : HandState.t) (l : list Event) :
  nondegenerate h ->
  emits Hand.show_positions (mkWorld h l) tt h
    [publish TELEMETRY_TOPIC (telemetry_line h);
     print (Tx TELEMETRY_TOPIC (telemetry_line h))].
Proof.
  intros Hn. unfold Hand.show_positions, send_data, telemetry_line.
  emits_seq ltac:(apply emits_gets)
    ltac:(emits_seq ltac:(apply (emits_show_positions_loop h _ Hn []))
            ltac:(emits_seq ltac:(apply emits_gets)
                    ltac:(emits_seq ltac:(apply emits_get_flexion; apply Hn)
                            ltac:(emits_seq ltac:(apply emits_emit)
                                    ltac:(apply emits_emit))))).
Qed.

Lemma pulses_idle (h : HandState.t) (fs : list JointRef) :
  forallb (fun r => Joint.idle (HandState.joint r h)) fs = true ->
  pulses h fs = [].
Proof.
  unfold pulses. induction fs as [|r fs IH]; [reflexivity|].
  cbn [forallb map List.concat]. intros H. apply andb_prop in H.
  destruct H as [Hr Hfs]. rewrite (IH Hfs), app_nil_r.
  unfold Joint.idle in Hr. unfold Joint.update.
  destruct (Joint.intermediate_positions (HandState.joint r h));
    [reflexivity | discriminate].
Qed.

Lemma update_run (h : HandState.t) (l : list Event) :
  Hand.update (mkWorld h l)
  = match
      for_fold (HandState.fingers h)
        (fun ready f =>
           done <- update_joint f ;;
           ret (if negb done then false else ready))
        true (mkWorld h l)
    with
    | Ok ready w1 =>
        match (if negb ready then Hand.show_positions else ret tt) w1 with
        | Ok _ w2 => Ok ready w2
        | Raise e => Raise e
        | OutOfFuel => OutOfFuel
        end
    | Raise e => Raise e
    | OutOfFuel => OutOfFuel
    end.
Proof. reflexivity. Qed.

Lemma update_outcome (w : World) :
  HandState.fingers (hand w) = five_fingers ->
  (Pure.all_idle (hand w) = true -> Hand.update w = Ok true w)
  /\ (Pure.all_idle (hand w) = false -> nondegenerate (hand w) ->
      exists w',
        Hand.update w = Ok false w'
        /\ hand w' = Pure.update (hand w)
        /\ log w'
           = publish TELEMETRY_TOPIC (telemetry_line (hand w'))
               :: print (Tx TELEMETRY_TOPIC (telemetry_line (hand w')))
               :: rev (pulses (hand w) five_fingers) ++ log w
        /\ telemetry_line (hand w')
           = Telemetry
               (map (fun r => telemetry_entry (Joint.tick (HandState.joint r (hand w))))
                  five_fingers)
               (Joint.name (HandState.wrist (hand w)))
               (py_int (Binary64.flexion_ratio (HandState.wrist (hand w))))).
Proof.
  destruct w as [h l]. cbn [hand log]. intros Hf.
  pose proof (emits_update_loop five_fingers five_fingers_NoDup h l true) as E.
  unfold emits in E. cbn [log andb] in E.
  fold (Pure.all_idle h) in E. fold (Pure.on_fingers Joint.tick h) in E.
  fold (Pure.update h) in E.
  split.
  - intros Hi. rewrite update_run, Hf, E, Hi. cbn [negb].
    destruct (update_all_idle h Hi) as [-> _].
    unfold Pure.all_idle in Hi. rewrite (pulses_idle h five_fingers Hi).
    reflexivity.
  - intros Hi Hn.
    assert (Hn' : nondegenerate (Pure.update h)) by now apply nondegenerate_update.
    pose proof (emits_show_positions (Pure.update h)
                  (rev (pulses h five_fingers) ++ l) Hn') as S.
    unfold emits in S. cbn [log app] in S.
    exists {| hand := Pure.update h;
              log := publish TELEMETRY_TOPIC (telemetry_line (Pure.update h))
                     :: print (Tx TELEMETRY_TOPIC (telemetry_line (Pure.update h)))
                     :: rev (pulses h five_fingers) ++ l |}.
    split.
    + rewrite update_run, Hf, E, Hi. cbn [negb]. rewrite S. reflexivity.
    + cbn [hand log]. split; [reflexivity|]. split; [reflexivity|].
      unfold telemetry_line, Pure.update. rewrite fingers_on_fingers, Hf.
      unfold five_fingers. cbn [map].
      change HandState.wrist with (HandState.joint Wrist).
      rewrite !joint_on_fingers. reflexivity.
Qed.




(** ** The waiting loop, tick by tick *)

Lemma published_app (l1 l2 : list Event) :
  published (l1 ++ l2) = (published l1 + published l2)%nat.
Proof. unfold published. now rewrite filter_app, length_app. Qed.

Lemma published_hardware (es : list Joint.effect) :
  published (rev (map hardware es)) = 0%nat.
Proof.
  induction es as [|e es IH]; [reflexivity|].
  cbn [map rev]. now rewrite published_app, IH.
Qed.

Lemma published_pulses (h : HandState.t) (fs : list JointRef) :
  published (rev (pulses h fs)) = 0%nat.
Proof.
  unfold pulses. induction fs as [|r fs IH]; [reflexivity|].
  cbn [map List.concat].
  now rewrite rev_app_distr, published_app, IH, published_hardware.
Qed.

Lemma update_step (h : HandState.t) (l : list Event) :
  HandState.fingers h = five_fingers ->
  nondegenerate h ->
  exists es,
    Hand.update (mkWorld h l)
    = Ok (Pure.all_idle h) (mkWorld (Pure.update h) (es ++ l))
    /\ published es = if Pure.all_idle h then 0%nat else 1%nat.
Proof.
  intros Hf Hn.
  destruct (update_outcome (mkWorld h l) Hf)
    as [Hidle Hbusy].
  cbn [hand log] in Hidle, Hbusy.
  destruct (Pure.all_idle h) eqn:Hi.
  - exists []. rewrite (Hidle eq_refl).
    destruct (update_all_idle h Hi) as [-> _]. split; reflexivity.
  - destruct (Hbusy eq_refl Hn) as ([h' l'] & E & Hh & Hl & _).
    cbn [hand log] in Hh, Hl. subst h'.
    exists (publish TELEMETRY_TOPIC (telemetry_line (Pure.update h))
            :: print (Tx TELEMETRY_TOPIC (telemetry_line (Pure.update h)))
            :: rev (pulses h five_fingers)).
    split.
    + rewrite E, Hl. reflexivity.
    + change (publish TELEMETRY_TOPIC (telemetry_line (Pure.update h))
              :: print (Tx TELEMETRY_TOPIC (telemetry_line (Pure.update h)))
              :: rev (pulses h five_fingers))
        with ([publish TELEMETRY_TOPIC (telemetry_line (Pure.update h));
               print (Tx TELEMETRY_TOPIC (telemetry_line (Pure.update h)))]
              ++ rev (pulses h five_fingers)).
      rewrite published_app, published_pulses. reflexivity.
Qed.

Lemma all_idle_pending (h : HandState.t) :
  Pure.all_idle h = true -> pending h = 0%nat.
Proof.
  intros Hi. assert (H : (pending h <= 0)%nat); [|lia].
  apply pending_le. intros r Hr.
  unfold Pure.all_idle in Hi. rewrite forallb_forall in Hi.
  specialize (Hi r Hr). apply idle_length in Hi. lia.
Qed.

Lemma wait_needs_fuel (fuel : nat) :
  forall (h : HandState.t) (l : list Event),
    HandState.fingers h = five_fingers ->
    nondegenerate h ->
    (fuel <= pending h)%nat ->
    while_not fuel Hand.update (mkWorld h l) = OutOfFuel.
Proof.
  induction fuel as [|fuel IH]; intros h l Hf Hn Hp; [reflexivity|].
  destruct (update_step h l Hf Hn) as (es & E & _).
  cbn [while_not]. unfold bind. rewrite E.
  destruct (Pure.all_idle h) eqn:Hi.
  - apply all_idle_pending in Hi. lia.
  - apply IH.
    + exact Hf.
    + now apply nondegenerate_update.
    + rewrite pending_update. lia.
Qed.

Lemma wait_publishes (fuel : nat) :
  forall (h : HandState.t) (l : list Event),
    HandState.fingers h = five_fingers ->
    nondegenerate h ->
    (pending h < fuel)%nat ->
    exists es,
      while_not fuel Hand.update (mkWorld h l)
      = Ok tt (mkWorld (Pure.wait_ready h) (es ++ l))
      /\ published es = pending h.
Proof.
  induction fuel as [|fuel IH]; intros h l Hf Hn Hp; [lia|].
  destruct (update_step h l Hf Hn) as (es & E & He).
  cbn [while_not]. unfold bind. rewrite E.
  destruct (Pure.all_idle h) eqn:Hi.
  - exists es. destruct (update_all_idle h Hi) as [-> ->].
    split; [reflexivity|]. rewrite He. symmetry. now apply all_idle_pending.
  - destruct (IH (Pure.update h) (es ++ l) Hf (nondegenerate_update h Hn))
      as (es' & E' & He').
    { rewrite pending_update. pose proof (pending_all_idle h Hi). lia. }
    exists (es' ++ es). rewrite E', wait_ready_update, <- app_assoc.
    split; [reflexivity|].
    rewrite published_app, He', He, pending_update.
    pose proof (pending_all_idle h Hi). lia.
Qed.

(** X11.  The waiting loop [while not self.update(): pass] of
    [close_thumb] and [display_binary], on a hand whose [fingers] list is
    as built and whose joints have [min_pos < max_pos], calls
    [Hand.update] once more than the longest finger queue is long: with
    fuel for fewer calls it is still looping, with more it ends; by then
    it has published exactly one telemetry line per step of the longest
    queue, every finger's queue is empty and every finger stands on what
    was its final target; the wrist is as it was. *)
Theorem X11_waiting_loop_runs_as_long_as_the_longest_queue
    (fuel : nat) (w : World) :
  HandState.fingers (hand w) = five_fingers ->
  nondegenerate (hand w) ->
  ((fuel <= pending (hand w))%nat -> while_not fuel Hand.update w = OutOfFuel)
  /\ ((pending (hand w) < fuel)%nat ->
      exists w',
        while_not fuel Hand.update w = Ok tt w'
        /\ published (log w') = (pending (hand w) + published (log w))%nat
        /\ HandState.wrist (hand w') = HandState.wrist (hand w)
        /\ forall r, In r five_fingers ->
             Joint.intermediate_positions (HandState.joint r (hand w')) = []
             /\ Joint.position (HandState.joint r (hand w'))
                = Joint.final_target (HandState.joint r (hand w))).
Proof.
  destruct w as [h l]. cbn [hand log]. intros Hf Hn. split.
  - now apply wait_needs_fuel.
  - intros Hp. destruct (wait_publishes fuel h l Hf Hn Hp) as (es & E & He).
    eexists. split; [exact E|]. cbn [hand log].
    split; [now rewrite published_app, He|].
    split; [reflexivity|].
    intros r Hr. each_finger r Hr; rewrite joint_wait_ready by reflexivity;
      split; reflexivity.
Qed.

Lemma X11_witness :
  while_not 50 Hand.update index_closing = OutOfFuel
  /\ exists w',
       while_not 51 Hand.update index_closing = Ok tt w'
       /\ published (log w') = 50%nat
       /\ Joint.intermediate_positions (HandState.joint Index (hand w')) = []
       /\ Joint.position (HandState.joint Index (hand w')) == 130.
Proof.
  assert (Hn : nondegenerate (hand index_closing))
    by (intros r; destruct r; reflexivity).
  assert (Hp : pending (hand index_closing) = 50%nat)
    by (vm_compute; reflexivity).
  split.
  - apply (proj1 (X11_waiting_loop_runs_as_long_as_the_longest_queue 50
                    index_closing eq_refl Hn)).
    rewrite Hp. lia.
  - destruct (proj2 (X11_waiting_loop_runs_as_long_as_the_longest_queue 51
                       index_closing eq_refl Hn))
      as (w' & E & Hpub & _ & Hj); [rewrite Hp; lia|].
    exists w'. split; [exact E|].
    split; [rewrite Hpub, Hp; reflexivity|].
    destruct (Hj Index) as [Hq Hpos]; [cbn; tauto|].
    split; [exact Hq|].
    rewrite Hpos. vm_compute. reflexivity.
Defined.

(** ** [clear_thumb] *)

Lemma wait_joint_publishes (r : JointRef) (fuel : nat) :
  forall (h : HandState.t) (l : list Event),
    (List.length (Joint.intermediate_positions (HandState.joint r h)) < fuel)%nat ->
    exists es,
      while_not fuel (update_joint r) (mkWorld h l)
      = Ok tt (mkWorld (Pure.on_joint r Joint.drain h) (es ++ l))
      /\ published es = 0%nat.
Proof.
  induction fuel as [|fuel IH]; intros h l Hlen; [lia|].
  pose proof (emits_update_joint r h l) as E. unfold emits in E. cbn [log] in E.
  cbn [while_not]. unfold bind. rewrite E.
  destruct (Joint.idle (HandState.joint r h)) eqn:Hi.
  - eexists. rewrite (on_joint_idle _ _ Hi).
    split; [reflexivity | apply published_hardware].
  - destruct (IH (Pure.on_joint r Joint.tick h)
                (rev (map hardware (snd (Joint.update (HandState.joint r h)))) ++ l))
      as (es' & E' & He').
    { rewrite joint_on_joint, JointRef_eqb_refl, tick_length.
      assert (List.length (Joint.intermediate_positions (HandState.joint r h))
              <> 0%nat).
      { intros H0. apply idle_length in H0. congruence. }
      lia. }
    eexists. rewrite E', on_joint_drain_tick, app_assoc.
    split; [reflexivity|].
    now rewrite published_app, He', published_hardware.
Qed.

(** X12.  [clear_thumb] ticks the thumb alone until it is idle: given
    fuel for more calls than the thumb's queue is long plus 50, it
    returns with the thumb's queue empty and the thumb standing on 70
    clamped to its range; every other joint, queued moves included, and
    both lists are as they were, and no telemetry has been published. *)
Theorem X12_clear_thumb_moves_only_the_thumb (fuel : nat) (w : World) :
  (List.length (Joint.intermediate_positions (HandState.thumb (hand w))) + 50
   < fuel)%nat ->
  exists w',
    Hand.clear_thumb fuel w = Ok tt w'
    /\ Joint.intermediate_positions (HandState.thumb (hand w')) = []
    /\ Joint.position (HandState.thumb (hand w'))
       == Joint.clamp (HandState.thumb (hand w)) 70
    /\ (forall r, r <> Thumb ->
          HandState.joint r (hand w') = HandState.joint r (hand w))
    /\ HandState.fingers (hand w') = HandState.fingers (hand w)
    /\ HandState.fingers_not_thumb (hand w')
       = HandState.fingers_not_thumb (hand w)
    /\ published (log w') = published (log w).
Proof.
  destruct w as [h l]. cbn [hand log]. intros Hp.
  destruct (wait_joint_publishes Thumb fuel (Pure.set_servo_angle Thumb 70 h) l)
    as (es & E & He).
  { unfold Pure.set_servo_angle.
    rewrite joint_on_joint, JointRef_eqb_refl, set_servo_angle_length.
    exact Hp. }
  exists (mkWorld (Pure.on_joint Thumb Joint.drain (Pure.set_servo_angle Thumb 70 h))
            (es ++ l)).
  split.
  { unfold Hand.clear_thumb, bind.
    change (set_servo_angle Thumb 70 {| hand := h; log := l |})
      with (Ok tt (mkWorld (Pure.set_servo_angle Thumb 70 h) l)).
    exact E. }
  cbn [hand log]. as_joints.
  split; [now rewrite joint_on_joint|].
  split.
  { rewrite joint_on_joint, JointRef_eqb_refl, drain_position.
    apply final_target_set_on. }
  split.
  { intros r Hr. unfold Pure.set_servo_angle. rewrite !joint_on_joint.
    destruct r; try reflexivity. congruence. }
  split; [reflexivity|]. split; [reflexivity|].
  now rewrite published_app, He.
Qed.

Lemma X12_witness :
  exists w',
    Hand.clear_thumb 51 fresh_world = Ok tt w'
    /\ Joint.position (HandState.thumb (hand w')) == 70.
Proof.
  assert (Hp : (List.length (Joint.intermediate_positions
                               (HandState.thumb (hand fresh_world))) + 50 < 51)%nat)
    by (vm_compute; lia).
  destruct (X12_clear_thumb_moves_only_the_thumb 51 fresh_world Hp)
    as (w' & E & _ & P & _).
  exists w'. split; [exact E|]. rewrite P. reflexivity.
Defined.

(** ** The keypress handler *)

Lemma bind_Ok {A B} (m : M A) (k : A -> M B) (w w' : World) (b : B) :
  bind m k w = Ok b w' -> exists a w1, m w = Ok a w1 /\ k a w1 = Ok b w'.
Proof.
  unfold bind. destruct (m w) as [a w1| |]; try discriminate.
  intros H. now exists a, w1.
Qed.

Section HandlerFacts.

Variable eval : string -> exn + Z.
Variable int : string -> exn + Z.
Variable fuel : nat.

Lemma binary_mode_name_error (keypress : ascii) (c : Console)
    (f : option JointRef) (w : World) :
  input_mode c = INPUT_BINARY \/ keypress = "b"%char ->
  keypress <> CR ->
  binary_mode eval int fuel keypress c f w
  = Ok (NameError "input_number_string") w.
Proof.
  intros Hm Hk. unfold binary_mode.
  assert (E : InputMode_eqb
                (input_mode
                   (if Ascii.eqb keypress "b"
                    then {| input_mode := INPUT_BINARY; input_string := EmptyString |}
                    else c)) INPUT_BINARY = true).
  { destruct (Ascii.eqb keypress "b") eqn:Eb; [reflexivity|].
    destruct Hm as [-> | ->]; [reflexivity|]. now rewrite Ascii.eqb_refl in Eb. }
  cbv zeta. rewrite E.
  destruct (Ascii.eqb keypress CR) eqn:Ec; [|reflexivity].
  apply Ascii.eqb_eq in Ec. contradiction.
Qed.

Lemma nudge_Ok (f : option JointRef) (d : Q) (k : M handled)
    (w w' : World) (v : handled) :
  nudge f d k w = Ok v w' ->
  (exists w1, k w1 = Ok v w') \/ v = NameError "f".
Proof.
  unfold nudge. destruct f as [r|].
  - intros H. apply bind_Ok in H. destruct H as (j & w1 & _ & H).
    apply bind_Ok in H. destruct H as ([] & w2 & _ & H). left. now exists w2.
  - intros H. injection H as <- _. now right.
Qed.

(** X13.  The binary mode cannot be used: its test reads
    [input_number_string], a name that is never assigned.  While the
    input mode is binary, whatever key other than Enter is handled, the
    handler, if it gets as far as returning, ends in a [NameError]; and
    the key [b] itself, in any mode, gets there at once, with the hand
    untouched and only the line [pressed b] printed. *)
Theorem X13_binary_mode_raises_name_error
    (keypress : ascii) (c : Console) (f : option JointRef) (w w' : World)
    (v : handled) :
  (input_mode c = INPUT_BINARY -> keypress <> CR ->
   handle_keypress eval int fuel keypress c f w = Ok v w' ->
   exists name, v = NameError name)
  /\ handle_keypress eval int fuel "b" c f w
     = Ok (NameError "input_number_string")
         {| hand := hand w; log := print (Literal "pressed b") :: log w |}.
Proof.
  split.
  - intros Hm Hk H. unfold handle_keypress in H.
    apply bind_Ok in H. destruct H as ([] & w1 & _ & H). cbv zeta in H.
    set (f' := if char_in keypress "tg" then Some Thumb else _) in H.
    assert (T : forall w0 w0' v0,
               ((if char_in keypress "12345"
                    && InputMode_eqb (input_mode c) INPUT_NORMAL
                 then
                   match char_index keypress "12345" with
                   | Some i => Hand.make_number fuel (i + 1)
                   | None => raise ValueError
                   end
                 else ret tt) ;;
                match gesture_map fuel keypress with
                | Some gesture => gesture
                | None => ret tt
                end ;;
                binary_mode eval int fuel keypress c f') w0 = Ok v0 w0' ->
               exists name, v0 = NameError name).
    { intros w0 w0' v0 H0.
      apply bind_Ok in H0. destruct H0 as ([] & w2 & _ & H0).
      apply bind_Ok in H0. destruct H0 as ([] & w3 & _ & H0).
      rewrite binary_mode_name_error in H0 by (auto).
      injection H0 as <- _. now eexists. }
    assert (U : forall w0 w0' v0,
               (if char_in keypress "asdfg"
                then nudge f' 10
                       ((if char_in keypress "12345"
                            && InputMode_eqb (input_mode c) INPUT_NORMAL
                         then
                           match char_index keypress "12345" with
                           | Some i => Hand.make_number fuel (i + 1)
                           | None => raise ValueError
                           end
                         else ret tt) ;;
                        match gesture_map fuel keypress with
                        | Some gesture => gesture
                        | None => ret tt
                        end ;;
                        binary_mode eval int fuel keypress c f')
                else
                  ((if char_in keypress "12345"
                       && InputMode_eqb (input_mode c) INPUT_NORMAL
                    then
                      match char_index keypress "12345" with
                      | Some i => Hand.make_number fuel (i + 1)
                      | None => raise ValueError
                      end
                    else ret tt) ;;
                   match gesture_map fuel keypress with
                   | Some gesture => gesture
                   | None => ret tt
                   end ;;
                   binary_mode eval int fuel keypress c f')) w0 = Ok v0 w0' ->
               exists name, v0 = NameError name).
    { intros w0 w0' v0 H0. destruct (char_in keypress "asdfg").
      - apply nudge_Ok in H0. destruct H0 as [[w2 H0] | ->]; [|now eexists].
        now apply (T w2 w0').
      - now apply (T w0 w0'). }
    destruct (char_in keypress "qwert").
    + apply nudge_Ok in H. destruct H as [[w2 H] | ->]; [|now eexists].
      now apply (U w2 w').
    + now apply (U w1 w').
  - destruct w as [h l]. reflexivity.
Qed.


(** X15.  The keys 1 to 5.  In the normal mode the key [k] runs
    [make_number(k)] and nothing else: no gesture is bound to a digit and
    the two input modes leave it alone.  In the arithmetic mode the same
    key does not move the hand: it is appended to the input string. *)
Theorem X15_digit_key_shows_number_only_in_normal_mode
    (i : nat) (key : ascii) (c : Console) (f : option JointRef) (w : World) :
  nth_error (list_ascii_of_string "12345") i = Some key ->
  (input_mode c = INPUT_NORMAL ->
   handle_keypress eval int fuel key c f w
   = (emit (print (Literal ("pressed " ++ String key EmptyString))) ;;
      Hand.make_number fuel (Z.of_nat i + 1) ;;
      ret (Handled c f)) w)
  /\ (input_mode c = INPUT_ARITHMETIC ->
      handle_keypress eval int fuel key c f w
      = Ok (Handled {| input_mode := INPUT_ARITHMETIC;
                       input_string := input_string c ++ String key EmptyString |} f)
          {| hand := hand w;
             log := print (Literal ("pressed " ++ String key EmptyString))
                      :: log w |}).
Proof.
  intros Hi. destruct w as [h l], c as [m s]. cbn [input_mode input_string].
  do 5 (destruct i as [|i];
        [ injection Hi as <-; split; intros ->;
          [ unfold handle_keypress, bind, emit; cbn -[Hand.make_number];
            destruct (Hand.make_number _ _ _); reflexivity
          | reflexivity ]
        | ]).
  destruct i; discriminate.
Qed.

End HandlerFacts.

Lemma X13_witness :
  handle_keypress eval_sum int_digits 0 "0"
    {| input_mode := INPUT_BINARY; input_string := EmptyString |} None fresh_world
  = Ok (NameError "input_number_string")
      {| hand := Hand.init; log := [print (Literal "pressed 0")] |}
  /\ exists name, NameError "input_number_string" = NameError name.
Proof.
  split; [reflexivity|].
  apply (proj1 (X13_binary_mode_raises_name_error eval_sum int_digits 0 "0"
                  {| input_mode := INPUT_BINARY; input_string := EmptyString |}
                  None fresh_world
                  {| hand := Hand.init; log := [print (Literal "pressed 0")] |}
                  (NameError "input_number_string")));
    [reflexivity | discriminate | reflexivity].
Defined.


Lemma X15_witness :
  handle_keypress eval_sum int_digits 0 "3"
    {| input_mode := INPUT_ARITHMETIC; input_string := "1+" |} None fresh_world
  = Ok (Handled {| input_mode := INPUT_ARITHMETIC; input_string := "1+3" |} None)
      {| hand := Hand.init; log := [print (Literal "pressed 3")] |}.
Proof.
  apply (X15_digit_key_shows_number_only_in_normal_mode eval_sum int_digits 0
           2 "3" {| input_mode := INPUT_ARITHMETIC; input_string := "1+" |}
           None fresh_world); reflexivity.
Defined.

(** ** Messages on the command topic *)

Lemma split_on_app (sep : ascii) (a rest : string) :
  char_in sep a = false ->
  split_on sep (a ++ String sep rest) = a :: split_on sep rest.
Proof.
  induction a as [|c a IH]; cbn [char_in append split_on]; intros H.
  - now rewrite Ascii.eqb_refl.
  - apply orb_false_iff in H. destruct H as [Hc Ha].
    rewrite Ascii.eqb_sym, Hc. now rewrite (IH Ha).
Qed.

Lemma split_on_none (sep : ascii) (s : string) :
  char_in sep s = false -> split_on sep s = [s].
Proof.
  induction s as [|c s IH]; cbn [char_in split_on]; intros H; [reflexivity|].
  apply orb_false_iff in H. destruct H as [Hc Hs].
  rewrite Ascii.eqb_sym, Hc. now rewrite (IH Hs).
Qed.

Lemma append_empty (s : string) : (s ++ EmptyString)%string = s.
Proof. induction s as [|c s IH]; cbn; [reflexivity | now rewrite IH]. Qed.

(** The field that [text.split(":")[1]] picks: what stands between the
    first colon and the second, or the end of the text. *)
Lemma second_field (pre word tail : string) :
  char_in ":" pre = false ->
  char_in ":" word = false ->
  ends_field tail = true ->
  nth_error (split_on ":" (pre ++ String ":" (word ++ tail))) 1 = Some word.
Proof.
  intros Hp Hw Ht. rewrite (split_on_app _ _ _ Hp).
  destruct tail as [|c rest].
  - now rewrite append_empty, (split_on_none _ _ Hw).
  - cbn [ends_field] in Ht. apply Ascii.eqb_eq in Ht. subst c.
    now rewrite (split_on_app _ _ _ Hw).
Qed.

(** X16.  A message on the command topic whose second field, counted
    between colons, is one of the words PALM, FIST, CALL_ME and METAL runs
    the gesture of that word and leaves the keypress alone; what stands
    before the first colon is not looked at, and neither is what follows a
    second colon. *)
Theorem X16_command_word_is_the_second_field
    (fuel : nat) (pre word tail keypress : string) (gesture : M unit)
    (w : World) :
  In (word, gesture) (command_words fuel) ->
  char_in ":" pre = false ->
  ends_field tail = true ->
  on_message fuel COMMAND_TOPIC (pre ++ ":" ++ word ++ tail) keypress w
  = (emit (print (Literal (pre ++ ":" ++ word ++ tail))) ;;
     gesture ;;
     ret keypress) w.
Proof.
  intros Hin Hp Ht. unfold on_message.
  rewrite String.eqb_refl.
  change (pre ++ ":" ++ word ++ tail)%string
    with (pre ++ String ":" (word ++ tail))%string.
  unfold command_words in Hin. cbn [In] in Hin.
  destruct Hin as [H | [H | [H | [H | []]]]]; injection H as <- <-;
    rewrite second_field by (assumption || reflexivity); reflexivity.
Qed.

Lemma X16_witness :
  on_message 0 COMMAND_TOPIC "anything:PALM:ignored" "k" fresh_world
  = Ok "k"%string
      {| hand := Pure.make_palm Hand.init;
         log := [print (Literal "anything:PALM:ignored")] |}.
Proof.
  refine (eq_trans
            (X16_command_word_is_the_second_field 0 "anything" "PALM" ":ignored"
               "k" Hand.make_palm fresh_world _ _ _) _);
    [ cbn; tauto | reflexivity | reflexivity | ].
  unfold bind, emit, ret, fresh_world. cbn [hand log append].
  pose proof (emits_make_palm Hand.init
                [print (Literal "anything:PALM:ignored")]) as E.
  unfold emits in E. cbn [log] in E. rewrite E; reflexivity.
Defined.

Lemma one_character_eqb (k : ascii) (c : ascii) (s : string) :
  String.eqb (String k EmptyString) (String c s)
  = Ascii.eqb k c && String.eqb EmptyString s.
Proof. reflexivity. Qed.

(** A message on the command topic whose second field is one character
    that is no colon. *)
Lemma on_message_key (fuel : nat) (pre tail keypress : string) (k : ascii)
    (h : HandState.t) (l : list Event) :
  char_in ":" pre = false ->
  k <> ":"%char ->
  ends_field tail = true ->
  on_message fuel COMMAND_TOPIC (pre ++ String ":" (String k tail)) keypress
    (mkWorld h l)
  = Ok (String k EmptyString)
      (mkWorld h
         (print (Literal ("setting keypress to " ++ String k EmptyString))
            :: print (Literal (pre ++ String ":" (String k tail))) :: l)).
Proof.
  intros Hp Hk Ht. unfold on_message. rewrite String.eqb_refl.
  change (String k tail) with (String k EmptyString ++ tail)%string.
  rewrite second_field; [ | assumption | | assumption ].
  - rewrite !one_character_eqb. cbn [String.eqb].
    rewrite !andb_false_r. reflexivity.
  - cbn [char_in]. rewrite orb_false_r.
    destruct (Ascii.eqb ":" k) eqn:E; [|reflexivity].
    apply Ascii.eqb_eq in E. now contradiction Hk.
Qed.

(** X17.  The keys of the cyberdeck.  The cyberdeck publishes each key
    that it reads as COMMAND: followed by the character.  On the hand the
    message makes that character the keypress of the next turn of the main
    loop, for every key but the colon: the payload of the colon has an
    empty second field, which is reported as unrecognised and leaves the
    keypress as it was.  The hand is not moved by the message itself. *)
Theorem X17_cyberdeck_key_becomes_the_keypress
    (fuel : nat) (k : ascii) (keypress : string) (w : World) :
  let text := Cyberdeck.command_payload (String k EmptyString) in
  on_message fuel COMMAND_TOPIC text keypress w
  = if Ascii.eqb k ":" then
      Ok keypress
        {| hand := hand w;
           log := print (Literal ("unrecognised command: " ++ text
                                  ++ " on topic " ++ COMMAND_TOPIC))
                    :: print (Literal text) :: log w |}
    else
      Ok (String k EmptyString)
        {| hand := hand w;
           log := print (Literal ("setting keypress to " ++ String k EmptyString))
                    :: print (Literal text) :: log w |}.
Proof.
  cbv zeta. destruct w as [h l]. cbn [hand log].
  destruct (Ascii.eqb k ":") eqn:E.
  - apply Ascii.eqb_eq in E. subst k. reflexivity.
  - apply (on_message_key fuel "COMMAND" EmptyString keypress k h l);
      [reflexivity | | reflexivity].
    intros ->. discriminate.
Qed.

(** X18.  What [on_message] does with the other messages.  A message on
    another topic, the hand's own telemetry among them, is printed and
    nothing else.  On the command topic a payload without a colon raises
    [IndexError] in the callback.  And whatever the payload, as long as
    its second field is none of the four gesture words the hand is left as
    it was. *)
Theorem X18_other_messages_leave_the_hand_alone
    (fuel : nat) (topic text keypress : string) (w : World) :
  (topic <> COMMAND_TOPIC ->
   on_message fuel topic text keypress w
   = Ok keypress {| hand := hand w; log := print (Literal text) :: log w |})
  /\ (char_in ":" text = false ->
      on_message fuel COMMAND_TOPIC text keypress w = Raise IndexError)
  /\ (forall v w',
        (forall word gesture,
           In (word, gesture) (command_words fuel) ->
           nth_error (split_on ":" text) 1 <> Some word) ->
        on_message fuel topic text keypress w = Ok v w' ->
        hand w' = hand w).
Proof.
  destruct w as [h l]. cbn [hand log]. repeat split.
  - intros Ht. unfold on_message.
    destruct (String.eqb topic COMMAND_TOPIC) eqn:E; [|reflexivity].
    apply String.eqb_eq in E. contradiction.
  - intros Hc. unfold on_message. rewrite String.eqb_refl.
    now rewrite (split_on_none _ _ Hc).
  - intros v w' Hw H. unfold on_message in H.
    apply bind_Ok in H. destruct H as ([] & w1 & E1 & H).
    injection E1 as <-.
    destruct (String.eqb topic COMMAND_TOPIC); [|now injection H as _ <-].
    destruct (nth_error (split_on ":" text) 1) as [word|]; [|discriminate].
    assert (Hn : forall s,
               In s ["PALM"; "FIST"; "CALL_ME"; "METAL"]%string ->
               String.eqb word s = false).
    { intros s Hs. destruct (String.eqb word s) eqn:E; [|reflexivity].
      apply String.eqb_eq in E. subst s. exfalso.
      cbn [In] in Hs.
      destruct Hs as [<- | [<- | [<- | [<- | []]]]];
        (eapply Hw; [|reflexivity]); unfold command_words; cbn [In]; eauto 6. }
    rewrite !Hn in H by (cbn [In]; auto 6).
    destruct (Nat.eqb (String.length word) 1);
      apply bind_Ok in H; destruct H as ([] & w2 & E2 & H);
      injection E2 as <-; now injection H as _ <-.
Qed.

Lemma X18_witness :
  on_message 0 TELEMETRY_TOPIC "LEFT_HAND,status:READY" "k" fresh_world
  = Ok "k"%string
      {| hand := Hand.init;
         log := [print (Literal "LEFT_HAND,status:READY")] |}
  /\ on_message 0 COMMAND_TOPIC "FIST" "k" fresh_world = Raise IndexError.
Proof.
  split.
  - apply (proj1 (X18_other_messages_leave_the_hand_alone 0 TELEMETRY_TOPIC
                    "LEFT_HAND,status:READY" "k" fresh_world)).
    discriminate.
  - apply (proj1 (proj2 (X18_other_messages_leave_the_hand_alone 0 COMMAND_TOPIC
                           "FIST" "k" fresh_world))).
    reflexivity.
Defined.

(** ** The status of the hand *)

(** X19.  The end of a turn of the main loop, for a hand with its five
    fingers in order and no degenerate calibration.  The hand is ticked
    once.  The status is that of the hand before the tick: ready when no
    finger had anything queued, so that the turn which applies the last
    queued step still counts as busy.  A status line is published, after
    the telemetry of the tick if there is any, exactly when the status
    differs from that of the turn before or the timer has run out, and it
    says READY or BUSY as the status is. *)
Theorem X19_status_is_sent_on_change_or_timeout
    (old_status timed_out : bool) (h : HandState.t) (l : list Event) :
  HandState.fingers h = five_fingers ->
  nondegenerate h ->
  exists es,
    Hand.update (mkWorld h l)
    = Ok (Pure.all_idle h) (mkWorld (Pure.update h) (es ++ l))
    /\ published es = (if Pure.all_idle h then 0%nat else 1%nat)
    /\ report_status old_status timed_out (mkWorld h l)
       = Ok (Pure.all_idle h)
           (mkWorld (Pure.update h)
              ((if negb (Bool.eqb (Pure.all_idle h) old_status) || timed_out
                then [publish TELEMETRY_TOPIC (status_line (Pure.all_idle h));
                      print (Tx TELEMETRY_TOPIC (status_line (Pure.all_idle h)))]
                else [])
               ++ es ++ l)).
Proof.
  intros Hf Hn.
  destruct (update_step h l Hf Hn) as (es & E & Hp).
  exists es. split; [exact E|]. split; [exact Hp|].
  unfold report_status, bind. rewrite E.
  destruct (negb (Bool.eqb (Pure.all_idle h) old_status) || timed_out);
    [|reflexivity].
  destruct (Pure.all_idle h); reflexivity.
Qed.

Lemma X19_witness :
  exists es,
    Hand.update (mkWorld (Pure.open_finger Index Hand.init) [])
    = Ok false
        (mkWorld (Pure.update (Pure.open_finger Index Hand.init)) (es ++ []))
    /\ published es = 1%nat
    /\ report_status true false (mkWorld (Pure.open_finger Index Hand.init) [])
       = Ok false
           (mkWorld (Pure.update (Pure.open_finger Index Hand.init))
              ([publish TELEMETRY_TOPIC (status_line false);
                print (Tx TELEMETRY_TOPIC (status_line false))]
               ++ es ++ [])).
Proof.
  apply (X19_status_is_sent_on_change_or_timeout true false
           (Pure.open_finger Index Hand.init) []).
  - reflexivity.
  - intros r. destruct r; vm_compute; reflexivity.
Defined.

(** ** The hand on the cyberdeck *)



